(** * CodeKG: API extraction and knowledge-graph construction

    A shallow embedding of the two pipeline stages of the repository:

    - [API_Parser/extract_package_api.py]: static resolution of the export
      list of a package ([parse_init_file]), reflective traversal of the
      loaded package ([traverse_module], [build_api_item]), the
      annotation pass of [main], and the preparation of the virtual
      environment ([install_package_in_venv],
      [add_venv_site_packages_to_sys_path]);
    - [JSON2KG/build_kg.py]: construction of the RDF graph
      ([build_knowledge_graph]) and the mirror write into a property-graph
      store ([write_to_neo4j_py2neo]).

    A Python [str] is modelled as a [string], one [ascii] per character
    (code points below 256); a Python [set] of strings as a [gset string];
    a [dict] keyed by strings as a [gmap string _]. *)

From Stdlib Require Import String Ascii List Bool Arith Lia DecimalString.
From stdpp Require Import base option list gmap strings fin_maps fin_sets.

Set Warnings "-register-all".

Local Open Scope string_scope.
Local Open Scope list_scope.

(** ** Python string primitives *)

Module PyStr.

(** [s.split(sep)] for a one-character separator: never empty, one more
    segment than there are separators. *)
Fixpoint split (sep : ascii) (s : string) : list string :=
  match s with
  | EmptyString => [EmptyString]
  | String c s' =>
      if Ascii.eqb c sep then EmptyString :: split sep s'
      else match split sep s' with
           | [] => [String c EmptyString]
           | h :: t => String c h :: t
           end
  end.

(** [parts[0]] and [parts[-1]] on the result of a split. *)
Definition first_part (parts : list string) : string := hd EmptyString parts.
Definition last_part (parts : list string) : string := List.last parts EmptyString.

(** [s.startswith(p)]. *)
Definition startswith (s p : string) : bool := String.prefix p s.

(** [s.replace(old, new)] for one-character [old] and [new]. *)
Fixpoint replace (old new : ascii) (s : string) : string :=
  match s with
  | EmptyString => EmptyString
  | String c s' => String (if Ascii.eqb c old then new else c) (replace old new s')
  end.

(** Truth value of a string: non-empty. *)
Definition truthy (s : string) : bool :=
  match s with EmptyString => false | _ => true end.

(** Truth value of an optional string ([None] and [""] are false). *)
Definition truthy_opt (o : option string) : bool :=
  match o with Some s => truthy s | None => false end.

(** [needle in hay]. *)
Fixpoint contains (needle hay : string) : bool :=
  String.prefix needle hay
  || match hay with
     | EmptyString => false
     | String _ hay' => contains needle hay'
     end.

(** [s.lower()] on code points below 256: A-Z and the Latin-1 capitals. *)
Definition lower_char (c : ascii) : ascii :=
  let n := nat_of_ascii c in
  if (((65 <=? n) && (n <=? 90)) || ((192 <=? n) && (n <=? 222) && negb (n =? 215)))%nat
  then ascii_of_nat (n + 32) else c.

Fixpoint lower (s : string) : string :=
  match s with
  | EmptyString => EmptyString
  | String c s' => String (lower_char c) (lower s')
  end.

(** Line boundaries of [str.splitlines] below 256. *)
Definition is_linebreak (c : ascii) : bool :=
  let n := nat_of_ascii c in
  (((10 <=? n) && (n <=? 13)) || ((28 <=? n) && (n <=? 30)) || (n =? 133))%nat.

Fixpoint splitlines_from (cur : string) (s : string) : list string :=
  match s with
  | EmptyString => if truthy cur then [cur] else []
  | String c s' =>
      if is_linebreak c then
        cur :: match s' with
               | String c2 s'' =>
                   if ((nat_of_ascii c =? 13) && (nat_of_ascii c2 =? 10))%nat
                   then splitlines_from EmptyString s''
                   else splitlines_from EmptyString s'
               | EmptyString => []
               end
      else splitlines_from (cur ++ String c EmptyString)%string s'
  end.

Definition splitlines (s : string) : list string := splitlines_from EmptyString s.

(** Whitespace of [str.strip] below 256. *)
Definition is_space (c : ascii) : bool :=
  let n := nat_of_ascii c in
  (((9 <=? n) && (n <=? 13)) || ((28 <=? n) && (n <=? 32)) || (n =? 133) || (n =? 160))%nat.

Fixpoint lstrip (s : string) : string :=
  match s with
  | String c s' => if is_space c then lstrip s' else s
  | EmptyString => EmptyString
  end.

Fixpoint rstrip (s : string) : string :=
  match s with
  | EmptyString => EmptyString
  | String c s' =>
      match rstrip s' with
      | EmptyString => if is_space c then EmptyString else String c EmptyString
      | r => String c r
      end
  end.

Definition strip (s : string) : string := rstrip (lstrip s).

(** [sep.join(parts)]. *)
Fixpoint join (sep : string) (parts : list string) : string :=
  match parts with
  | [] => EmptyString
  | [p] => p
  | p :: ps => (p ++ sep ++ join sep ps)%string
  end.

(** [s[:n]]. *)
Definition slice_to (n : nat) (s : string) : string := String.substring 0 n s.

End PyStr.

(** ** Outcomes of calls that may raise *)

(** The exceptions met here ([OSError], [TypeError], [ValueError],
    [AttributeError]) are all subclasses of [Exception]; an outcome carries
    the class name. *)
Inductive result (A : Type) : Type :=
| Ok (a : A)
| Raise (exc : string).
Arguments Ok {A} a.
Arguments Raise {A} exc.

#[global] Instance result_ret : MRet result := fun A a => Ok a.
#[global] Instance result_bind : MBind result := fun A B f m =>
  match m with
  | Ok a => f a
  | Raise e => Raise e
  end.

(** [try: v = body  except Exception: v = handler]. *)
Definition try_except {A} (body : result A) (handler : result A) : result A :=
  match body with
  | Ok a => Ok a
  | Raise _ => handler
  end.

(** ** ExportResolver and APIWalker: extract_package_api.py *)

Module ExtractPackageApi.

(** *** The part of the [ast] module that [parse_init_file] inspects *)

Record alias := Alias { alias_name : string; alias_asname : option string }.

Inductive expr :=
| Name (id : string)
| ListE (elts : list expr)
| TupleE (elts : list expr)
| Str (s : string)
| OtherExpr.

Inductive stmt :=
| Import (names : list alias)
| ImportFrom (module : option string) (names : list alias) (level : nat)
| Assign (targets : list expr) (value : expr)
| OtherStmt.

(** The inner loops of [parse_init_file], one per branch. *)
Definition add_import_names (names : list alias) (symbols : gset string) : gset string :=
  fold_left (fun syms a =>
               {[ PyStr.first_part (PyStr.split "." (alias_name a)) ]} ∪ syms)
            names symbols.

Definition add_from_names (names : list alias) (symbols : gset string) : gset string :=
  fold_left (fun syms a => {[ alias_name a ]} ∪ syms) names symbols.

Definition add_all_elts (elts : list expr) (symbols : gset string) : gset string :=
  fold_left (fun syms elt =>
               match elt with
               | Str s => {[ s ]} ∪ syms
               | _ => syms
               end)
            elts symbols.

(** One iteration of [for node in tree.body]. *)
Definition parse_node (symbols : gset string) (node : stmt) : gset string :=
  match node with
  | Import names => add_import_names names symbols
  | ImportFrom module names _ =>
      let symbols :=
        match module with
        | Some m =>
            if PyStr.truthy m then
              let parts := PyStr.split "." m in
              if PyStr.truthy (PyStr.first_part parts)
              then {[ PyStr.first_part parts ]} ∪ symbols
              else symbols
            else symbols
        | None => symbols
        end in
      add_from_names names symbols
  | Assign [Name "__all__"] (ListE elts) => add_all_elts elts symbols
  | Assign [Name "__all__"] (TupleE elts) => add_all_elts elts symbols
  | Assign _ _ => symbols
  | OtherStmt => symbols
  end.

(** [parse_init_file], on the parsed body of the entry-point file. *)
Definition parse_init_file (body : list stmt) : gset string :=
  fold_left parse_node body ∅.

(** *** Live objects, as the [inspect] module shows them *)

(** The value of a module's [__all__] attribute. *)
Inductive all_value :=
| AllList (names : list string)
| AllTuple (names : list string)
| AllSet (names : list string)
| AllOther.

(** An [inspect.Signature]: its text [str(sig)] and, per parameter in
    declaration order, whether it carries a default. *)
Record pysig := PySig { sig_text : string; sig_params : list (string * bool) }.

(** What the reflective calls of [build_api_item] return on one object,
    and the truth value of the object (for a class, what its metaclass
    decides; true unless the metaclass says otherwise). *)
Record objinfo := ObjInfo {
  o_doc : option string;         (* inspect.getdoc(obj) *)
  o_source : result string;      (* inspect.getsource(obj) *)
  o_signature : result pysig;    (* inspect.signature(obj) *)
  o_module : option string;      (* getattr(obj, '__module__', None) *)
  o_file : result string;        (* inspect.getfile(obj) *)
  o_all : option all_value;      (* getattr(obj, '__all__', None) *)
  o_truth : bool                 (* bool(obj) *)
}.

(** A loaded object with the members [inspect.getmembers] lists for it
    (sorted by name, inherited attributes of a class included).  The first
    argument is the [__name__] attribute.  The constructor is the answer of
    the four [inspect] tests: [PyFunction] is a function written in Python
    ([inspect.isfunction]), [PyMethod] a bound method ([inspect.ismethod]),
    and [PyOther] any other object, built-in and compiled functions among
    them.  A module that is reachable again below itself is its own member
    once more: the visited set cuts the walk there, so a finite unfolding
    describes every run. *)
Inductive pyobj :=
| PyModule (name : option string) (info : objinfo) (members : list (string * pyobj))
| PyClass (name : string) (info : objinfo) (members : list (string * pyobj))
| PyFunction (name : string) (info : objinfo) (members : list (string * pyobj))
| PyMethod (name : string) (info : objinfo) (members : list (string * pyobj))
| PyOther (name : option string) (info : objinfo) (members : list (string * pyobj)).

Definition info_of (obj : pyobj) : objinfo :=
  match obj with
  | PyModule _ i _ | PyClass _ i _ | PyFunction _ i _ | PyMethod _ i _
  | PyOther _ i _ => i
  end.

Definition name_attr (obj : pyobj) : option string :=
  match obj with
  | PyModule n _ _ | PyOther n _ _ => n
  | PyClass n _ _ | PyFunction n _ _ | PyMethod n _ _ => Some n
  end.

Definition getmembers (obj : pyobj) : list (string * pyobj) :=
  match obj with
  | PyModule _ _ ms | PyClass _ _ ms | PyFunction _ _ ms | PyMethod _ _ ms
  | PyOther _ _ ms => ms
  end.

Definition isclass (obj : pyobj) : bool :=
  match obj with PyClass _ _ _ => true | _ => false end.
Definition isfunction (obj : pyobj) : bool :=
  match obj with PyFunction _ _ _ => true | _ => false end.
Definition ismethod (obj : pyobj) : bool :=
  match obj with PyMethod _ _ _ => true | _ => false end.
Definition ismodule (obj : pyobj) : bool :=
  match obj with PyModule _ _ _ => true | _ => false end.

(** The truth value of an optional object: [None] is false. *)
Definition truthy_obj (obj : option pyobj) : bool :=
  match obj with
  | Some o => o_truth (info_of o)
  | None => false
  end.

(** [obj.__name__], raising when the attribute is missing. *)
Definition get_name (obj : pyobj) : result string :=
  match name_attr obj with
  | Some n => Ok n
  | None => Raise "AttributeError"
  end.

(** *** APIRecord: the dictionary built by [build_api_item] *)

Record param_info := ParamInfo {
  p_name : option string;        (* key "name", absent in the extractor's output *)
  p_description : option string;
  p_is_optional : option bool
}.

Record api_item := ApiItem {
  _id : string;
  doc : string;
  is_deprecated : bool;
  source_code : option string;
  signature : string;
  parameters : list (string * param_info);
  returns_doc : option string;
  raise_doc : option string;
  type : string;
  class : option string;
  from_init : bool;
  module : option string;
  file : option string
}.

Definition set_from_init (b : bool) (item : api_item) : api_item :=
  {| _id := _id item; doc := doc item; is_deprecated := is_deprecated item;
     source_code := source_code item; signature := signature item;
     parameters := parameters item; returns_doc := returns_doc item;
     raise_doc := raise_doc item; type := type item; class := class item;
     from_init := b; module := module item; file := file item |}.

Definition is_deprecated_doc (doc : string) : bool :=
  PyStr.truthy doc && PyStr.contains "deprecated" (PyStr.lower doc).

Definition extract_doc_section (doc : string) (keywords : list string) : option string :=
  if negb (PyStr.truthy doc) then None
  else
    let lines := PyStr.splitlines doc in
    let matched :=
      map PyStr.strip
          (List.filter (fun line => existsb (fun k => PyStr.contains k (PyStr.lower line)) keywords)
                       lines) in
    match matched with
    | [] => None
    | _ => Some (PyStr.join (String (ascii_of_nat 10) EmptyString) matched)
    end.

Section Walker.

(** [os.path.relpath], which depends on the working directory of the run. *)
Variable relpath : string -> result string.

Definition build_api_item (full_id : string) (obj : pyobj) (parent_class : option pyobj)
  : result api_item :=
  let doc := default EmptyString (o_doc (info_of obj)) in
  source_code ← try_except (s ← o_source (info_of obj); mret (Some s)) (mret None);
  sig ← try_except (s ← o_signature (info_of obj); mret (sig_text s)) (mret "()");
  let obj_type :=
    if isclass obj then "class"
    else if isfunction obj || ismethod obj then
      if truthy_obj parent_class then "member_function" else "function"
    else if ismodule obj then "module"
    else "unknown" in
  parameters_info ←
    (if String.eqb obj_type "function" || String.eqb obj_type "member_function" then
       try_except
         (sig_obj ← o_signature (info_of obj);
          mret (map (fun '(param_name, has_default) =>
                       (param_name, ParamInfo None None (Some has_default)))
                    (sig_params sig_obj)))
         (mret [])
     else mret []);
  let module_name := o_module (info_of obj) in
  rel_file_path ←
    try_except
      (file_path ← o_file (info_of obj);
       if PyStr.truthy file_path then (r ← relpath file_path; mret (Some r))
       else mret None)
      (mret None);
  cls ← match parent_class with
        | Some pc => if o_truth (info_of pc) then n ← get_name pc; mret (Some n)
                     else mret None
        | None => mret None
        end;
  mret {| _id := full_id;
          doc := doc;
          is_deprecated := is_deprecated_doc doc;
          source_code := source_code;
          signature := sig;
          parameters := parameters_info;
          returns_doc := extract_doc_section doc [":return"; ":returns"];
          raise_doc := extract_doc_section doc [":raise"; ":raises"];
          type := obj_type;
          class := cls;
          from_init := false;
          module := module_name;
          file := rel_file_path |}.

(** The class branch of [traverse_module]: the class record, then one
    record per function or method among the members of the class. *)
Fixpoint class_methods (full_id : string) (cls : pyobj) (subs : list (string * pyobj))
  : result (list api_item) :=
  match subs with
  | [] => mret []
  | (sub_name, sub_member) :: subs' =>
      if isfunction sub_member || ismethod sub_member then
        let method_id := (full_id ++ "." ++ sub_name)%string in
        item ← build_api_item method_id sub_member (Some cls);
        rest ← class_methods full_id cls subs';
        mret (item :: rest)
      else class_methods full_id cls subs'
  end.

Definition visit_class (full_id : string) (member : pyobj) : result (list api_item) :=
  item ← build_api_item full_id member None;
  methods ← class_methods full_id member (getmembers member);
  mret (item :: methods).

(** The loop [for name, member in inspect.getmembers(module)] of
    [traverse_module]; [recurse] is the recursive call. *)
Definition members_loop
    (recurse : pyobj -> gset string -> result (list api_item * gset string))
    (mod_name : string)
  : list (string * pyobj) -> list api_item -> gset string ->
    result (list api_item * gset string) :=
  fix loop ms results visited {struct ms} :=
    match ms with
    | [] => mret (results, visited)
    | (name, member) :: ms' =>
        let full_id := (mod_name ++ "." ++ name)%string in
        if ismodule member then
          if PyStr.startswith (default EmptyString (name_attr member))
                              (PyStr.first_part (PyStr.split "." mod_name))
          then
            '(sub, visited') ← recurse member visited;
            loop ms' (results ++ sub) visited'
          else loop ms' results visited
        else if isclass member then
          recs ← visit_class full_id member;
          loop ms' (results ++ recs) visited
        else if isfunction member then
          rec ← build_api_item full_id member None;
          loop ms' (results ++ [rec]) visited
        else loop ms' results visited
    end.

(** [traverse_module]: the records in emission order and the visited set
    after the call. *)
Fixpoint traverse_module (module : pyobj) (visited : gset string) {struct module}
  : result (list api_item * gset string) :=
  let mod_name := default "unknown" (name_attr module) in
  if decide (mod_name ∈ visited) then mret ([], visited)
  else
    let visited := {[ mod_name ]} ∪ visited in
    item ← build_api_item mod_name module None;
    match module with
    | PyModule _ _ members | PyClass _ _ members | PyFunction _ _ members
    | PyMethod _ _ members | PyOther _ _ members =>
        members_loop traverse_module mod_name members [item] visited
    end.

(** The part of [main] after the package is loaded: resolve the export
    set, walk the package, mark the records, select the marked ones.
    Returns the init-only list and the full list. *)
Definition resolve_exports (init_body : list stmt) (main_module : pyobj) : gset string :=
  let exported_symbols := parse_init_file init_body in
  match o_all (info_of main_module) with
  | Some (AllList names) | Some (AllTuple names) | Some (AllSet names) =>
      exported_symbols ∪ list_to_set names
  | _ => exported_symbols
  end.

Definition mark_from_init (exported_symbols : gset string) (item : api_item) : api_item :=
  let parts := PyStr.split "." (_id item) in
  if decide (PyStr.last_part parts ∈ exported_symbols)
  then set_from_init true item
  else item.

Definition main (init_body : list stmt) (main_module : pyobj)
  : result (list api_item * list api_item) :=
  let exported_symbols := resolve_exports init_body main_module in
  '(all_api, _) ← traverse_module main_module ∅;
  let all_api := map (mark_from_init exported_symbols) all_api in
  let init_only_api := List.filter from_init all_api in
  mret (init_only_api, all_api).

End Walker.

End ExtractPackageApi.

(** ** GraphBuilder: build_kg.py *)

Module BuildKg.

Import ExtractPackageApi.

(** *** The RDF side: terms, triples, the graph as a set of triples *)

Inductive term :=
| URIRef (uri : string)
| Literal (lexical : string) (datatype : option string).

#[global] Instance term_eq_dec : EqDecision term.
Proof. solve_decision. Defined.

#[global] Instance term_countable : Countable term.
Proof.
  refine (inj_countable'
            (fun t => match t with
                      | URIRef u => inl u
                      | Literal l d => inr (l, d)
                      end)
            (fun x => match x with
                      | inl u => URIRef u
                      | inr (l, d) => Literal l d
                      end) _).
  intros [u | l d]; reflexivity.
Defined.

Definition triple : Type := term * term * term.

(** [f"{t}"]: the text of a term. *)
Definition term_text (t : term) : string :=
  match t with URIRef u => u | Literal l _ => l end.

(** [if node: ...] on a node variable: [None] is false, a node is a [str]. *)
Definition if_node {A} (o : option term) (f : term -> A) (otherwise : A) : A :=
  match o with
  | Some n => if PyStr.truthy (term_text n) then f n else otherwise
  | None => otherwise
  end.

Definition CODE : string := "http://example.org/code#".
Definition code (local : string) : term := URIRef (CODE ++ local)%string.
Definition RDF_type : term := URIRef "http://www.w3.org/1999/02/22-rdf-syntax-ns#type".
Definition RDFS_label : term := URIRef "http://www.w3.org/2000/01/rdf-schema#label".
Definition XSD_string : string := "http://www.w3.org/2001/XMLSchema#string".

(** [Literal(s)] and [Literal(s, datatype=XSD.string)]. *)
Definition plain (s : string) : term := Literal s None.
Definition xsd (s : string) : term := Literal s (Some XSD_string).

(** The local function [uri_encode] of [build_knowledge_graph]. *)
Definition safe_id (identifier : string) : string :=
  PyStr.replace "." "_"
    (PyStr.replace " " "_"
       (PyStr.replace "/" "_"
          (PyStr.replace "\" "_" identifier))).

Definition uri_encode (base_ns : term) (identifier : string) : term :=
  URIRef (term_text base_ns ++ safe_id identifier)%string.

(** The graph and the four lookup tables of one construction pass. *)
Record kg_state := KgState {
  graph : gset triple;
  script_map : gmap string term;
  module_map : gmap string term;
  class_map : gmap string term;
  api_map : gmap string term
}.

Definition add (t : triple) (st : kg_state) : kg_state :=
  KgState ({[ t ]} ∪ graph st) (script_map st) (module_map st) (class_map st) (api_map st).

Definition set_script (k : string) (n : term) (st : kg_state) : kg_state :=
  KgState (graph st) (<[k := n]> (script_map st)) (module_map st) (class_map st) (api_map st).
Definition set_module (k : string) (n : term) (st : kg_state) : kg_state :=
  KgState (graph st) (script_map st) (<[k := n]> (module_map st)) (class_map st) (api_map st).
Definition set_class (k : string) (n : term) (st : kg_state) : kg_state :=
  KgState (graph st) (script_map st) (module_map st) (<[k := n]> (class_map st)) (api_map st).
Definition set_api (k : string) (n : term) (st : kg_state) : kg_state :=
  KgState (graph st) (script_map st) (module_map st) (class_map st) (<[k := n]> (api_map st)).

(** The ontology declarations and the Library node. *)
Definition ontology : list triple :=
  [ (code "Library", RDFS_label, plain "Library");
    (code "Script", RDFS_label, plain "Script");
    (code "Module", RDFS_label, plain "Module");
    (code "Class", RDFS_label, plain "Class");
    (code "API", RDFS_label, plain "API");
    (code "Description", RDFS_label, plain "Description");
    (code "ReturnValue", RDFS_label, plain "ReturnValue");
    (code "Parameter", RDFS_label, plain "Parameter");
    (code "hasScript", RDFS_label, plain "has script");
    (code "containModule", RDFS_label, plain "contain module");
    (code "include", RDFS_label, plain "include");
    (code "inherit", RDFS_label, plain "inherit");
    (code "hasMethod", RDFS_label, plain "has method");
    (code "hasReturnValueType", RDFS_label, plain "has return value type");
    (code "hasDescription", RDFS_label, plain "has description");
    (code "hasReturnValue", RDFS_label, plain "has return value");
    (code "hasParameter", RDFS_label, plain "has parameter") ].

Definition library_node_of (library_name : string) : term :=
  URIRef (CODE ++ PyStr.replace " " "_" library_name)%string.

Definition initial_state (library_name : string) : kg_state :=
  let library_node := library_node_of library_name in
  add (library_node, RDFS_label, xsd library_name)
    (add (library_node, RDF_type, code "Library")
       (foldl (fun st t => add t st) (KgState ∅ ∅ ∅ ∅ ∅) ontology)).

(** Step 1 of the loop body: the Script node of the record. *)
Definition script_step (library_node : term) (file_str : option string) (st : kg_state)
  : kg_state * option term :=
  match file_str with
  | Some f =>
      if PyStr.truthy f then
        match script_map st !! f with
        | None =>
            let script_node := uri_encode (code "Script") f in
            (set_script f script_node
               (add (library_node, code "hasScript", script_node)
                  (add (script_node, RDFS_label, xsd f)
                     (add (script_node, RDF_type, code "Script") st))),
             Some script_node)
        | Some script_node => (st, Some script_node)
        end
      else (st, None)
  | None => (st, None)
  end.

(** The Module block, written out twice in the source (step 2 and the
    fallback of step 3): reuse the table entry or create the node. *)
Definition module_step (module_str : string) (script_node : option term) (st : kg_state)
  : kg_state * option term :=
  match module_map st !! module_str with
  | None =>
      let mod_node := uri_encode (code "Module") module_str in
      let st := set_module module_str mod_node
                  (add (mod_node, RDFS_label, xsd module_str)
                     (add (mod_node, RDF_type, code "Module") st)) in
      (if_node script_node
         (fun script_node => add (script_node, code "containModule", mod_node) st) st,
       Some mod_node)
  | Some mod_node => (st, Some mod_node)
  end.

(** Step 3, the [class] branch. *)
Definition class_step (item : api_item) (script_node mod_node : option term) (st : kg_state)
  : kg_state :=
  let '(st, mod_node) :=
    if negb (PyStr.truthy_opt (module item)) then
      let module_str :=
        if bool_decide (class item = Some "Flask") || bool_decide (class item = Some "App")
        then "flask.app" else "UnknownModule" in
      module_step module_str script_node st
    else (st, mod_node) in
  let class_node := uri_encode (code "Class") (_id item) in
  let st := set_class (_id item) class_node
              (add (class_node, RDFS_label, xsd (_id item))
                 (add (class_node, RDF_type, code "Class") st)) in
  if_node mod_node (fun mod_node => add (mod_node, code "include", class_node) st) st.

(** Step 3, the [function] / [member_function] branch. *)
Definition api_step (item : api_item) (mod_node : option term) (st : kg_state) : kg_state :=
  let api_node := uri_encode (code "API") (_id item) in
  let st := set_api (_id item) api_node
              (add (api_node, RDFS_label, xsd (_id item))
                 (add (api_node, RDF_type, code "API") st)) in
  if String.eqb (type item) "member_function" && PyStr.truthy_opt (class item) then
    let class_str := default EmptyString (class item) in
    match class_map st !! class_str with
    | None =>
        let parent_class_node := uri_encode (code "Class") class_str in
        add (parent_class_node, code "hasMethod", api_node)
          (set_class class_str parent_class_node
             (add (parent_class_node, RDFS_label, xsd class_str)
                (add (parent_class_node, RDF_type, code "Class") st)))
    | Some parent_class_node =>
        add (parent_class_node, code "hasMethod", api_node) st
    end
  else
    if_node mod_node (fun mod_node => add (mod_node, code "hasMethod", api_node) st) st.

Definition is_api_type (item_type : string) : bool :=
  String.eqb item_type "function" || String.eqb item_type "member_function".

(** Step 4: the Description node. *)
Definition doc_step (item : api_item) (st : kg_state) : kg_state :=
  if PyStr.truthy (doc item) then
    let desc_node := uri_encode (code "Description") (_id item ++ "_desc")%string in
    let st := add (desc_node, RDFS_label, xsd (PyStr.slice_to 200 (doc item)))
                (add (desc_node, RDF_type, code "Description") st) in
    if is_api_type (type item) then
      if_node (api_map st !! _id item)
        (fun api_node => add (api_node, code "hasDescription", desc_node) st) st
    else if String.eqb (type item) "class" then
      if_node (class_map st !! _id item)
        (fun class_node => add (class_node, code "hasDescription", desc_node) st) st
    else st
  else st.

(** Step 5: the ReturnValue node. *)
Definition ret_step (item : api_item) (st : kg_state) : kg_state :=
  match returns_doc item with
  | Some ret_doc =>
      if PyStr.truthy ret_doc && is_api_type (type item) then
        let ret_node := uri_encode (code "ReturnValue") (_id item ++ "_ret")%string in
        let st := add (ret_node, RDFS_label, xsd ret_doc)
                    (add (ret_node, RDF_type, code "ReturnValue") st) in
        if_node (api_map st !! _id item)
          (fun api_node => add (api_node, code "hasReturnValue", ret_node) st) st
      else st
  | None => st
  end.

(** [str(b)] of a Python [bool]. *)
Definition str_of_bool (b : bool) : string := if b then "True" else "False".

(** Step 6: one Parameter node per entry of the parameter dictionary. *)
Definition param_step (item : api_item) (st : kg_state) : kg_state :=
  match parameters item with
  | [] => st
  | param_dict =>
      if is_api_type (type item) then
        if_node (api_map st !! _id item)
          (fun api_node =>
              foldl (fun st '(p_key, p_info) =>
                       let real_param_name := default p_key (p_name p_info) in
                       let param_node :=
                         uri_encode (code "Parameter")
                                    (_id item ++ "_" ++ real_param_name)%string in
                       let label_str :=
                         (real_param_name ++ " (optional="
                            ++ str_of_bool (default false (p_is_optional p_info)) ++ ")")%string in
                       add (api_node, code "hasParameter", param_node)
                         (add (param_node, RDFS_label, xsd label_str)
                            (add (param_node, RDF_type, code "Parameter") st)))
                    st param_dict) st
      else st
  end.

(** Steps 1 to 3 of the loop body. *)
Definition entity_step (library_node : term) (item : api_item) (st : kg_state) : kg_state :=
  let '(st, script_node) := script_step library_node (file item) st in
  let '(st, mod_node) :=
    match module item with
    | Some m => if PyStr.truthy m then module_step m script_node st else (st, None)
    | None => (st, None)
    end in
  if String.eqb (type item) "class" then class_step item script_node mod_node st
  else if is_api_type (type item) then api_step item mod_node st
  else st.

(** One iteration of [for item in data_list]. *)
Definition process_item (library_node : term) (st : kg_state) (item : api_item) : kg_state :=
  param_step item (ret_step item (doc_step item (entity_step library_node item st))).

(** [build_knowledge_graph]: the final state holds the graph and the
    tables returned in [node_dicts]. *)
Definition build_knowledge_graph (data_list : list api_item) (library_name : string)
  : kg_state :=
  foldl (process_item (library_node_of library_name)) (initial_state library_name) data_list.

(** *** The property-graph side: the store behind py2neo *)

(** Property values written by the program. *)
Inductive pval :=
| PStr (s : string)
| PBool (b : bool).

#[global] Instance pval_eq_dec : EqDecision pval.
Proof. solve_decision. Defined.

(** A stored node: its label and properties.  The store numbers its nodes
    in creation order (the surrogate identity of a node is its position),
    and holds relationships as (start, type, end) over these identities. *)
Record neo_node := NeoNode { n_label : string; n_props : gmap string pval }.

Record store := Store {
  nodes : list neo_node;
  rels : gset (nat * string * nat)
}.

(** The pattern [(n:label {name: name})]. *)
Definition has_key (label name : string) (n : neo_node) : Prop :=
  n_label n = label ∧ n_props n !! "name" = Some (PStr name).

#[global] Instance has_key_dec label name n : Decision (has_key label name n).
Proof. unfold has_key. apply _. Defined.

(** [graph.nodes.match(label, name=name).first()]. *)
Definition match_first (label name : string) (st : store) : option nat :=
  fst <$> list_find (has_key label name) (nodes st).

(** [graph.create(Node(label, **props))]: always a new node. *)
Definition create_node (label : string) (props : gmap string pval) (st : store)
  : nat * store :=
  (length (nodes st), Store (nodes st ++ [NeoNode label props]) (rels st)).

(** [graph.merge(Node(label, name=name, **extra), label, "name")]:
    MERGE on the pattern, then SET += the properties on what matched;
    the node object is bound to the (first) matched or the created node. *)
Definition merge_node (label name : string) (extra : gmap string pval) (st : store)
  : nat * store :=
  let props := <["name" := PStr name]> extra in
  match list_find (has_key label name) (nodes st) with
  | Some (i, _) =>
      (i, Store ((fun n => if decide (has_key label name n)
                           then NeoNode (n_label n) (props ∪ n_props n) else n)
                   <$> nodes st)
                (rels st))
  | None => create_node label props st
  end.

(** [graph.merge(Relationship(a, ty, b))] on bound nodes. *)
Definition merge_rel (a : nat) (ty : string) (b : nat) (st : store) : store :=
  Store (nodes st) ({[ (a, ty, b) ]} ∪ rels st).

(** [if node: graph.merge(Relationship(node, ty, b))]; a bound node
    carries its [name] property and is true. *)
Definition merge_rel_from (a : option nat) (ty : string) (b : nat) (st : store) : store :=
  match a with
  | Some a => merge_rel a ty b st
  | None => st
  end.

(** The Description, ReturnValue and Parameter blocks of the loop body. *)
Definition neo_doc (item : api_item) (owner : nat) (st : store) : store :=
  if PyStr.truthy (doc item) then
    let '(desc_node, st) :=
      merge_node "Description" (_id item ++ "_desc")%string
                 {[ "content" := PStr (doc item) ]} st in
    merge_rel owner "HAS_DESCRIPTION" desc_node st
  else st.

Definition neo_ret (item : api_item) (api_node : nat) (st : store) : store :=
  match returns_doc item with
  | Some ret_doc =>
      if PyStr.truthy ret_doc then
        let '(ret_node, st) :=
          merge_node "ReturnValue" (_id item ++ "_ret")%string
                     {[ "content" := PStr ret_doc ]} st in
        merge_rel api_node "HAS_RETURN_VALUE" ret_node st
      else st
  | None => st
  end.

Definition neo_params (item : api_item) (api_node : nat) (st : store) : store :=
  foldl (fun st '(p_key, p_info) =>
           let real_param_name := default p_key (p_name p_info) in
           let '(param_node, st) :=
             merge_node "Parameter" (_id item ++ "_" ++ real_param_name)%string
                        {[ "optional" := PBool (default false (p_is_optional p_info)) ]} st in
           merge_rel api_node "HAS_PARAMETER" param_node st)
        st (parameters item).

(** The [class] branch of the loop body. *)
Definition neo_class (item : api_item) (script_node module_node : option nat) (st : store)
  : store :=
  let '(module_node, st) :=
    if negb (PyStr.truthy_opt (module item)) then
      let module_str :=
        if bool_decide (class item = Some "Flask") || bool_decide (class item = Some "App")
        then "flask.app" else "UnknownModule" in
      let '(module_node, st) := merge_node "Module" module_str ∅ st in
      (Some module_node, merge_rel_from script_node "CONTAIN_MODULE" module_node st)
    else (module_node, st) in
  let '(class_node, st) := merge_node "Class" (_id item) ∅ st in
  let st := merge_rel_from module_node "INCLUDE" class_node st in
  neo_doc item class_node st.

(** The [function] / [member_function] branch of the loop body. *)
Definition neo_api (item : api_item) (module_node : option nat) (st : store) : store :=
  let '(api_node, st) := merge_node "API" (_id item) ∅ st in
  let st :=
    if String.eqb (type item) "member_function" && PyStr.truthy_opt (class item) then
      let '(parent_class_node, st) :=
        merge_node "Class" (default EmptyString (class item)) ∅ st in
      merge_rel parent_class_node "HAS_METHOD" api_node st
    else merge_rel_from module_node "HAS_METHOD" api_node st in
  neo_params item api_node (neo_ret item api_node (neo_doc item api_node st)).

(** One iteration of [for item in data_list] of [write_to_neo4j_py2neo]. *)
Definition write_item (library_node : nat) (st : store) (item : api_item) : store :=
  let '(script_node, st) :=
    match file item with
    | Some f =>
        if PyStr.truthy f then
          let '(script_node, st) := merge_node "Script" f ∅ st in
          (Some script_node, merge_rel library_node "HAS_SCRIPT" script_node st)
        else (None, st)
    | None => (None, st)
    end in
  let '(module_node, st) :=
    match module item with
    | Some m =>
        if PyStr.truthy m then
          let '(module_node, st) := merge_node "Module" m ∅ st in
          (Some module_node, merge_rel_from script_node "CONTAIN_MODULE" module_node st)
        else (None, st)
    | None => (None, st)
    end in
  if String.eqb (type item) "class" then neo_class item script_node module_node st
  else if is_api_type (type item) then neo_api item module_node st
  else st.

(** [write_to_neo4j_py2neo], as the transformation of the store it is
    connected to.  [library_name] is the entry of [node_dicts] it reads. *)
Definition write_to_neo4j_py2neo (library_name : string) (data_list : list api_item)
    (st : store) : store :=
  let '(library_node, st) :=
    match match_first "Library" library_name st with
    | Some existing_library => (existing_library, st)
    | None => create_node "Library" {[ "name" := PStr library_name ]} st
    end in
  foldl (write_item library_node) st data_list.

Definition empty_store : store := Store [] ∅.

End BuildKg.

(** * Properties of the export resolver *)

Module ExportResolverFacts.

Import ExtractPackageApi.

Lemma add_import_names_incl names symbols :
  symbols ⊆ add_import_names names symbols.
Proof.
  revert symbols. induction names as [|a names IH]; intros symbols; simpl.
  - done.
  - etrans; [|apply IH]. set_solver.
Qed.

Lemma add_from_names_incl names symbols :
  symbols ⊆ add_from_names names symbols.
Proof.
  revert symbols. induction names as [|a names IH]; intros symbols; simpl.
  - done.
  - etrans; [|apply IH]. set_solver.
Qed.

Lemma add_from_names_elem names symbols x :
  x ∈ add_from_names names symbols ↔ x ∈ symbols ∨ ∃ a, a ∈ names ∧ x = alias_name a.
Proof.
  revert symbols. induction names as [|a names IH]; intros symbols; simpl.
  - split; [auto|]. intros [?|(a & Ha & _)]; [done|]. by apply elem_of_nil in Ha.
  - rewrite IH. split.
    + intros [H|(b & Hb & ->)].
      * apply elem_of_union in H as [H|H]; [|by left].
        apply elem_of_singleton in H as ->. right. exists a. split; [left|done].
      * right. exists b. split; [by right|done].
    + intros [H|(b & Hb & ->)].
      * left. set_solver.
      * apply elem_of_cons in Hb as [->|Hb]; [left; set_solver|].
        right. by exists b.
Qed.

Lemma add_all_elts_incl elts symbols :
  symbols ⊆ add_all_elts elts symbols.
Proof.
  revert symbols. induction elts as [|e elts IH]; intros symbols; simpl.
  - done.
  - etrans; [|apply IH]. destruct e; set_solver.
Qed.

Lemma parse_node_incl symbols node :
  symbols ⊆ parse_node symbols node.
Proof.
  destruct node as [names|module names level|targets value|]; simpl.
  - apply add_import_names_incl.
  - etrans; [|apply add_from_names_incl].
    destruct module as [m|]; [|done].
    destruct (PyStr.truthy m); [|done].
    destruct (PyStr.truthy _); set_solver.
  - repeat (case_match; try done); apply add_all_elts_incl.
  - done.
Qed.

Lemma parse_body_incl body symbols :
  symbols ⊆ fold_left parse_node body symbols.
Proof.
  revert symbols. induction body as [|node body IH]; intros symbols; simpl.
  - done.
  - etrans; [apply (parse_node_incl symbols node)|apply IH].
Qed.

Lemma parse_body_node body node symbols x :
  node ∈ body →
  (∀ syms, x ∈ parse_node syms node) →
  x ∈ fold_left parse_node body symbols.
Proof.
  revert symbols. induction body as [|n body IH]; intros symbols Hin Hx.
  - by apply elem_of_nil in Hin.
  - simpl. apply elem_of_cons in Hin as [->|Hin].
    + apply parse_body_incl, Hx.
    + by apply IH.
Qed.

(** C2, as the code has it: a top-level from-import contributes the root
    segment of its module (when the module is given and that segment is
    not empty) and, for each imported symbol, its original name; the
    [asname] of the alias is not read. *)
Theorem parse_init_file_from_import body module names level :
  ImportFrom module names level ∈ body →
  (∀ m, module = Some m →
        PyStr.truthy (PyStr.first_part (PyStr.split "." m)) = true →
        PyStr.first_part (PyStr.split "." m) ∈ parse_init_file body)
  ∧ (∀ a, a ∈ names → alias_name a ∈ parse_init_file body).
Proof.
  intros Hin. split.
  - intros m -> Hroot. unfold parse_init_file.
    apply (parse_body_node _ _ _ _ Hin). intros syms. simpl.
    apply add_from_names_incl.
    assert (PyStr.truthy m = true) as ->.
    { destruct m; [|done]. simpl in Hroot. done. }
    rewrite Hroot. set_solver.
  - intros a Ha. unfold parse_init_file.
    apply (parse_body_node _ _ _ _ Hin). intros syms. simpl.
    apply add_from_names_elem. right. by exists a.
Qed.

Lemma parse_init_file_from_import_witness :
  "core" ∈ parse_init_file [ImportFrom (Some "core") [Alias "Widget" (Some "W")] 1]
  ∧ "Widget" ∈ parse_init_file [ImportFrom (Some "core") [Alias "Widget" (Some "W")] 1].
Proof.
  pose proof (parse_init_file_from_import
                [ImportFrom (Some "core") [Alias "Widget" (Some "W")] 1]
                (Some "core") [Alias "Widget" (Some "W")] 1) as H.
  destruct H as [H1 H2]; [left|].
  split.
  - apply (H1 "core"); reflexivity.
  - apply (H2 (Alias "Widget" (Some "W"))). left.
Defined.

(** C2, as the claim has it, fails: the alias of
    [from .core import Widget as W] is not added. *)
Lemma parse_init_file_alias_not_added :
  ¬ (∀ body module names level a,
        ImportFrom module names level ∈ body →
        a ∈ names →
        default (alias_name a) (alias_asname a) ∈ parse_init_file body).
Proof.
  intros H.
  specialize (H [ImportFrom (Some "core") [Alias "Widget" (Some "W")] 1]
                (Some "core") [Alias "Widget" (Some "W")] 1
                (Alias "Widget" (Some "W"))).
  assert ("W" ∈ ({[ "Widget" ]} ∪ ({[ "core" ]} ∪ ∅) : gset string)) as Hin.
  { apply H; left. }
  set_solver.
Qed.

End ExportResolverFacts.

(** * Properties of the API walker *)

Module WalkerFacts.

Import ExtractPackageApi.

(** Induction on a loaded object that reaches the members of modules and
    classes. *)
Section pyobj_nested_ind.
Variable P : pyobj → Prop.
Hypothesis Hmodule : ∀ n i ms, Forall (λ nm, P nm.2) ms → P (PyModule n i ms).
Hypothesis Hclass : ∀ n i ms, Forall (λ nm, P nm.2) ms → P (PyClass n i ms).
Hypothesis Hfunction : ∀ n i ms, Forall (λ nm, P nm.2) ms → P (PyFunction n i ms).
Hypothesis Hmethod : ∀ n i ms, Forall (λ nm, P nm.2) ms → P (PyMethod n i ms).
Hypothesis Hother : ∀ n i ms, Forall (λ nm, P nm.2) ms → P (PyOther n i ms).

Fixpoint pyobj_nested_ind (obj : pyobj) : P obj :=
  match obj with
  | PyModule n i ms =>
      Hmodule n i ms
        ((fix members_ind (ms : list (string * pyobj)) : Forall (λ nm, P nm.2) ms :=
            match ms with
            | [] => @List.Forall_nil _ _
            | nm :: ms' =>
                @List.Forall_cons _ _ nm ms' (pyobj_nested_ind nm.2) (members_ind ms')
            end) ms)
  | PyClass n i ms =>
      Hclass n i ms
        ((fix members_ind (ms : list (string * pyobj)) : Forall (λ nm, P nm.2) ms :=
            match ms with
            | [] => @List.Forall_nil _ _
            | nm :: ms' =>
                @List.Forall_cons _ _ nm ms' (pyobj_nested_ind nm.2) (members_ind ms')
            end) ms)
  | PyFunction n i ms =>
      Hfunction n i ms
        ((fix members_ind (ms : list (string * pyobj)) : Forall (λ nm, P nm.2) ms :=
            match ms with
            | [] => @List.Forall_nil _ _
            | nm :: ms' =>
                @List.Forall_cons _ _ nm ms' (pyobj_nested_ind nm.2) (members_ind ms')
            end) ms)
  | PyMethod n i ms =>
      Hmethod n i ms
        ((fix members_ind (ms : list (string * pyobj)) : Forall (λ nm, P nm.2) ms :=
            match ms with
            | [] => @List.Forall_nil _ _
            | nm :: ms' =>
                @List.Forall_cons _ _ nm ms' (pyobj_nested_ind nm.2) (members_ind ms')
            end) ms)
  | PyOther n i ms =>
      Hother n i ms
        ((fix members_ind (ms : list (string * pyobj)) : Forall (λ nm, P nm.2) ms :=
            match ms with
            | [] => @List.Forall_nil _ _
            | nm :: ms' =>
                @List.Forall_cons _ _ nm ms' (pyobj_nested_ind nm.2) (members_ind ms')
            end) ms)
  end.
End pyobj_nested_ind.

(** The module objects the walk can descend to from [root]. *)
Inductive reaches : pyobj → pyobj → Prop :=
| reaches_here m : reaches m m
| reaches_member root name sub m :
    (name, sub) ∈ getmembers root → ismodule sub = true →
    reaches sub m → reaches root m.

Definition mod_name_of (m : pyobj) : string := default "unknown" (name_attr m).

Section walker.

Variable relpath : string → result string.

Ltac unfold_result :=
  unfold mbind, result_bind, mret, result_ret, try_except in *.

(** The record that [build_api_item] returns, field by field. *)
Lemma build_api_item_fields full_id obj parent_class r :
  build_api_item relpath full_id obj parent_class = Ok r →
  _id r = full_id
  ∧ from_init r = false
  ∧ class r = (if truthy_obj parent_class then parent_class ≫= name_attr else None)
  ∧ type r = (if isclass obj then "class"
              else if isfunction obj || ismethod obj then
                     if truthy_obj parent_class then "member_function" else "function"
              else if ismodule obj then "module" else "unknown")
  ∧ source_code r = match o_source (info_of obj) with
                    | Ok s => Some s
                    | Raise _ => None
                    end
  ∧ signature r = match o_signature (info_of obj) with
                  | Ok s => sig_text s
                  | Raise _ => "()"
                  end.
Proof.
  unfold ExtractPackageApi.build_api_item, get_name, truthy_obj. unfold_result.
  intros H.
  destruct (o_source (info_of obj)), (o_signature (info_of obj));
    destruct parent_class as [pc|]; simpl in *;
    repeat (case_match; simplify_eq; simpl in *; try done).
Qed.


(** [traverse_module], unfolded once. *)
Lemma traverse_module_unfold module visited :
  traverse_module relpath module visited =
  if decide (mod_name_of module ∈ visited) then Ok ([], visited)
  else
    item ← build_api_item relpath (mod_name_of module) module None;
    members_loop relpath (traverse_module relpath) (mod_name_of module)
                 (getmembers module) [item] ({[ mod_name_of module ]} ∪ visited).
Proof. destruct module; reflexivity. Qed.

(** *** Where a record comes from *)

Inductive origin (root : pyobj) (r : api_item) : Prop :=
| origin_module m :
    reaches root m →
    build_api_item relpath (mod_name_of m) m None = Ok r →
    origin root r
| origin_member m name member :
    reaches root m →
    (name, member) ∈ getmembers m →
    isclass member || isfunction member = true →
    build_api_item relpath (mod_name_of m ++ "." ++ name)%string member None = Ok r →
    origin root r
| origin_method m name cls sub_name sub :
    reaches root m →
    (name, cls) ∈ getmembers m →
    isclass cls = true →
    (sub_name, sub) ∈ getmembers cls →
    isfunction sub || ismethod sub = true →
    build_api_item relpath ((mod_name_of m ++ "." ++ name) ++ "." ++ sub_name)%string
                   sub (Some cls) = Ok r →
    origin root r.

Lemma origin_lift root name sub r :
  (name, sub) ∈ getmembers root → ismodule sub = true →
  origin sub r → origin root r.
Proof.
  intros Hin Hmod [m Hr Hb|m n member Hr Hm Hk Hb|m n cls sn s Hr Hm Hc Hs Hk Hb].
  - eapply origin_module; [eapply reaches_member|]; eauto.
  - eapply origin_member; [eapply reaches_member| | |]; eauto.
  - eapply origin_method; [eapply reaches_member| | | | |]; eauto.
Qed.

Lemma class_methods_origin full_id cls subs rs :
  class_methods relpath full_id cls subs = Ok rs →
  ∀ r, r ∈ rs →
    ∃ sub_name sub, (sub_name, sub) ∈ subs
      ∧ isfunction sub || ismethod sub = true
      ∧ build_api_item relpath (full_id ++ "." ++ sub_name)%string sub (Some cls) = Ok r.
Proof.
  revert rs. induction subs as [|[sub_name sub] subs IH]; intros rs; simpl.
  - unfold_result. intros [= <-] r Hr. by apply elem_of_nil in Hr.
  - destruct (isfunction sub || ismethod sub) eqn:Hk.
    + unfold_result.
      destruct (build_api_item relpath _ sub (Some cls)) as [item|] eqn:Hitem; [|done].
      destruct (class_methods relpath full_id cls subs) as [rest|] eqn:Hrest; [|done].
      intros [= <-] r Hr. apply elem_of_cons in Hr as [->|Hr].
      * exists sub_name, sub. split; [left|done].
      * destruct (IH rest eq_refl r Hr) as (sn & s & Hin & Hs & Hb).
        exists sn, s. split; [by right|done].
    + intros Hrs r Hr. destruct (IH rs Hrs r Hr) as (sn & s & Hin & Hs & Hb).
      exists sn, s. split; [by right|done].
Qed.




Lemma visit_class_inv full_id member rs :
  visit_class relpath full_id member = Ok rs →
  ∃ item methods,
    rs = item :: methods
    ∧ build_api_item relpath full_id member None = Ok item
    ∧ class_methods relpath full_id member (getmembers member) = Ok methods.
Proof.
  unfold visit_class. unfold_result.
  destruct (build_api_item relpath full_id member None) as [item|]; [|done].
  destruct (class_methods relpath full_id member (getmembers member)) as [ms|]; [|done].
  intros [= <-]. eauto.
Qed.

(** *** The member loop *)





Lemma members_loop_origin root ms results visited rs v :
  (∀ nm, nm ∈ ms → nm ∈ getmembers root) →
  Forall (λ nm, ∀ visited rs v,
            traverse_module relpath nm.2 visited = Ok (rs, v) →
            ∀ r, r ∈ rs → origin nm.2 r) ms →
  (∀ r, r ∈ results → origin root r) →
  members_loop relpath (traverse_module relpath) (mod_name_of root) ms results visited
    = Ok (rs, v) →
  ∀ r, r ∈ rs → origin root r.
Proof.
  intros Hsub Hrec. revert results visited Hsub.
  induction Hrec as [|[name member] ms Hm _ IH]; intros results visited Hsub Hres; simpl.
  - by intros [= <- <-].
  - assert ((name, member) ∈ getmembers root) as Hin by (apply Hsub; left).
    assert (∀ nm, nm ∈ ms → nm ∈ getmembers root) as Hsub' by (intros; apply Hsub; by right).
    unfold_result. destruct (ismodule member) eqn:Hmod.
    { destruct (PyStr.startswith _ _); [|by apply IH].
      destruct (traverse_module relpath member visited) as [[sub v']|] eqn:Hsubrun; [|done].
      apply IH; [done|]. intros r Hr. apply elem_of_app in Hr as [Hr|Hr]; [by apply Hres|].
      eapply origin_lift; [done..|]. eapply Hm; eauto. }
    destruct (isclass member) eqn:Hc.
    { destruct (visit_class relpath _ member) as [recs|] eqn:Hrecs; [|done].
      apply IH; [done|]. intros r Hr. apply elem_of_app in Hr as [Hr|Hr]; [by apply Hres|].
      apply visit_class_inv in Hrecs as (item & methods & -> & Hitem & Hmethods).
      apply elem_of_cons in Hr as [->|Hr].
      - eapply origin_member; [apply reaches_here|done| |done]. by rewrite Hc.
      - destruct (class_methods_origin _ _ _ _ Hmethods r Hr) as (sn & s & Hs & Hk & Hb).
        eapply origin_method; [apply reaches_here|done..]. }
    destruct (isfunction member) eqn:Hf; [|by apply IH].
    destruct (build_api_item relpath _ member None) as [rec|] eqn:Hb; [|done].
    apply IH; [done|]. intros r Hr. apply elem_of_app in Hr as [Hr|Hr]; [by apply Hres|].
    apply list_elem_of_singleton in Hr as ->.
    eapply origin_member; [apply reaches_here|done| |done]. by rewrite Hc, Hf.
Qed.

(** Every record of a walk was built from an object of the package: a
    module that was reached, a class or function among its members, or a
    function or method among the members of such a class. *)
Lemma traverse_module_origin module :
  ∀ visited rs v,
    traverse_module relpath module visited = Ok (rs, v) →
    ∀ r, r ∈ rs → origin module r.
Proof.
  assert (∀ module,
            Forall (λ nm : string * pyobj, ∀ visited rs v,
                      traverse_module relpath nm.2 visited = Ok (rs, v) →
                      ∀ r, r ∈ rs → origin nm.2 r) (getmembers module) →
            ∀ visited rs v,
              traverse_module relpath module visited = Ok (rs, v) →
              ∀ r, r ∈ rs → origin module r) as Hstep.
  { intros m Hms visited rs v. rewrite traverse_module_unfold.
    destruct (decide _).
    { intros [= <- <-] r Hr. by apply elem_of_nil in Hr. }
    unfold_result.
    destruct (build_api_item relpath (mod_name_of m) m None) as [item|] eqn:Hitem; [|done].
    apply members_loop_origin; [done..|].
    intros r Hr. apply list_elem_of_singleton in Hr as ->.
    eapply origin_module; [apply reaches_here|done]. }
  induction module using pyobj_nested_ind; apply Hstep; simpl; try done.
Qed.

(** *** Records of a walk *)

Lemma traverse_module_from_init module visited rs v r :
  traverse_module relpath module visited = Ok (rs, v) →
  r ∈ rs → from_init r = false.
Proof.
  intros Hrun Hr.
  destruct (traverse_module_origin _ _ _ _ Hrun r Hr)
    as [m _ Hb|m n member _ _ _ Hb|m n cls sn sub _ _ _ _ _ Hb];
    by apply build_api_item_fields in Hb as (_ & ? & _).
Qed.



(** *** Sub-modules *)









(** C8, as the code has it: the [class] field of a member_function record
    is the [__name__] of the class object whose members were being
    enumerated when the record was built (the class reached as member
    [name] of a walked module), whichever class defines the method. *)
Theorem owning_class_is_class_name root visited rs v r :
  traverse_module relpath root visited = Ok (rs, v) →
  r ∈ rs →
  type r = "member_function" →
  ∃ m name cls sub_name sub,
    reaches root m
    ∧ (name, cls) ∈ getmembers m
    ∧ isclass cls = true
    ∧ (sub_name, sub) ∈ getmembers cls
    ∧ _id r = ((mod_name_of m ++ "." ++ name) ++ "." ++ sub_name)%string
    ∧ class r = name_attr cls.
Proof.
  intros Hrun Hr Ht.
  destruct (traverse_module_origin _ _ _ _ Hrun r Hr)
    as [m _ Hb|m n member _ _ _ Hb|m n cls sn sub Hreach Hin Hc Hsub _ Hb];
    apply build_api_item_fields in Hb as (Hid & _ & Hcls & Hty & _).
  - rewrite Ht in Hty. repeat (case_match; try done).
  - rewrite Ht in Hty. repeat (case_match; try done).
  - exists m, n, cls, sn, sub. split_and!; try done.
    rewrite Hcls. rewrite Ht in Hty. unfold truthy_obj in *.
    destruct (o_truth (info_of cls)); [done|].
    repeat (case_match; try done).
Qed.

End walker.

(** *** Sample packages *)

Definition no_info : objinfo :=
  ObjInfo None (Raise "OSError") (Raise "ValueError") None (Raise "TypeError") None true.

(** A package [pkg] with a class [Widget] that has a method [run]. *)
Definition widget_pkg : pyobj :=
  PyModule (Some "pkg") no_info
    [("Widget", PyClass "Widget" no_info [("run", PyFunction "run" no_info [])])].

(** A package [foo] that exposes the unrelated module [foobar]. *)
Definition foo_pkg : pyobj :=
  PyModule (Some "foo") no_info [("dep", PyModule (Some "foobar") no_info [])].




Lemma owning_class_is_class_name_witness :
  ∃ r, type r = "member_function" ∧ class r = Some "Widget".
Proof.
  destruct (traverse_module (λ p, Ok p) widget_pkg ∅) as [[rs v]|] eqn:Hrun;
    [|vm_compute in Hrun; discriminate].
  assert (∃ r, r ∈ rs ∧ type r = "member_function") as (r & Hr & Ht).
  { vm_compute in Hrun. injection Hrun as <- _. eexists. split; [do 2 right; left|done]. }
  exists r. split; [done|].
  destruct (owning_class_is_class_name (λ p, Ok p) widget_pkg ∅ rs v r Hrun Hr Ht)
    as (m & name & cls & sn & sub & Hreach & Hin & Hc & _ & _ & ->).
  inversion Hreach as [|? ? ? ? Hm Hismod _]; subst.
  - apply list_elem_of_singleton in Hin. by injection Hin as -> ->.
  - apply list_elem_of_singleton in Hm. by injection Hm as -> ->.
Defined.

(** C8, as the claim has it, fails: the method record of [pkg.Widget]
    carries the bare class name, not the dotted identifier. *)
Lemma owning_class_is_not_dotted_identifier :
  ∃ rs v r,
    traverse_module (λ p, Ok p) widget_pkg ∅ = Ok (rs, v)
    ∧ r ∈ rs
    ∧ type r = "member_function"
    ∧ _id r = "pkg.Widget.run"
    ∧ class r = Some "Widget"
    ∧ class r ≠ Some "pkg.Widget".
Proof.
  eexists _, _, _. split; [reflexivity|].
  split; [do 2 right; left|]. done.
Qed.

(** C4 at [foo_pkg]: the walk of [foo] descends into [foobar], whose first
    dotted segment is not [foo]. *)
Lemma traverse_module_enters_prefix_named_module relpath :
  ∃ rs v,
    traverse_module relpath foo_pkg ∅ = Ok (rs, v)
    ∧ _id <$> rs = ["foo"; "foobar"]
    ∧ PyStr.first_part (PyStr.split "." "foobar")
      ≠ PyStr.first_part (PyStr.split "." "foo").
Proof.
  eexists _, _. split; [reflexivity|]. done.
Qed.

(** *** The annotation pass *)

Lemma resolve_exports_union init_body main_module :
  resolve_exports init_body main_module =
  parse_init_file init_body ∪
  match o_all (info_of main_module) with
  | Some (AllList names) | Some (AllTuple names) | Some (AllSet names) => list_to_set names
  | _ => ∅
  end.
Proof.
  unfold resolve_exports.
  destruct (o_all (info_of main_module)) as [[names|names|names|]|];
    try done; by rewrite (right_id_L ∅ (∪)).
Qed.

Lemma mark_from_init_spec exported_symbols item :
  from_init item = false →
  _id (mark_from_init exported_symbols item) = _id item
  ∧ (from_init (mark_from_init exported_symbols item) = true
     ↔ PyStr.last_part (PyStr.split "." (_id item)) ∈ exported_symbols).
Proof.
  intros Hdefault. unfold mark_from_init.
  destruct (decide _) as [Hin|Hnot]; simpl; [done|].
  rewrite Hdefault. split; [done|]. split; [done|]. intros; contradiction.
Qed.

(** C1: in the full list written by one run, a record is flagged
    [from_init] exactly when the last dotted segment of its identifier is
    in the export set, the union of the statically parsed symbols and the
    elements of the loaded module's [__all__] when that is a list, a tuple
    or a set. *)
Theorem main_marks_exported relpath init_body main_module init_only_api all_api :
  main relpath init_body main_module = Ok (init_only_api, all_api) →
  ∀ r, r ∈ all_api →
    (from_init r = true
     ↔ PyStr.last_part (PyStr.split "." (_id r)) ∈
         parse_init_file init_body ∪
         match o_all (info_of main_module) with
         | Some (AllList names) | Some (AllTuple names) | Some (AllSet names) =>
             list_to_set names
         | _ => ∅
         end).
Proof.
  unfold main. rewrite resolve_exports_union.
  set (exported := _ ∪ _).
  unfold mbind, result_bind, mret, result_ret.
  destruct (traverse_module relpath main_module ∅) as [[walked v]|] eqn:Hrun; [|done].
  intros [= _ <-] r Hr.
  apply list_elem_of_In, in_map_iff in Hr as (item & <- & Hitem).
  apply list_elem_of_In in Hitem.
  pose proof (traverse_module_from_init _ _ _ _ _ _ Hrun Hitem) as Hdefault.
  destruct (mark_from_init_spec exported item Hdefault) as [-> Hiff]. done.
Qed.

(** An entry point [from .core import Widget as W; __all__ = ["W"]]. *)
Definition widget_init : list stmt :=
  [ ImportFrom (Some "core") [Alias "Widget" (Some "W")] 1;
    Assign [Name "__all__"] (ListE [Str "W"]) ].

Lemma main_marks_exported_witness :
  ∃ init_only_api all_api,
    main (λ p, Ok p) widget_init widget_pkg = Ok (init_only_api, all_api)
    ∧ ∀ r, r ∈ all_api →
        (from_init r = true
         ↔ PyStr.last_part (PyStr.split "." (_id r)) ∈
             parse_init_file widget_init ∪ (∅ : gset string)).
Proof.
  destruct (main (λ p, Ok p) widget_init widget_pkg) as [[init_only_api all_api]|] eqn:Hmain;
    [|vm_compute in Hmain; discriminate].
  exists init_only_api, all_api. split; [done|].
  exact (main_marks_exported (λ p, Ok p) widget_init widget_pkg init_only_api all_api Hmain).
Defined.

End WalkerFacts.

(** * Properties of the graph builder *)

Module BuildKgFacts.

Import ExtractPackageApi BuildKg.

(** *** Identifier sanitization *)

(** The characters that [uri_encode] maps to ["_"], and ["_"] itself. *)
Definition is_separator (c : ascii) : bool :=
  Ascii.eqb c "\" || Ascii.eqb c "/" || Ascii.eqb c " " || Ascii.eqb c "."
  || Ascii.eqb c "_".

Definition sanitize_char (c : ascii) : ascii :=
  if is_separator c then "_"%char else c.

Lemma safe_id_cons c s :
  safe_id (String c s) = String (sanitize_char c) (safe_id s).
Proof.
  unfold safe_id, sanitize_char, is_separator. simpl. f_equal.
  destruct (Ascii.eqb_spec c "\") as [->|?]; [done|].
  destruct (Ascii.eqb_spec c "/") as [->|?]; [done|].
  destruct (Ascii.eqb_spec c " ") as [->|?]; [done|].
  destruct (Ascii.eqb_spec c ".") as [->|?]; [done|].
  destruct (Ascii.eqb_spec c "_") as [->|?]; done.
Qed.

Lemma sanitize_char_eq c1 c2 :
  sanitize_char c1 = sanitize_char c2
  ↔ c1 = c2 ∨ (is_separator c1 = true ∧ is_separator c2 = true).
Proof.
  unfold sanitize_char.
  destruct (is_separator c1) eqn:H1, (is_separator c2) eqn:H2.
  - split; [by right|done].
  - split.
    + intros <-. done.
    + intros [->|[_ ?]]; congruence.
  - split.
    + intros ->. done.
    + intros [->|[? _]]; congruence.
  - split; [by left|]. intros [->|[? _]]; congruence.
Qed.

Lemma safe_id_eq k1 k2 :
  safe_id k1 = safe_id k2
  ↔ Forall2 (λ c1 c2, c1 = c2 ∨ (is_separator c1 = true ∧ is_separator c2 = true))
            (list_ascii_of_string k1) (list_ascii_of_string k2).
Proof.
  revert k2. induction k1 as [|c1 k1 IH]; intros [|c2 k2].
  - split; [constructor|done].
  - rewrite safe_id_cons. split; [done|]. intros H; inversion H.
  - rewrite safe_id_cons. split; [done|]. intros H; inversion H.
  - rewrite !safe_id_cons. simpl. split.
    + intros [= Hc Hk]. constructor; [by apply sanitize_char_eq|by apply IH].
    + intros H. inversion H as [|? ? ? ? Hc Hk]; subst.
      f_equal; [by apply sanitize_char_eq|by apply IH].
Qed.

Lemma string_app_inv_l (p a b : string) : (p ++ a = p ++ b)%string → a = b.
Proof. induction p as [|c p IH]; simpl; [done|]. intros [= H]. by apply IH. Qed.

(** C7, as the code has it: [uri_encode] is a function of the category and
    the key, and two keys of one category get the same node identifier
    exactly when they have the same length and agree at every position,
    up to the choice among backslash, slash, space, dot and underscore. *)
Theorem uri_encode_eq_iff base_ns k1 k2 :
  uri_encode base_ns k1 = uri_encode base_ns k2
  ↔ Forall2 (λ c1 c2, c1 = c2 ∨ (is_separator c1 = true ∧ is_separator c2 = true))
            (list_ascii_of_string k1) (list_ascii_of_string k2).
Proof.
  rewrite <- safe_id_eq. unfold uri_encode. split.
  - intros [= H]. by apply string_app_inv_l in H.
  - by intros ->.
Qed.

(** C7, as the claim has it, fails: the distinct keys [a.b] and [a_b]
    get the same node identifier. *)
Lemma uri_encode_collides :
  ¬ (∀ base_ns k1 k2, k1 ≠ k2 → uri_encode base_ns k1 ≠ uri_encode base_ns k2).
Proof.
  intros H. by apply (H (code "Class") "a.b" "a_b").
Qed.

(** *** The lookup tables and the graph during one pass *)

(** A table of category [cat] maps a key to the node made from it, and
    that node is typed in the graph. *)
Definition table_ok (cat : string) (m : gmap string term) (g : gset triple) : Prop :=
  ∀ k n, m !! k = Some n → n = uri_encode (code cat) k ∧ (n, RDF_type, code cat) ∈ g.

Definition tables_ok (st : kg_state) : Prop :=
  table_ok "Script" (script_map st) (graph st)
  ∧ table_ok "Module" (module_map st) (graph st)
  ∧ table_ok "Class" (class_map st) (graph st)
  ∧ table_ok "API" (api_map st) (graph st).

(** The node of a Description entity. *)
Definition desc_like (o : term) : Prop :=
  ∃ x, o = uri_encode (code "Description") (x ++ "_desc")%string.

(** The one way a record links a Description node: [hasDescription] from
    its own API or Class node, when its doc is not empty. *)
Definition attaches (item : api_item) (t : triple) : Prop :=
  t.1.2 = code "hasDescription"
  ∧ t.2 = uri_encode (code "Description") (_id item ++ "_desc")%string
  ∧ PyStr.truthy (doc item) = true
  ∧ ((is_api_type (type item) = true ∧ t.1.1 = uri_encode (code "API") (_id item))
     ∨ (type item = "class" ∧ t.1.1 = uri_encode (code "Class") (_id item))).

Definition new_ok (item : api_item) (t : triple) : Prop :=
  desc_like t.2 → attaches item t.

(** [st'] continues [st] while [item] is processed. *)
Definition grows (item : api_item) (st st' : kg_state) : Prop :=
  tables_ok st'
  ∧ graph st ⊆ graph st'
  ∧ ∀ t, t ∈ graph st' → t ∈ graph st ∨ new_ok item t.

Lemma safe_id_app a b : safe_id (a ++ b) = (safe_id a ++ safe_id b)%string.
Proof.
  induction a as [|c a IH]; [done|].
  change (String c a ++ b)%string with (String c (a ++ b)).
  rewrite !safe_id_cons, IH. done.
Qed.

Lemma string_app_nonempty (a b : string) : b ≠ EmptyString → (a ++ b)%string ≠ EmptyString.
Proof. destruct a; simpl; [done|]. intros _ H. discriminate. Qed.

Lemma uri_encode_truthy base_ns k :
  PyStr.truthy (term_text base_ns) = true →
  PyStr.truthy (term_text (uri_encode base_ns k)) = true.
Proof. simpl. by destruct (term_text base_ns). Qed.

Lemma not_desc_like_literal l d : ¬ desc_like (Literal l d).
Proof. intros [x H]. discriminate. Qed.

Ltac unfold_uri := unfold uri_encode, code, CODE, term_text in *; simpl in *.

Lemma not_desc_like_code cat :
  cat ∈ ["Library"; "Script"; "Module"; "Class"; "API"; "Description";
         "ReturnValue"; "Parameter"] →
  ¬ desc_like (code cat).
Proof.
  intros Hcat [x H]. unfold uri_encode in H. rewrite safe_id_app in H.
  repeat (apply elem_of_cons in Hcat as [->|Hcat]); try (by apply elem_of_nil in Hcat);
    unfold_uri; simplify_eq.
  symmetry in H. revert H. apply string_app_nonempty, string_app_nonempty.
  by vm_compute.
Qed.

Lemma not_desc_like_uri cat k :
  cat ∈ ["Script"; "Module"; "Class"; "API"; "ReturnValue"; "Parameter"] →
  ¬ desc_like (uri_encode (code cat) k).
Proof.
  intros Hcat [x H].
  repeat (apply elem_of_cons in Hcat as [->|Hcat]); try (by apply elem_of_nil in Hcat);
    unfold_uri; simplify_eq.
Qed.

Lemma table_ok_mono cat m g g' : g ⊆ g' → table_ok cat m g → table_ok cat m g'.
Proof. intros Hg Hm k n Hk. destruct (Hm k n Hk). split; [done|]. by apply Hg. Qed.

Lemma table_ok_insert cat m g k :
  (uri_encode (code cat) k, RDF_type, code cat) ∈ g →
  table_ok cat m g → table_ok cat (<[k := uri_encode (code cat) k]> m) g.
Proof.
  intros Hin Hm k' n. destruct (decide (k = k')) as [->|Hne].
  - rewrite lookup_insert_eq. by intros [= <-].
  - rewrite lookup_insert_ne by done. apply Hm.
Qed.

Lemma grows_refl item st : tables_ok st → grows item st st.
Proof. intros H. split; [done|]. split; [done|]. by left. Qed.

Lemma grows_trans item st1 st2 st3 :
  grows item st1 st2 → grows item st2 st3 → grows item st1 st3.
Proof.
  intros (_ & Hsub1 & Hnew1) (Hok & Hsub2 & Hnew2).
  split; [done|]. split; [by etrans|].
  intros t Ht. destruct (Hnew2 t Ht) as [Ht2|?]; [|by right]. by apply Hnew1.
Qed.

Lemma grows_add item st t :
  tables_ok st → new_ok item t → grows item st (add t st).
Proof.
  intros (H1 & H2 & H3 & H4) Hnew.
  assert (graph st ⊆ graph (add t st)) as Hsub by (simpl; set_solver).
  split; [|split; [done|]].
  - unfold tables_ok. split_and!; eapply table_ok_mono; eauto.
  - intros t' Ht'. simpl in Ht'. apply elem_of_union in Ht' as [Ht'|Ht']; [|by left].
    apply elem_of_singleton in Ht' as ->. by right.
Qed.

Lemma grows_add_plain item st s p o :
  tables_ok st → ¬ desc_like o → grows item st (add (s, p, o) st).
Proof. intros Hok Hno. apply grows_add; [done|]. intros Hd. by destruct Hno. Qed.

Lemma grows_set_script item st k :
  tables_ok st →
  (uri_encode (code "Script") k, RDF_type, code "Script") ∈ graph st →
  grows item st (set_script k (uri_encode (code "Script") k) st).
Proof.
  intros (H1 & H2 & H3 & H4) Hin. split; [|split; [done|by left]].
  unfold tables_ok; simpl. split_and!; try done. by apply table_ok_insert.
Qed.

Lemma grows_set_module item st k :
  tables_ok st →
  (uri_encode (code "Module") k, RDF_type, code "Module") ∈ graph st →
  grows item st (set_module k (uri_encode (code "Module") k) st).
Proof.
  intros (H1 & H2 & H3 & H4) Hin. split; [|split; [done|by left]].
  unfold tables_ok; simpl. split_and!; try done. by apply table_ok_insert.
Qed.

Lemma grows_set_class item st k :
  tables_ok st →
  (uri_encode (code "Class") k, RDF_type, code "Class") ∈ graph st →
  grows item st (set_class k (uri_encode (code "Class") k) st).
Proof.
  intros (H1 & H2 & H3 & H4) Hin. split; [|split; [done|by left]].
  unfold tables_ok; simpl. split_and!; try done. by apply table_ok_insert.
Qed.

Lemma grows_set_api item st k :
  tables_ok st →
  (uri_encode (code "API") k, RDF_type, code "API") ∈ graph st →
  grows item st (set_api k (uri_encode (code "API") k) st).
Proof.
  intros (H1 & H2 & H3 & H4) Hin. split; [|split; [done|by left]].
  unfold tables_ok; simpl. split_and!; try done. by apply table_ok_insert.
Qed.

Lemma grows_tables item st0 st : grows item st0 st → tables_ok st.
Proof. by intros (? & _). Qed.

Lemma grows_then_add item st0 st s p o :
  grows item st0 st → ¬ desc_like o → grows item st0 (add (s, p, o) st).
Proof.
  intros H Hno. eapply grows_trans; [done|].
  apply grows_add_plain; [by eapply grows_tables|done].
Qed.

Lemma grows_then_attach item st0 st t :
  grows item st0 st → attaches item t → grows item st0 (add t st).
Proof.
  intros H Ht. eapply grows_trans; [done|].
  apply grows_add; [by eapply grows_tables|]. by intros _.
Qed.

Lemma grows_then_set_script item st0 st k :
  grows item st0 st →
  (uri_encode (code "Script") k, RDF_type, code "Script") ∈ graph st →
  grows item st0 (set_script k (uri_encode (code "Script") k) st).
Proof.
  intros H Hin. eapply grows_trans; [done|].
  apply grows_set_script; [by eapply grows_tables|done].
Qed.

Lemma grows_then_set_module item st0 st k :
  grows item st0 st →
  (uri_encode (code "Module") k, RDF_type, code "Module") ∈ graph st →
  grows item st0 (set_module k (uri_encode (code "Module") k) st).
Proof.
  intros H Hin. eapply grows_trans; [done|].
  apply grows_set_module; [by eapply grows_tables|done].
Qed.

Lemma grows_then_set_class item st0 st k :
  grows item st0 st →
  (uri_encode (code "Class") k, RDF_type, code "Class") ∈ graph st →
  grows item st0 (set_class k (uri_encode (code "Class") k) st).
Proof.
  intros H Hin. eapply grows_trans; [done|].
  apply grows_set_class; [by eapply grows_tables|done].
Qed.

Lemma grows_then_set_api item st0 st k :
  grows item st0 st →
  (uri_encode (code "API") k, RDF_type, code "API") ∈ graph st →
  grows item st0 (set_api k (uri_encode (code "API") k) st).
Proof.
  intros H Hin. eapply grows_trans; [done|].
  apply grows_set_api; [by eapply grows_tables|done].
Qed.

(** Closes the side conditions of the lemmas above. *)
Ltac side :=
  first
    [ apply not_desc_like_literal
    | apply not_desc_like_code; set_solver
    | apply not_desc_like_uri; set_solver
    | simpl; set_solver ].

Ltac grow :=
  repeat first
    [ assumption
    | apply grows_then_set_script; [|side]
    | apply grows_then_set_module; [|side]
    | apply grows_then_set_class; [|side]
    | apply grows_then_set_api; [|side]
    | apply grows_then_add; [|side] ].

Lemma script_step_grows item library_node file_str st0 st :
  grows item st0 st →
  grows item st0 (script_step library_node file_str st).1.
Proof.
  intros H. unfold script_step.
  destruct file_str as [f|]; [|done].
  destruct (PyStr.truthy f); [|done].
  destruct (script_map st !! f); [done|]. simpl. grow.
Qed.

Lemma module_step_grows item module_str script_node st0 st :
  grows item st0 st →
  grows item st0 (module_step module_str script_node st).1
  ∧ (module_step module_str script_node st).2 = Some (uri_encode (code "Module") module_str)
  ∧ (uri_encode (code "Module") module_str, RDF_type, code "Module")
      ∈ graph (module_step module_str script_node st).1.
Proof.
  intros H. unfold module_step.
  destruct (module_map st !! module_str) as [n|] eqn:Hn; simpl.
  - apply grows_tables in H as Hok. destruct Hok as (_ & Hmod & _).
    destruct (Hmod _ _ Hn) as [-> Hin]. done.
  - split; [|split; [done|]].
    + unfold if_node. destruct script_node as [sn|]; [destruct (PyStr.truthy _)|]; grow.
    + unfold if_node. destruct script_node as [sn|]; [destruct (PyStr.truthy _)|];
        simpl; set_solver.
Qed.

Lemma class_step_grows item script_node mod_node st0 st :
  grows item st0 st →
  grows item st0 (class_step item script_node mod_node st).
Proof.
  intros H. unfold class_step.
  destruct (negb (PyStr.truthy_opt (module item))).
  - match goal with
    | |- context [module_step ?m ?sn ?s] =>
        destruct (module_step_grows item m sn st0 s H) as (Hg & _);
        destruct (module_step m sn s) as [st1 mn]
    end.
    simpl in Hg. unfold if_node.
    destruct mn as [mn|]; [destruct (PyStr.truthy _)|]; grow.
  - unfold if_node.
    destruct mod_node as [mn|]; [destruct (PyStr.truthy _)|]; grow.
Qed.

Lemma api_step_grows item mod_node st0 st :
  grows item st0 st →
  grows item st0 (api_step item mod_node st).
Proof.
  intros H. unfold api_step.
  destruct (_ && _).
  - simpl. destruct (class_map st !! _); grow.
  - unfold if_node.
    destruct mod_node as [mn|]; [destruct (PyStr.truthy _)|]; grow.
Qed.

Lemma entity_step_grows item library_node st0 st :
  grows item st0 st →
  grows item st0 (entity_step library_node item st).
Proof.
  intros H. unfold entity_step.
  pose proof (script_step_grows item library_node (file item) st0 st H) as Hs.
  destruct (script_step library_node (file item) st) as [st1 script_node]. simpl in Hs.
  assert (∀ m, grows item st0 (module_step m script_node st1).1) as Hm.
  { intros m. by apply module_step_grows. }
  destruct (module item) as [m|].
  - destruct (PyStr.truthy m).
    + specialize (Hm m). destruct (module_step m script_node st1) as [st2 mod_node].
      simpl in Hm.
      destruct (String.eqb _ _); [by apply class_step_grows|].
      destruct (is_api_type _); [by apply api_step_grows|done].
    + destruct (String.eqb _ _); [by apply class_step_grows|].
      destruct (is_api_type _); [by apply api_step_grows|done].
  - destruct (String.eqb _ _); [by apply class_step_grows|].
    destruct (is_api_type _); [by apply api_step_grows|done].
Qed.

Lemma doc_step_grows item st0 st :
  grows item st0 st → grows item st0 (doc_step item st).
Proof.
  intros H. unfold doc_step.
  destruct (PyStr.truthy (doc item)) eqn:Hdoc; [|done].
  apply grows_tables in H as Hok. destruct Hok as (_ & _ & Hcls & Hapi).
  destruct (is_api_type (type item)) eqn:Hty.
  - unfold if_node. simpl.
    destruct (api_map st !! _id item) as [n|] eqn:Hn; [|grow].
    destruct (PyStr.truthy (term_text n)); [|grow].
    apply grows_then_attach; [grow|].
    destruct (Hapi _ _ Hn) as [-> _]. unfold attaches. simpl. split_and!; auto.
  - destruct (String.eqb_spec (type item) "class") as [Hc|Hc]; [|grow].
    unfold if_node. simpl.
    destruct (class_map st !! _id item) as [n|] eqn:Hn; [|grow].
    destruct (PyStr.truthy (term_text n)); [|grow].
    apply grows_then_attach; [grow|].
    destruct (Hcls _ _ Hn) as [-> _]. unfold attaches. simpl. split_and!; auto.
Qed.

Lemma ret_step_grows item st0 st :
  grows item st0 st → grows item st0 (ret_step item st).
Proof.
  intros H. unfold ret_step.
  destruct (returns_doc item) as [ret_doc|]; [|done].
  destruct (_ && _); [|done].
  unfold if_node. simpl.
  destruct (api_map st !! _id item) as [n|]; [|grow].
  destruct (PyStr.truthy (term_text n)); grow.
Qed.

Lemma param_step_grows item st0 st :
  grows item st0 st → grows item st0 (param_step item st).
Proof.
  intros H. unfold param_step.
  destruct (parameters item) as [|p ps]; [done|].
  destruct (is_api_type _); [|done].
  unfold if_node.
  destruct (api_map st !! _id item) as [n|]; [|done].
  destruct (PyStr.truthy (term_text n)); [|done].
  generalize (p :: ps). intros params. revert st H.
  induction params as [|[p_key p_info] params IH]; intros st H; simpl; [done|].
  apply IH. grow.
Qed.

Lemma process_item_grows item library_node st :
  tables_ok st → grows item st (process_item library_node st item).
Proof.
  intros Hok. unfold process_item.
  apply param_step_grows, ret_step_grows, doc_step_grows, entity_step_grows.
  by apply grows_refl.
Qed.

(** *** The whole pass *)

Lemma initial_state_ok library_name :
  tables_ok (initial_state library_name)
  ∧ ∀ t, t ∈ graph (initial_state library_name) → ¬ desc_like t.2.
Proof.
  split.
  - unfold tables_ok, table_ok. simpl. split_and!; intros k n Hk; by rewrite lookup_empty in Hk.
  - intros t Ht. unfold initial_state in Ht. simpl in Ht.
    repeat (apply elem_of_union in Ht as [Ht|Ht];
            [apply elem_of_singleton in Ht as ->; simpl; side|]).
    by apply elem_of_empty in Ht.
Qed.

Lemma foldl_process_grows library_node data st :
  tables_ok st →
  tables_ok (foldl (process_item library_node) st data)
  ∧ graph st ⊆ graph (foldl (process_item library_node) st data)
  ∧ ∀ t, t ∈ graph (foldl (process_item library_node) st data) →
         t ∈ graph st ∨ ∃ item, item ∈ data ∧ new_ok item t.
Proof.
  revert st. induction data as [|item data IH]; intros st Hok; simpl.
  - split; [done|]. split; [done|]. by left.
  - destruct (process_item_grows item library_node st Hok) as (Hok1 & Hsub1 & Hnew1).
    destruct (IH _ Hok1) as (Hok2 & Hsub2 & Hnew2).
    split; [done|]. split; [by etrans|].
    intros t Ht. destruct (Hnew2 t Ht) as [Ht1|(other & Hin & Hnew)].
    + destruct (Hnew1 t Ht1) as [?|?]; [by left|].
      right. exists item. split; [left|done].
    + right. exists other. split; [by right|done].
Qed.

Lemma build_knowledge_graph_tables data library_name :
  tables_ok (build_knowledge_graph data library_name).
Proof.
  unfold build_knowledge_graph.
  destruct (foldl_process_grows (library_node_of library_name) data _
              (proj1 (initial_state_ok library_name))) as (H & _).
  exact H.
Qed.

(** What the step of one record puts into the graph stays to the end. *)
Lemma build_knowledge_graph_keeps data library_name item t :
  item ∈ data →
  (∀ st, tables_ok st → t ∈ graph (process_item (library_node_of library_name) st item)) →
  t ∈ graph (build_knowledge_graph data library_name).
Proof.
  intros Hin Hstep. unfold build_knowledge_graph.
  generalize (initial_state library_name) (proj1 (initial_state_ok library_name)).
  induction data as [|x data IH]; intros st Hok; [by apply elem_of_nil in Hin|].
  simpl. apply elem_of_cons in Hin as [->|Hin].
  - destruct (process_item_grows x (library_node_of library_name) st Hok) as (Hok1 & _).
    destruct (foldl_process_grows (library_node_of library_name) data _ Hok1)
      as (_ & Hsub & _).
    apply Hsub. by apply Hstep.
  - apply IH; [done|].
    by destruct (process_item_grows x (library_node_of library_name) st Hok).
Qed.

Lemma build_knowledge_graph_snoc data library_name item :
  build_knowledge_graph (data ++ [item]) library_name
  = process_item (library_node_of library_name)
                 (build_knowledge_graph data library_name) item.
Proof. unfold build_knowledge_graph. by rewrite foldl_app. Qed.

(** *** Description nodes *)

Lemma process_item_types_description library_node item st :
  tables_ok st →
  PyStr.truthy (doc item) = true →
  (uri_encode (code "Description") (_id item ++ "_desc")%string, RDF_type,
   code "Description") ∈ graph (process_item library_node st item).
Proof.
  intros Hok Hdoc. unfold process_item.
  pose proof (entity_step_grows item library_node st st (grows_refl item st Hok)) as H1.
  pose proof (doc_step_grows item st _ H1) as H2.
  pose proof (ret_step_grows item st _ H2) as H3.
  pose proof (param_step_grows item st _ H3) as H4.
  assert (graph (doc_step item (entity_step library_node item st))
            ⊆ graph (param_step item (ret_step item
                       (doc_step item (entity_step library_node item st))))) as Hsub.
  { destruct (param_step_grows item _ _ (ret_step_grows item _ _
               (grows_refl item _ (grows_tables _ _ _ H2)))) as (_ & Hsub & _).
    done. }
  apply Hsub. unfold doc_step. rewrite Hdoc. unfold if_node.
  repeat case_match; simpl; set_solver.
Qed.

Lemma attaches_kind item t :
  attaches item t → is_api_type (type item) = true ∨ type item = "class".
Proof. intros (_ & _ & _ & [[? _]|[? _]]); auto. Qed.

(** C10, as the code has it: a record with a non-empty doc whose kind is
    neither class, function nor member_function gets a typed Description
    node; processing the record links nothing to that node; and whatever
    points to the node in the final graph is the [hasDescription] link of
    another record, of kind class, function or member_function, with a
    non-empty doc and the same Description identifier. *)
Theorem description_of_other_kinds data library_name item :
  item ∈ data →
  PyStr.truthy (doc item) = true →
  is_api_type (type item) = false →
  type item ≠ "class" →
  (uri_encode (code "Description") (_id item ++ "_desc")%string, RDF_type,
   code "Description") ∈ graph (build_knowledge_graph data library_name)
  ∧ (∀ pre post s p,
       data = pre ++ item :: post →
       (s, p, uri_encode (code "Description") (_id item ++ "_desc")%string)
         ∈ graph (build_knowledge_graph (pre ++ [item]) library_name) →
       (s, p, uri_encode (code "Description") (_id item ++ "_desc")%string)
         ∈ graph (build_knowledge_graph pre library_name))
  ∧ (∀ s p,
       (s, p, uri_encode (code "Description") (_id item ++ "_desc")%string)
         ∈ graph (build_knowledge_graph data library_name) →
       ∃ other, other ∈ data
         ∧ attaches other
             (s, p, uri_encode (code "Description") (_id item ++ "_desc")%string)).
Proof.
  intros Hin Hdoc Hapi Hcls.
  assert (desc_like (uri_encode (code "Description") (_id item ++ "_desc")%string)) as Hd
    by (by eexists).
  split; [|split].
  - apply (build_knowledge_graph_keeps _ _ item); [done|].
    intros st Hok. by apply process_item_types_description.
  - intros pre post s p _ Ht. rewrite build_knowledge_graph_snoc in Ht.
    destruct (process_item_grows item (library_node_of library_name) _
                (build_knowledge_graph_tables pre library_name)) as (_ & _ & Hnew).
    destruct (Hnew _ Ht) as [?|Hnew']; [done|].
    destruct (attaches_kind _ _ (Hnew' Hd)) as [?|?]; congruence.
  - intros s p Ht.
    destruct (foldl_process_grows (library_node_of library_name) data _
                (proj1 (initial_state_ok library_name))) as (_ & _ & Hnew).
    destruct (Hnew _ Ht) as [Hinit|(other & Hother & Hnew')].
    + by destruct (proj2 (initial_state_ok library_name) _ Hinit).
    + exists other. split; [done|]. by apply Hnew'.
Qed.

(** *** Class and API nodes *)

Lemma process_item_after_entity library_node item st :
  tables_ok st →
  graph (entity_step library_node item st) ⊆ graph (process_item library_node st item)
  ∧ tables_ok (entity_step library_node item st).
Proof.
  intros Hok. unfold process_item.
  pose proof (entity_step_grows item library_node st st (grows_refl item st Hok)) as H1.
  apply grows_tables in H1.
  destruct (doc_step_grows item _ _ (grows_refl item _ H1)) as (Hok2 & Hsub2 & _).
  destruct (param_step_grows item _ _ (ret_step_grows item _ _
             (grows_refl item _ Hok2))) as (_ & Hsub1 & _).
  split; [by etrans|done].
Qed.

Lemma entity_step_branch library_node item st :
  tables_ok st →
  ∃ st1 script_node mod_node,
    tables_ok st1
    ∧ entity_step library_node item st
      = if String.eqb (type item) "class" then class_step item script_node mod_node st1
        else if is_api_type (type item) then api_step item mod_node st1
        else st1.
Proof.
  intros Hok. unfold entity_step.
  pose proof (script_step_grows item library_node (file item) st st
                (grows_refl item st Hok)) as Hs.
  destruct (script_step library_node (file item) st) as [st1 script_node]. simpl in Hs.
  destruct (module item) as [m|]; [destruct (PyStr.truthy m)|].
  - destruct (module_step_grows item m script_node st st1 Hs) as (Hm & _).
    destruct (module_step m script_node st1) as [st2 mod_node]. simpl in Hm.
    exists st2, script_node, mod_node. split; [by eapply grows_tables|done].
  - exists st1, script_node, None. split; [by eapply grows_tables|done].
  - exists st1, script_node, None. split; [by eapply grows_tables|done].
Qed.

(** A class record gets the Class node made from its identifier. *)
Lemma process_item_class_node library_node item st :
  tables_ok st →
  type item = "class" →
  (uri_encode (code "Class") (_id item), RDF_type, code "Class")
    ∈ graph (process_item library_node st item).
Proof.
  intros Hok Hty.
  destruct (process_item_after_entity library_node item st Hok) as [Hsub _].
  apply Hsub.
  destruct (entity_step_branch library_node item st Hok)
    as (st1 & script_node & mod_node & Hok1 & ->).
  rewrite Hty. simpl. unfold class_step.
  destruct (negb _); [destruct (module_step _ _ _) as [st2 mn]|];
    unfold if_node; repeat case_match; simpl; set_solver.
Qed.

(** A member_function record with a non-empty [class] field gets the Class
    node made from that field, and [hasMethod] from it to its API node. *)
Lemma process_item_method_owner library_node item st :
  tables_ok st →
  type item = "member_function" →
  PyStr.truthy_opt (class item) = true →
  (uri_encode (code "Class") (default EmptyString (class item)), RDF_type, code "Class")
    ∈ graph (process_item library_node st item)
  ∧ (uri_encode (code "Class") (default EmptyString (class item)), code "hasMethod",
     uri_encode (code "API") (_id item)) ∈ graph (process_item library_node st item).
Proof.
  intros Hok Hty Hcls.
  destruct (process_item_after_entity library_node item st Hok) as [Hsub _].
  cut ((uri_encode (code "Class") (default EmptyString (class item)), RDF_type, code "Class")
         ∈ graph (entity_step library_node item st)
       ∧ (uri_encode (code "Class") (default EmptyString (class item)), code "hasMethod",
          uri_encode (code "API") (_id item)) ∈ graph (entity_step library_node item st)).
  { intros [? ?]. split; by apply Hsub. }
  destruct (entity_step_branch library_node item st Hok)
    as (st1 & script_node & mod_node & (_ & _ & Hclass & _) & ->).
  rewrite Hty. simpl. unfold api_step. rewrite Hty, Hcls. simpl.
  destruct (class_map st1 !! default EmptyString (class item)) as [n|] eqn:Hn.
  - destruct (Hclass _ _ Hn) as [-> Hin]. simpl. set_solver.
  - simpl. set_solver.
Qed.

(** An API record with a non-empty doc links its API node to its
    Description node. *)
Lemma process_item_api_description library_node item st :
  tables_ok st →
  is_api_type (type item) = true →
  PyStr.truthy (doc item) = true →
  (uri_encode (code "API") (_id item), code "hasDescription",
   uri_encode (code "Description") (_id item ++ "_desc")%string)
    ∈ graph (process_item library_node st item).
Proof.
  intros Hok Hty Hdoc. unfold process_item.
  pose proof (entity_step_grows item library_node st st (grows_refl item st Hok)) as H1.
  apply grows_tables in H1.
  destruct (param_step_grows item _ _ (ret_step_grows item _ _
             (grows_refl item _ (grows_tables _ _ _
                (doc_step_grows item _ _ (grows_refl item _ H1))))))
    as (_ & Hsub & _).
  apply Hsub. clear Hsub.
  assert (api_map (entity_step library_node item st) !! _id item
          = Some (uri_encode (code "API") (_id item))) as Hapi.
  { destruct (entity_step_branch library_node item st Hok)
      as (st1 & script_node & mod_node & _ & ->).
    assert (String.eqb (type item) "class" = false) as ->.
    { unfold is_api_type in Hty.
      destruct (String.eqb_spec (type item) "class") as [Heq|]; [|done].
      rewrite Heq in Hty. done. }
    rewrite Hty. unfold api_step, if_node.
    repeat case_match; simpl; by rewrite lookup_insert_eq. }
  unfold doc_step. rewrite Hdoc, Hty. unfold if_node. simpl. rewrite Hapi.
  rewrite uri_encode_truthy by done. simpl. set_solver.
Qed.

(** A record with the given identifier, kind and doc, and nothing else. *)
Definition bare_item (id ty d : string) (cls : option string) : api_item :=
  {| _id := id; doc := d; is_deprecated := false; source_code := None;
     signature := "()"; parameters := []; returns_doc := None; raise_doc := None;
     type := ty; class := cls; from_init := false; module := None; file := None |}.

Lemma description_of_other_kinds_witness :
  (uri_encode (code "Description") "pkg_desc", RDF_type, code "Description")
    ∈ graph (build_knowledge_graph [bare_item "pkg" "module" "A package." None] "MyLibrary").
Proof.
  by destruct (description_of_other_kinds
                 [bare_item "pkg" "module" "A package." None] "MyLibrary"
                 (bare_item "pkg" "module" "A package." None)
                 ltac:(left) eq_refl eq_refl ltac:(discriminate)) as (H & _).
Defined.

(** C10, as the claim has it, fails: the Description node of the module
    record [pkg.b_c] is the Description node of the function record
    [pkg.b.c], and that record links its API node to it. *)
Lemma description_of_module_attached :
  let data := [ bare_item "pkg.b_c" "module" "A module." None;
                bare_item "pkg.b.c" "function" "A function." None ] in
  bare_item "pkg.b_c" "module" "A module." None ∈ data
  ∧ (uri_encode (code "API") "pkg.b.c", code "hasDescription",
     uri_encode (code "Description") ("pkg.b_c" ++ "_desc")%string)
      ∈ graph (build_knowledge_graph data "MyLibrary").
Proof.
  split; [left|].
  apply (build_knowledge_graph_keeps _ _ (bare_item "pkg.b.c" "function" "A function." None));
    [right; left|].
  intros st Hok.
  by apply (process_item_api_description _
              (bare_item "pkg.b.c" "function" "A function." None)).
Qed.

End BuildKgFacts.

(** * Properties of the property-graph write *)

Module StoreFacts.

Import ExtractPackageApi BuildKg.

(** *** Keys of stored nodes *)

(** What MERGE matches on: the label and the [name] property. *)
Definition key_of (n : neo_node) : string * option pval :=
  (n_label n, n_props n !! "name").

Definition mkey (label name : string) : string * option pval :=
  (label, Some (PStr name)).

Definition keys (st : store) : list (string * option pval) := key_of <$> nodes st.

(** Position of the first node with a given key. *)
Definition kidx (k : string * option pval) (ks : list (string * option pval))
  : option nat :=
  fst <$> list_find (λ k', k' = k) ks.

Lemma has_key_key_of label name n : has_key label name n ↔ key_of n = mkey label name.
Proof.
  unfold has_key, key_of, mkey. split; [by intros [-> ->]|]. by intros [= -> ->].
Qed.

Lemma match_first_kidx label name st :
  match_first label name st = kidx (mkey label name) (keys st).
Proof.
  unfold match_first, kidx, keys.
  induction (nodes st) as [|n ns IH]; [done|]. csimpl.
  destruct (decide (has_key label name n)) as [Hk|Hk],
           (decide (key_of n = mkey label name)) as [Hk'|Hk']; try done.
  - by apply has_key_key_of in Hk.
  - by apply has_key_key_of in Hk'.
  - transitivity (S <$> (fst <$> list_find (has_key label name) ns)).
    { by destruct (list_find (has_key label name) ns) as [[]|]. }
    rewrite IH. clear IH. by destruct (list_find _ (key_of <$> ns)) as [[]|].
Qed.

Lemma kidx_Some k ks i :
  kidx k ks = Some i ↔ ks !! i = Some k ∧ ∀ j, j < i → ks !! j ≠ Some k.
Proof.
  unfold kidx. split.
  - intros Hf. destruct (list_find _ ks) as [[i' k']|] eqn:Hfind; [|done].
    simpl in Hf. injection Hf as ->.
    apply list_find_Some in Hfind as (Hi & -> & Hleast).
    split; [done|]. intros j Hj Hjk. by eapply Hleast.
  - intros [Hi Hleast].
    assert (list_find (λ k', k' = k) ks = Some (i, k)) as ->; [|done].
    apply list_find_Some. split_and!; [done..|].
    intros j y Hy Hj ->. by eapply Hleast.
Qed.

Lemma kidx_None k ks : kidx k ks = None ↔ k ∉ ks.
Proof.
  unfold kidx. destruct (list_find _ ks) as [[i k']|] eqn:Hfind; simpl.
  - apply list_find_Some in Hfind as (Hi & -> & _).
    split; [done|]. intros []. by eapply list_elem_of_lookup_2.
  - split; [|done]. intros _ Hin.
    apply list_find_None in Hfind. rewrite Forall_forall in Hfind. by eapply Hfind.
Qed.

Lemma kidx_elem_of k ks : k ∈ ks → ∃ i, kidx k ks = Some i.
Proof.
  intros Hin. destruct (kidx k ks) as [i|] eqn:Hk; [by eexists|].
  by apply kidx_None in Hk.
Qed.

Lemma kidx_lt k ks i : kidx k ks = Some i → i < length ks.
Proof. intros [Hi _]%kidx_Some. by eapply lookup_lt_Some. Qed.

Lemma kidx_app_l k ks more i : kidx k ks = Some i → kidx k (ks ++ more) = Some i.
Proof.
  rewrite !kidx_Some. intros [Hi Hleast]. split.
  - by apply lookup_app_l_Some.
  - intros j Hj. rewrite lookup_app_l by (apply lookup_lt_Some in Hi; lia).
    by apply Hleast.
Qed.

Lemma kidx_prefix k ks ks' i : ks `prefix_of` ks' → kidx k ks = Some i → kidx k ks' = Some i.
Proof. intros [more ->]. apply kidx_app_l. Qed.

Lemma kidx_snoc_new k ks : k ∉ ks → kidx k (ks ++ [k]) = Some (length ks).
Proof.
  intros Hnew. apply kidx_Some. split.
  - by rewrite lookup_app_r, Nat.sub_diag.
  - intros j Hj. rewrite lookup_app_l by done. intros Hjk.
    apply Hnew. by eapply list_elem_of_lookup_2.
Qed.

(** *** MERGE of a node *)

Definition upd (label name : string) (props : gmap string pval) (n : neo_node)
  : neo_node :=
  if decide (has_key label name n) then NeoNode (n_label n) (props ∪ n_props n) else n.

Definition named (name : string) (extra : gmap string pval) : gmap string pval :=
  <["name" := PStr name]> extra.

Lemma named_lookup name extra : named name extra !! "name" = Some (PStr name).
Proof. apply lookup_insert_eq. Qed.

Lemma key_of_upd label name extra n :
  key_of (upd label name (named name extra) n) = key_of n.
Proof.
  unfold upd. destruct (decide _) as [[Hl Hn]|]; [|done].
  unfold key_of. simpl. f_equal. rewrite Hn.
  apply lookup_union_Some_l, named_lookup.
Qed.

Lemma merge_node_found label name extra st :
  mkey label name ∈ keys st →
  ∃ i, kidx (mkey label name) (keys st) = Some i
       ∧ merge_node label name extra st
         = (i, Store (upd label name (named name extra) <$> nodes st) (rels st)).
Proof.
  intros Hin. destruct (kidx_elem_of _ _ Hin) as [i Hi]. exists i. split; [done|].
  rewrite <- match_first_kidx in Hi. unfold match_first in Hi. unfold merge_node.
  destruct (list_find _ _) as [[i' n]|]; [|done]. simpl in Hi. by injection Hi as ->.
Qed.

Lemma merge_node_new label name extra st :
  mkey label name ∉ keys st →
  merge_node label name extra st
  = (length (nodes st),
     Store (nodes st ++ [NeoNode label (named name extra)]) (rels st)).
Proof.
  intros Hnew. apply kidx_None in Hnew.
  rewrite <- match_first_kidx in Hnew. unfold match_first in Hnew. unfold merge_node.
  by destruct (list_find _ _) as [[i' n]|].
Qed.

Lemma keys_merge_node label name extra st :
  keys (merge_node label name extra st).2
  = if decide (mkey label name ∈ keys st) then keys st
    else keys st ++ [mkey label name].
Proof.
  destruct (decide _) as [Hin|Hnew].
  - destruct (merge_node_found label name extra st Hin) as (i & _ & ->).
    unfold keys. simpl. rewrite <- list_fmap_compose.
    apply list_fmap_ext. intros j n _. apply key_of_upd.
  - rewrite (merge_node_new label name extra st Hnew). unfold keys. simpl.
    rewrite fmap_app. simpl. f_equal. unfold key_of, mkey. simpl.
    by rewrite named_lookup.
Qed.

Lemma rels_merge_node label name extra st :
  rels (merge_node label name extra st).2 = rels st.
Proof.
  destruct (decide (mkey label name ∈ keys st)) as [Hin|Hnew].
  - by destruct (merge_node_found label name extra st Hin) as (i & _ & ->).
  - by rewrite (merge_node_new label name extra st Hnew).
Qed.

Lemma keys_merge_node_prefix label name extra st :
  keys st `prefix_of` keys (merge_node label name extra st).2.
Proof.
  rewrite keys_merge_node. destruct (decide _); [done|]. by apply prefix_app_r.
Qed.

Lemma keys_merge_node_elem label name extra st :
  mkey label name ∈ keys (merge_node label name extra st).2.
Proof.
  rewrite keys_merge_node. destruct (decide _); [done|].
  apply elem_of_app. right. left.
Qed.

(** The handle returned by a MERGE is the first node with the key. *)
Lemma merge_node_handle label name extra st :
  kidx (mkey label name) (keys (merge_node label name extra st).2)
  = Some (merge_node label name extra st).1.
Proof.
  rewrite keys_merge_node. destruct (decide _) as [Hin|Hnew].
  - by destruct (merge_node_found label name extra st Hin) as (i & Hi & ->).
  - rewrite (merge_node_new label name extra st Hnew). simpl.
    rewrite kidx_snoc_new by done. unfold keys. by rewrite length_fmap.
Qed.

Lemma neo_node_eta n : NeoNode (n_label n) (n_props n) = n.
Proof. by destruct n. Qed.

(** MERGE of a node that exists, with no property besides its name,
    leaves the store as it is. *)
Lemma merge_node_bound label name st h :
  kidx (mkey label name) (keys st) = Some h →
  merge_node label name ∅ st = (h, st).
Proof.
  intros Hh.
  destruct (merge_node_found label name ∅ st) as (i & Hi & ->).
  { apply kidx_Some in Hh as [Hh _]. by eapply list_elem_of_lookup_2. }
  rewrite Hh in Hi. injection Hi as <-. f_equal.
  destruct st as [ns rs]. simpl. f_equal.
  rewrite <- (list_fmap_id ns) at 2. apply list_fmap_ext. intros j n _.
  unfold upd. destruct (decide _) as [[_ Hname]|]; [|done].
  destruct n as [l p]. simpl in *. f_equal.
  unfold named. rewrite insert_empty, <- insert_union_singleton_l.
  by apply insert_id.
Qed.

(** *** The write as a sequence of MERGE operations *)

(** A MERGE of a node, or of a relationship between the nodes with two
    given keys. *)
Inductive op :=
| MNode (label name : string) (extra : gmap string pval)
| MRel (la na ty lb nb : string).

Definition exec (o : op) (st : store) : store :=
  match o with
  | MNode label name extra => (merge_node label name extra st).2
  | MRel la na ty lb nb =>
      let '(a, st) := merge_node la na ∅ st in
      let '(b, st) := merge_node lb nb ∅ st in
      merge_rel a ty b st
  end.

Definition run (st : store) (ops : list op) : store :=
  foldl (λ st o, exec o st) st ops.

Lemma run_app st ops1 ops2 : run st (ops1 ++ ops2) = run (run st ops1) ops2.
Proof. apply foldl_app. Qed.

(** [h] is the node that a variable bound to the key holds. *)
Definition bound (st : store) (label name : string) (h : nat) : Prop :=
  kidx (mkey label name) (keys st) = Some h.

Definition bound_opt (st : store) (k : option (string * string)) (h : option nat) : Prop :=
  match k, h with
  | Some (label, name), Some h => bound st label name h
  | None, None => True
  | _, _ => False
  end.

Lemma exec_keys_prefix o st : keys st `prefix_of` keys (exec o st).
Proof.
  destruct o as [label name extra|la na ty lb nb]; simpl.
  - apply keys_merge_node_prefix.
  - pose proof (keys_merge_node_prefix la na ∅ st) as H1.
    destruct (merge_node la na ∅ st) as [a st1]. simpl in H1.
    pose proof (keys_merge_node_prefix lb nb ∅ st1) as H2.
    destruct (merge_node lb nb ∅ st1) as [b st2]. simpl in *. by etrans.
Qed.

Lemma exec_rels_incl o st : rels st ⊆ rels (exec o st).
Proof.
  destruct o as [label name extra|la na ty lb nb]; simpl.
  - by rewrite rels_merge_node.
  - pose proof (rels_merge_node la na ∅ st) as H1.
    destruct (merge_node la na ∅ st) as [a st1]. simpl in H1.
    pose proof (rels_merge_node lb nb ∅ st1) as H2.
    destruct (merge_node lb nb ∅ st1) as [b st2]. simpl in *.
    rewrite H2, H1. set_solver.
Qed.

Lemma run_keys_prefix ops st : keys st `prefix_of` keys (run st ops).
Proof.
  revert st. induction ops as [|o ops IH]; intros st; simpl; [done|].
  etrans; [apply (exec_keys_prefix o)|apply IH].
Qed.

Lemma run_rels_incl ops st : rels st ⊆ rels (run st ops).
Proof.
  revert st. induction ops as [|o ops IH]; intros st; simpl; [done|].
  etrans; [apply (exec_rels_incl o)|apply IH].
Qed.

Lemma bound_run st ops label name h :
  bound st label name h → bound (run st ops) label name h.
Proof. apply kidx_prefix, run_keys_prefix. Qed.

Lemma bound_opt_run st ops k h : bound_opt st k h → bound_opt (run st ops) k h.
Proof. destruct k as [[l n]|], h as [h|]; simpl; try done. apply bound_run. Qed.

Lemma exec_node st label name extra :
  merge_node label name extra st
  = ((merge_node label name extra st).1, run st [MNode label name extra])
  ∧ bound (run st [MNode label name extra]) label name (merge_node label name extra st).1.
Proof.
  simpl. split; [by destruct (merge_node _ _ _ _)|]. apply merge_node_handle.
Qed.

Lemma exec_rel st la na ty lb nb a b :
  bound st la na a → bound st lb nb b →
  merge_rel a ty b st = run st [MRel la na ty lb nb].
Proof.
  intros Ha Hb. simpl.
  rewrite (merge_node_bound la na st a Ha), (merge_node_bound lb nb st b Hb). done.
Qed.

Definition rel_from (k : option (string * string)) (ty lb nb : string) : list op :=
  match k with
  | Some (la, na) => [MRel la na ty lb nb]
  | None => []
  end.

Lemma exec_rel_from st k ty lb nb a b :
  bound_opt st k a → bound st lb nb b →
  merge_rel_from a ty b st = run st (rel_from k ty lb nb).
Proof.
  destruct k as [[la na]|], a as [a|]; simpl; try done.
  intros Ha Hb. by rewrite (exec_rel st la na ty lb nb a b).
Qed.

(** The operations of the blocks of the loop body. *)
Definition doc_ops (item : api_item) (lo no : string) : list op :=
  if PyStr.truthy (doc item) then
    [ MNode "Description" (_id item ++ "_desc")%string {[ "content" := PStr (doc item) ]};
      MRel lo no "HAS_DESCRIPTION" "Description" (_id item ++ "_desc")%string ]
  else [].

Definition ret_ops (item : api_item) : list op :=
  match returns_doc item with
  | Some ret_doc =>
      if PyStr.truthy ret_doc then
        [ MNode "ReturnValue" (_id item ++ "_ret")%string {[ "content" := PStr ret_doc ]};
          MRel "API" (_id item) "HAS_RETURN_VALUE" "ReturnValue" (_id item ++ "_ret")%string ]
      else []
  | None => []
  end.

Definition param_ops (item : api_item) : list op :=
  flat_map (λ '(p_key, p_info),
              let real_param_name := default p_key (p_name p_info) in
              [ MNode "Parameter" (_id item ++ "_" ++ real_param_name)%string
                      {[ "optional" := PBool (default false (p_is_optional p_info)) ]};
                MRel "API" (_id item) "HAS_PARAMETER"
                     "Parameter" (_id item ++ "_" ++ real_param_name)%string ])
           (parameters item).

Definition fallback_module (item : api_item) : string :=
  if bool_decide (class item = Some "Flask") || bool_decide (class item = Some "App")
  then "flask.app" else "UnknownModule".

Definition class_ops (item : api_item) (sk mk : option (string * string)) : list op :=
  (if negb (PyStr.truthy_opt (module item))
   then MNode "Module" (fallback_module item) ∅
        :: rel_from sk "CONTAIN_MODULE" "Module" (fallback_module item)
   else [])
  ++ [MNode "Class" (_id item) ∅]
  ++ rel_from (if negb (PyStr.truthy_opt (module item))
               then Some ("Module", fallback_module item) else mk)
              "INCLUDE" "Class" (_id item)
  ++ doc_ops item "Class" (_id item).

Definition api_ops (item : api_item) (mk : option (string * string)) : list op :=
  [MNode "API" (_id item) ∅]
  ++ (if String.eqb (type item) "member_function" && PyStr.truthy_opt (class item)
      then [ MNode "Class" (default EmptyString (class item)) ∅;
             MRel "Class" (default EmptyString (class item)) "HAS_METHOD" "API" (_id item) ]
      else rel_from mk "HAS_METHOD" "API" (_id item))
  ++ doc_ops item "API" (_id item) ++ ret_ops item ++ param_ops item.

Definition truthy_key (label : string) (o : option string) : option (string * string) :=
  match o with
  | Some s => if PyStr.truthy s then Some (label, s) else None
  | None => None
  end.

Definition item_ops (library_name : string) (item : api_item) : list op :=
  let sk := truthy_key "Script" (file item) in
  let mk := truthy_key "Module" (module item) in
  match sk with
  | Some (_, f) => [MNode "Script" f ∅; MRel "Library" library_name "HAS_SCRIPT" "Script" f]
  | None => []
  end
  ++ match mk with
     | Some (_, m) => MNode "Module" m ∅ :: rel_from sk "CONTAIN_MODULE" "Module" m
     | None => []
     end
  ++ (if String.eqb (type item) "class" then class_ops item sk mk
      else if is_api_type (type item) then api_ops item mk
      else []).

Definition program_ops (library_name : string) (data_list : list api_item) : list op :=
  MNode "Library" library_name ∅ :: flat_map (item_ops library_name) data_list.

(** *** Each block of the loop body is the run of its operations *)

Lemma step_node label name extra st :
  ∃ h st1,
    merge_node label name extra st = (h, st1)
    ∧ st1 = run st [MNode label name extra]
    ∧ bound st1 label name h.
Proof.
  destruct (exec_node st label name extra) as [Heq Hb].
  exists (merge_node label name extra st).1, (run st [MNode label name extra]).
  done.
Qed.

Lemma neo_doc_run item lo no owner st :
  bound st lo no owner →
  neo_doc item owner st = run st (doc_ops item lo no).
Proof.
  intros Ho. unfold neo_doc, doc_ops.
  destruct (PyStr.truthy (doc item)); [|done].
  destruct (step_node "Description" (_id item ++ "_desc")%string
                      {[ "content" := PStr (doc item) ]} st) as (h & st1 & -> & -> & Hb).
  rewrite (exec_rel _ lo no "HAS_DESCRIPTION" "Description" (_id item ++ "_desc")%string
                    owner h); [done|by apply bound_run|done].
Qed.

Lemma neo_ret_run item api_node st :
  bound st "API" (_id item) api_node →
  neo_ret item api_node st = run st (ret_ops item).
Proof.
  intros Ho. unfold neo_ret, ret_ops.
  destruct (returns_doc item) as [ret_doc|]; [|done].
  destruct (PyStr.truthy ret_doc); [|done].
  destruct (step_node "ReturnValue" (_id item ++ "_ret")%string
                      {[ "content" := PStr ret_doc ]} st) as (h & st1 & -> & -> & Hb).
  rewrite (exec_rel _ "API" (_id item) "HAS_RETURN_VALUE" "ReturnValue"
                    (_id item ++ "_ret")%string api_node h);
    [done|by apply bound_run|done].
Qed.

Lemma neo_params_run item api_node st :
  bound st "API" (_id item) api_node →
  neo_params item api_node st = run st (param_ops item).
Proof.
  unfold neo_params, param_ops. generalize (parameters item). intros params.
  revert st. induction params as [|[p_key p_info] params IH]; intros st Ho; [done|].
  simpl.
  destruct (step_node "Parameter"
              (_id item ++ "_" ++ default p_key (p_name p_info))%string
              {[ "optional" := PBool (default false (p_is_optional p_info)) ]} st)
    as (h & st1 & -> & -> & Hb).
  rewrite (exec_rel _ "API" (_id item) "HAS_PARAMETER" "Parameter"
                    (_id item ++ "_" ++ default p_key (p_name p_info))%string api_node h);
    [|by apply bound_run|done].
  rewrite IH; [done|]. by do 2 apply bound_run.
Qed.

Lemma neo_class_run item sk mk script_node module_node st :
  bound_opt st sk script_node →
  bound_opt st mk module_node →
  neo_class item script_node module_node st = run st (class_ops item sk mk).
Proof.
  intros Hs Hm. unfold neo_class, class_ops, fallback_module.
  set (fb := if _ || _ then "flask.app" else "UnknownModule").
  destruct (negb (PyStr.truthy_opt (module item))).
  - destruct (step_node "Module" fb ∅ st) as (h & st1 & -> & -> & Hb).
    rewrite (exec_rel_from _ sk "CONTAIN_MODULE" "Module" fb script_node h);
      [|by apply bound_opt_run|done].
    rewrite <- (run_app st [_]).
    set (st2 := run st _).
    assert (bound st2 "Module" fb h) as Hb2 by (unfold st2; rewrite run_app; by apply bound_run).
    destruct (step_node "Class" (_id item) ∅ st2) as (c & st3 & -> & -> & Hc).
    rewrite (exec_rel_from _ (Some ("Module", fb)) "INCLUDE" "Class" (_id item) (Some h) c);
      [|by apply (bound_run _ [_])|done].
    rewrite (neo_doc_run item "Class" (_id item) c); [|by apply bound_run].
    subst st2. by rewrite !run_app.
  - destruct (step_node "Class" (_id item) ∅ st) as (c & st3 & -> & -> & Hc).
    rewrite (exec_rel_from _ mk "INCLUDE" "Class" (_id item) module_node c);
      [|by apply bound_opt_run|done].
    rewrite (neo_doc_run item "Class" (_id item) c); [|by apply bound_run].
    by rewrite !run_app.
Qed.

Lemma neo_api_run item mk module_node st :
  bound_opt st mk module_node →
  neo_api item module_node st = run st (api_ops item mk).
Proof.
  intros Hm. unfold neo_api, api_ops.
  destruct (step_node "API" (_id item) ∅ st) as (a & st1 & -> & -> & Ha).
  assert (∃ st2, st2 = run (run st [MNode "API" (_id item) ∅])
                       (if String.eqb (type item) "member_function"
                           && PyStr.truthy_opt (class item)
                        then [ MNode "Class" (default EmptyString (class item)) ∅;
                               MRel "Class" (default EmptyString (class item))
                                    "HAS_METHOD" "API" (_id item) ]
                        else rel_from mk "HAS_METHOD" "API" (_id item))
                ∧ (if String.eqb (type item) "member_function"
                      && PyStr.truthy_opt (class item)
                   then let '(parent_class_node, st) :=
                          merge_node "Class" (default EmptyString (class item)) ∅
                                     (run st [MNode "API" (_id item) ∅]) in
                        merge_rel parent_class_node "HAS_METHOD" a st
                   else merge_rel_from module_node "HAS_METHOD" a
                                       (run st [MNode "API" (_id item) ∅])) = st2)
    as (st2 & Hst2 & ->).
  { eexists. split; [reflexivity|].
    destruct (_ && _).
    - destruct (step_node "Class" (default EmptyString (class item)) ∅
                          (run st [MNode "API" (_id item) ∅])) as (c & st3 & -> & -> & Hc).
      rewrite (exec_rel _ "Class" (default EmptyString (class item)) "HAS_METHOD"
                        "API" (_id item) c a); [done|done|by apply bound_run].
    - by rewrite (exec_rel_from _ mk "HAS_METHOD" "API" (_id item) module_node a);
        [|apply bound_opt_run|]. }
  assert (bound st2 "API" (_id item) a) as Ha2 by (subst st2; by apply bound_run).
  rewrite (neo_doc_run item "API" (_id item) a) by done.
  rewrite (neo_ret_run item a) by (by apply bound_run).
  rewrite (neo_params_run item a) by (by do 2 apply bound_run).
  subst st2. by rewrite !run_app.
Qed.

Lemma write_item_run library_name library_node item st :
  bound st "Library" library_name library_node →
  write_item library_node st item = run st (item_ops library_name item).
Proof.
  intros Hl. unfold write_item, item_ops.
  assert (∃ script_node st1,
            match file item with
            | Some f =>
                if PyStr.truthy f then
                  let '(script_node, st) := merge_node "Script" f ∅ st in
                  (Some script_node, merge_rel library_node "HAS_SCRIPT" script_node st)
                else (None, st)
            | None => (None, st)
            end = (script_node, st1)
            ∧ st1 = run st match truthy_key "Script" (file item) with
                           | Some (_, f) =>
                               [MNode "Script" f ∅;
                                MRel "Library" library_name "HAS_SCRIPT" "Script" f]
                           | None => []
                           end
            ∧ bound_opt st1 (truthy_key "Script" (file item)) script_node)
    as (script_node & st1 & -> & Hst1 & Hs).
  { unfold truthy_key. destruct (file item) as [f|]; [|by exists None, st].
    destruct (PyStr.truthy f); [|by exists None, st].
    destruct (step_node "Script" f ∅ st) as (h & st1 & -> & -> & Hb).
    eexists _, _. split; [done|].
    rewrite (exec_rel _ "Library" library_name "HAS_SCRIPT" "Script" f library_node h);
      [|by apply bound_run|done].
    split; [done|]. cbn [bound_opt]. by apply bound_run. }
  assert (bound st1 "Library" library_name library_node) as Hl1
    by (subst st1; by apply bound_run).
  set (sk := truthy_key "Script" (file item)) in *.
  assert (∃ module_node st2,
            match module item with
            | Some m =>
                if PyStr.truthy m then
                  let '(module_node, st) := merge_node "Module" m ∅ st1 in
                  (Some module_node,
                   merge_rel_from script_node "CONTAIN_MODULE" module_node st)
                else (None, st1)
            | None => (None, st1)
            end = (module_node, st2)
            ∧ st2 = run st1 match truthy_key "Module" (module item) with
                            | Some (_, m) =>
                                MNode "Module" m ∅
                                :: rel_from sk "CONTAIN_MODULE" "Module" m
                            | None => []
                            end
            ∧ bound_opt st2 (truthy_key "Module" (module item)) module_node)
    as (module_node & st2 & -> & Hst2 & Hm).
  { unfold truthy_key. destruct (module item) as [m|]; [|by exists None, st1].
    destruct (PyStr.truthy m); [|by exists None, st1].
    destruct (step_node "Module" m ∅ st1) as (h & st2 & -> & -> & Hb).
    eexists _, _. split; [done|].
    rewrite (exec_rel_from _ sk "CONTAIN_MODULE" "Module" m script_node h);
      [|by apply bound_opt_run|done].
    split; [by rewrite <- run_app|]. cbn [bound_opt]. by apply bound_run. }
  assert (bound_opt st2 sk script_node) as Hs2 by (subst st2; by apply bound_opt_run).
  set (mk := truthy_key "Module" (module item)) in *.
  destruct (String.eqb (type item) "class").
  - rewrite (neo_class_run item sk mk) by done. subst st2 st1. by rewrite !run_app.
  - destruct (is_api_type (type item)).
    + rewrite (neo_api_run item mk) by done. subst st2 st1. by rewrite !run_app.
    + subst st2 st1. by rewrite !run_app.
Qed.

Lemma foldl_write_item_run library_name library_node data st :
  bound st "Library" library_name library_node →
  foldl (write_item library_node) st data
  = run st (flat_map (item_ops library_name) data).
Proof.
  revert st. induction data as [|item data IH]; intros st Hl; [done|].
  simpl. rewrite (write_item_run library_name) by done.
  rewrite IH by (by apply bound_run). by rewrite run_app.
Qed.

(** [write_to_neo4j_py2neo] is the run of its operations, on any store. *)
Lemma write_to_neo4j_py2neo_run library_name data st :
  write_to_neo4j_py2neo library_name data st = run st (program_ops library_name data).
Proof.
  unfold write_to_neo4j_py2neo, program_ops.
  destruct (step_node "Library" library_name ∅ st) as (h & st1 & Hmerge & Hst1 & Hb).
  assert (match match_first "Library" library_name st with
          | Some existing_library => (existing_library, st)
          | None => create_node "Library" {[ "name" := PStr library_name ]} st
          end = (h, st1)) as ->.
  { rewrite <- Hmerge. rewrite match_first_kidx.
    destruct (kidx (mkey "Library" library_name) (keys st)) as [h'|] eqn:Hk.
    - by rewrite (merge_node_bound _ _ _ _ Hk).
    - apply kidx_None in Hk. rewrite (merge_node_new _ _ _ _ Hk).
      unfold create_node, named. by rewrite insert_empty. }
  rewrite (foldl_write_item_run library_name) by done.
  subst st1. done.
Qed.

(** *** A second run against the store left by the first *)

Lemma n_props_upd label name props n :
  n_props (upd label name props n)
  = if decide (key_of n = mkey label name) then props ∪ n_props n else n_props n.
Proof.
  unfold upd.
  destruct (decide (has_key label name n)) as [Hk|Hk],
           (decide (key_of n = mkey label name)) as [Hk'|Hk']; try done.
  - by apply has_key_key_of in Hk.
  - by apply has_key_key_of in Hk'.
Qed.

Lemma keys_lookup st j n : nodes st !! j = Some n → keys st !! j = Some (key_of n).
Proof. intros H. unfold keys. by rewrite list_lookup_fmap, H. Qed.

Lemma keys_length st : length (keys st) = length (nodes st).
Proof. unfold keys. by rewrite length_fmap. Qed.

Lemma NoDup_keys_merge_node label name extra st :
  NoDup (keys st) → NoDup (keys (merge_node label name extra st).2).
Proof.
  intros Hnd. rewrite keys_merge_node. destruct (decide _) as [|Hnew]; [done|].
  apply NoDup_app. split_and!; [done| |apply NoDup_singleton].
  intros x Hx Hx'. apply list_elem_of_singleton in Hx' as ->. done.
Qed.

Lemma NoDup_keys_exec o st : NoDup (keys st) → NoDup (keys (exec o st)).
Proof.
  intros Hnd. destruct o as [label name extra|la na ty lb nb]; simpl.
  - by apply NoDup_keys_merge_node.
  - pose proof (NoDup_keys_merge_node la na ∅ st Hnd) as H1.
    destruct (merge_node la na ∅ st) as [a st1]. simpl in H1.
    pose proof (NoDup_keys_merge_node lb nb ∅ st1 H1) as H2.
    by destruct (merge_node lb nb ∅ st1) as [b st2].
Qed.

Lemma NoDup_keys_run ops st : NoDup (keys st) → NoDup (keys (run st ops)).
Proof.
  revert st. induction ops as [|o ops IH]; intros st Hnd; simpl; [done|].
  by apply IH, NoDup_keys_exec.
Qed.

(** [b] is what a run that started from [S] has reached when the run that
    started from the empty store has reached [a], on its way to [S]. *)
Definition related (S a b : store) : Prop :=
  keys b = keys S
  ∧ keys a `prefix_of` keys S
  ∧ rels b = rels a ∪ rels S
  ∧ ∀ j nb nS,
      nodes b !! j = Some nb → nodes S !! j = Some nS →
      n_props nb = match nodes a !! j with
                   | Some na => n_props na ∪ n_props nS
                   | None => n_props nS
                   end.

Lemma related_merge_node S a b label name extra :
  NoDup (keys S) →
  related S a b →
  keys (merge_node label name extra a).2 `prefix_of` keys S →
  related S (merge_node label name extra a).2 (merge_node label name extra b).2
  ∧ (merge_node label name extra a).1 = (merge_node label name extra b).1.
Proof.
  intros Hnd (Hkb & Hka & Hr & Hp) Hcov.
  assert (mkey label name ∈ keys S) as HkS.
  { destruct Hcov as [more ->]. apply elem_of_app. left. apply keys_merge_node_elem. }
  assert (mkey label name ∈ keys b) as Hkinb by (by rewrite Hkb).
  destruct (merge_node_found label name extra b Hkinb) as (ib & Hib & Hb').
  pose proof (merge_node_handle label name extra a) as Hia.
  eapply kidx_prefix in Hia; [|exact Hcov].
  rewrite <- Hkb, Hib in Hia. injection Hia as Hia.
  split; [|by rewrite Hb'].
  pose proof (keys_merge_node label name extra b) as Hkb'.
  rewrite decide_True in Hkb' by done.
  split_and!.
  - by rewrite Hkb'.
  - done.
  - by rewrite !rels_merge_node.
  - intros j nb' nS Hnb' HnS. rewrite Hb' in Hnb'. simpl in Hnb'.
    rewrite list_lookup_fmap in Hnb'.
    destruct (nodes b !! j) as [nb|] eqn:Hnb; [|done]. simpl in Hnb'.
    injection Hnb' as <-.
    specialize (Hp j nb nS Hnb HnS). rewrite n_props_upd.
    assert (key_of nb = key_of nS) as Hkeq.
    { apply keys_lookup in Hnb, HnS. rewrite Hkb in Hnb. congruence. }
    rewrite Hkeq.
    apply keys_lookup in HnS as HkS'.
    destruct (decide (mkey label name ∈ keys a)) as [Hin|Hnew].
    + destruct (merge_node_found label name extra a Hin) as (ia & Hia' & ->). simpl.
      rewrite list_lookup_fmap.
      destruct (nodes a !! j) as [na|] eqn:Hna; simpl.
      * assert (key_of na = key_of nS) as Hkeq'.
        { apply keys_lookup in Hna. eapply prefix_lookup_Some in Hna; [|exact Hka].
          congruence. }
        rewrite n_props_upd, Hkeq'. destruct (decide _); [|done].
        by rewrite Hp, (assoc_L (∪)).
      * rewrite decide_False; [done|]. intros Hk.
        apply kidx_Some in Hia' as [Hia' _].
        pose proof (lookup_lt_Some _ _ _ Hia') as Hlt. rewrite keys_length in Hlt.
        eapply prefix_lookup_Some in Hia'; [|exact Hka].
        rewrite Hk in HkS'.
        pose proof (NoDup_lookup _ _ _ _ Hnd Hia' HkS') as ->.
        apply lookup_ge_None_1 in Hna. lia.
    + rewrite (merge_node_new label name extra a Hnew) in Hcov |- *. simpl.
      assert (keys S !! length (nodes a) = Some (mkey label name)) as Hat.
      { eapply prefix_lookup_Some; [|exact Hcov]. unfold keys. simpl.
        rewrite fmap_app, lookup_app_r by (by rewrite length_fmap).
        rewrite length_fmap, Nat.sub_diag. simpl. unfold key_of, mkey. simpl.
        by rewrite named_lookup. }
      destruct (nodes a !! j) as [na|] eqn:Hna.
      * rewrite lookup_app_l by (by eapply lookup_lt_Some). rewrite Hna.
        rewrite decide_False; [done|]. intros Hk. apply Hnew.
        apply keys_lookup in Hna. eapply list_elem_of_lookup_2.
        erewrite Hna. f_equal. rewrite <- Hk.
        eapply prefix_lookup_Some in Hna; [|exact Hka]. congruence.
      * apply lookup_ge_None_1 in Hna.
        destruct (decide (j = length (nodes a))) as [->|Hne].
        -- rewrite lookup_app_r, Nat.sub_diag by done. simpl.
           rewrite decide_True by congruence. by rewrite Hp.
        -- rewrite lookup_ge_None_2 by (rewrite length_app; simpl; lia).
           rewrite decide_False; [done|]. intros Hk. rewrite Hk in HkS'.
           apply Hne. by eapply NoDup_lookup.
Qed.

Lemma related_exec S a b o :
  NoDup (keys S) →
  related S a b →
  keys (exec o a) `prefix_of` keys S →
  related S (exec o a) (exec o b).
Proof.
  intros Hnd Hrel Hcov. destruct o as [label name extra|la na ty lb nb]; simpl in *.
  - by apply related_merge_node.
  - pose proof (related_merge_node S a b la na ∅ Hnd Hrel) as H1.
    pose proof (keys_merge_node_prefix lb nb ∅ (merge_node la na ∅ a).2) as Hpre.
    destruct (merge_node la na ∅ a) as [xa a1], (merge_node la na ∅ b) as [xb b1].
    simpl in *.
    pose proof (related_merge_node S a1 b1 lb nb ∅ Hnd) as H2.
    destruct (merge_node lb nb ∅ a1) as [ya a2], (merge_node lb nb ∅ b1) as [yb b2].
    simpl in *.
    destruct H1 as [Hrel1 <-]; [by etrans|].
    destruct (H2 Hrel1 Hcov) as [(Hk & Hpr & Hr & Hp) <-].
    split_and!; simpl; try done.
    rewrite Hr. set_solver.
Qed.

Lemma related_run S ops a b :
  NoDup (keys S) →
  related S a b →
  keys (run a ops) `prefix_of` keys S →
  related S (run a ops) (run b ops).
Proof.
  intros Hnd. revert a b. induction ops as [|o ops IH]; intros a b Hrel Hcov; [done|].
  simpl in *. apply IH; [|done].
  apply related_exec; [done..|]. etrans; [apply run_keys_prefix|done].
Qed.

Lemma related_start S : related S empty_store S.
Proof.
  split_and!; simpl; [done|apply prefix_nil|set_solver|].
  intros j nb nS Hnb HnS. congruence.
Qed.

Lemma related_end S b : related S S b → b = S.
Proof.
  intros (Hk & _ & Hr & Hp).
  destruct b as [nb rb], S as [nS rS]. simpl in *. f_equal.
  - apply list_eq. intros j.
    assert (length nb = length nS) as Hlen.
    { unfold keys in Hk. simpl in Hk. apply (f_equal length) in Hk.
      by rewrite !length_fmap in Hk. }
    destruct (nb !! j) as [x|] eqn:Hx.
    + destruct (nS !! j) as [y|] eqn:Hy.
      * specialize (Hp j x y Hx Hy). rewrite Hy in Hp.
        rewrite (idemp_L (∪)) in Hp.
        assert (key_of x = key_of y) as Hkey.
        { pose proof (keys_lookup (Store nb rb) j x Hx) as H1.
          pose proof (keys_lookup (Store nS rS) j y Hy) as H2.
          rewrite Hk in H1. congruence. }
        destruct x as [lx px], y as [ly py]. unfold key_of in Hkey. simpl in *.
        injection Hkey as -> _. by rewrite Hp.
      * apply lookup_lt_Some in Hx. apply lookup_ge_None_1 in Hy. lia.
    + apply lookup_ge_None_1 in Hx. symmetry. apply lookup_ge_None_2. lia.
  - rewrite Hr. set_solver.
Qed.

(** C5: written twice into a store that was empty, the records leave the
    store that writing them once leaves: the same nodes, with the same
    labels and properties, and the same relationships. *)
Theorem write_to_neo4j_py2neo_idempotent library_name data_list :
  write_to_neo4j_py2neo library_name data_list
    (write_to_neo4j_py2neo library_name data_list empty_store)
  = write_to_neo4j_py2neo library_name data_list empty_store.
Proof.
  rewrite !write_to_neo4j_py2neo_run.
  set (ops := program_ops library_name data_list).
  apply related_end. apply related_run.
  - apply NoDup_keys_run. apply NoDup_nil_2.
  - apply related_start.
  - done.
Qed.

(** *** What a run leaves in the store *)

Lemma bound_node st label name h :
  bound st label name h → ∃ n, nodes st !! h = Some n ∧ has_key label name n.
Proof.
  intros [Hh _]%kidx_Some. unfold keys in Hh.
  apply list_lookup_fmap_Some in Hh as (n & Hk & Hn).
  exists n. split; [done|]. by apply has_key_key_of.
Qed.

Lemma run_rel_elem ops st la na ty lb nb :
  MRel la na ty lb nb ∈ ops →
  ∃ i j,
    bound (run st ops) la na i ∧ bound (run st ops) lb nb j
    ∧ (i, ty, j) ∈ rels (run st ops).
Proof.
  intros (pre & post & ->)%list_elem_of_split.
  rewrite run_app. generalize (run st pre). clear st. intros st.
  change (run st (MRel la na ty lb nb :: post))
    with (run (exec (MRel la na ty lb nb) st) post).
  assert (∃ i j, bound (exec (MRel la na ty lb nb) st) la na i
                 ∧ bound (exec (MRel la na ty lb nb) st) lb nb j
                 ∧ (i, ty, j) ∈ rels (exec (MRel la na ty lb nb) st))
    as (i & j & Hi & Hj & Hr).
  { simpl.
    pose proof (merge_node_handle la na ∅ st) as Ha.
    destruct (merge_node la na ∅ st) as [a st1]. simpl in Ha.
    pose proof (merge_node_handle lb nb ∅ st1) as Hb.
    pose proof (keys_merge_node_prefix lb nb ∅ st1) as Hpre.
    destruct (merge_node lb nb ∅ st1) as [b st2]. simpl in *.
    exists a, b. split_and!.
    - unfold bound, keys. simpl. by eapply kidx_prefix.
    - done.
    - set_solver. }
  exists i, j. split_and!; [by apply bound_run..|].
  by apply (run_rels_incl post).
Qed.

Lemma item_ops_fallback library_name item :
  type item = "class" →
  PyStr.truthy_opt (module item) = false →
  MRel "Module" (fallback_module item) "INCLUDE" "Class" (_id item)
    ∈ item_ops library_name item.
Proof.
  intros Hty Hmod. unfold item_ops. rewrite Hty. simpl.
  apply elem_of_app. right. apply elem_of_app. right.
  unfold class_ops. rewrite Hmod. simpl.
  right. apply elem_of_app. right. right. left.
Qed.

End StoreFacts.

(** * The fallback module of a class record, on both paths *)

Module FallbackFacts.

Import ExtractPackageApi BuildKg BuildKgFacts StoreFacts.

Lemma fallback_module_rule item :
  fallback_module item
  = if decide (class item = Some "Flask" ∨ class item = Some "App")
    then "flask.app" else "UnknownModule".
Proof.
  unfold fallback_module.
  destruct (decide _) as [[->| ->]|Hno]; [done..|].
  rewrite !bool_decide_eq_false_2; [done|tauto..].
Qed.

Lemma process_item_fallback library_node item st :
  tables_ok st →
  type item = "class" →
  PyStr.truthy_opt (module item) = false →
  (uri_encode (code "Module") (fallback_module item), code "include",
   uri_encode (code "Class") (_id item)) ∈ graph (process_item library_node st item)
  ∧ (uri_encode (code "Module") (fallback_module item), RDF_type, code "Module")
      ∈ graph (process_item library_node st item).
Proof.
  intros Hok Hty Hmod. unfold process_item.
  pose proof (entity_step_grows item library_node st st (grows_refl item st Hok)) as H1.
  destruct (param_step_grows item _ _ (ret_step_grows item _ _ (doc_step_grows item _ _
             (grows_refl item _ (grows_tables _ _ _ H1))))) as (_ & Hsub & _).
  cut ((uri_encode (code "Module") (fallback_module item), code "include",
        uri_encode (code "Class") (_id item)) ∈ graph (entity_step library_node item st)
       ∧ (uri_encode (code "Module") (fallback_module item), RDF_type, code "Module")
           ∈ graph (entity_step library_node item st)).
  { intros [? ?]. split; by apply Hsub. }
  clear H1 Hsub. unfold entity_step.
  pose proof (script_step_grows item library_node (file item) st st
                (grows_refl item st Hok)) as Hs.
  destruct (script_step library_node (file item) st) as [st1 script_node]. simpl in Hs.
  assert (match module item with
          | Some m => if PyStr.truthy m then module_step m script_node st1 else (st1, None)
          | None => (st1, None)
          end = (st1, None)) as ->.
  { destruct (module item) as [m|]; [|done]. simpl in Hmod. by rewrite Hmod. }
  rewrite Hty. simpl. unfold class_step. rewrite Hmod. simpl.
  fold (fallback_module item).
  destruct (module_step_grows item (fallback_module item) script_node st st1 Hs)
    as (_ & Hnode & Htyped).
  destruct (module_step (fallback_module item) script_node st1) as [st2 mn].
  simpl in *. subst mn. unfold if_node.
  rewrite uri_encode_truthy by done. simpl. set_solver.
Qed.

(** The fallback rule as the code has it, on both paths: a class record
    without module attribution is put under the module [flask.app] when its
    [class] field is [Flask] or [App], and under [UnknownModule] otherwise,
    in the RDF graph and in the store.  The rule reads the [class] field of
    the record, not the name of the class. *)
Theorem class_without_module_gets_fallback data library_name item :
  item ∈ data →
  type item = "class" →
  PyStr.truthy_opt (module item) = false →
  let fallback := if decide (class item = Some "Flask" ∨ class item = Some "App")
                  then "flask.app" else "UnknownModule" in
  ((uri_encode (code "Module") fallback, RDF_type, code "Module")
     ∈ graph (build_knowledge_graph data library_name)
   ∧ (uri_encode (code "Module") fallback, code "include",
      uri_encode (code "Class") (_id item))
       ∈ graph (build_knowledge_graph data library_name))
  ∧ ∀ st, ∃ i j mod_node class_node,
      nodes (write_to_neo4j_py2neo library_name data st) !! i = Some mod_node
      ∧ has_key "Module" fallback mod_node
      ∧ nodes (write_to_neo4j_py2neo library_name data st) !! j = Some class_node
      ∧ has_key "Class" (_id item) class_node
      ∧ (i, "INCLUDE", j) ∈ rels (write_to_neo4j_py2neo library_name data st).
Proof.
  intros Hin Hty Hmod. rewrite <- fallback_module_rule. simpl. split; [split|].
  - apply (build_knowledge_graph_keeps _ _ item); [done|].
    intros st Hok. by apply process_item_fallback.
  - apply (build_knowledge_graph_keeps _ _ item); [done|].
    intros st Hok. by apply process_item_fallback.
  - intros st. rewrite write_to_neo4j_py2neo_run.
    destruct (run_rel_elem (program_ops library_name data) st
                "Module" (fallback_module item) "INCLUDE" "Class" (_id item))
      as (i & j & Hi & Hj & Hr).
    { unfold program_ops. right. apply list_elem_of_In, in_flat_map.
      exists item. split; [by apply list_elem_of_In|].
      apply list_elem_of_In. by apply item_ops_fallback. }
    destruct (bound_node _ _ _ _ Hi) as (mod_node & Hm & Hmk).
    destruct (bound_node _ _ _ _ Hj) as (class_node & Hc & Hck).
    by exists i, j, mod_node, class_node.
Qed.

Lemma class_without_module_gets_fallback_witness :
  (uri_encode (code "Module") "flask.app", code "include",
   uri_encode (code "Class") "flask.Flask")
    ∈ graph (build_knowledge_graph
               [bare_item "flask.Flask" "class" "" (Some "Flask")] "MyLibrary").
Proof.
  destruct (class_without_module_gets_fallback
              [bare_item "flask.Flask" "class" "" (Some "Flask")] "MyLibrary"
              (bare_item "flask.Flask" "class" "" (Some "Flask"))
              ltac:(left) eq_refl eq_refl) as [[_ H] _].
  exact H.
Defined.

End FallbackFacts.

(** * The two stages together *)

Module PipelineFacts.

Import ExtractPackageApi BuildKg WalkerFacts BuildKgFacts.

(** C3 at [widget_pkg]: the walk emits the class record [pkg.Widget] and
    the method record [pkg.Widget.run] with [class] = [Widget]; the graph
    built from them has two Class nodes, and [hasMethod] starts from the
    one made for the bare name, not from the one of the class record. *)
Lemma method_attaches_to_second_class_node :
  ∃ rs v,
    traverse_module (λ p, Ok p) widget_pkg ∅ = Ok (rs, v)
    ∧ (_id <$> rs = ["pkg"; "pkg.Widget"; "pkg.Widget.run"])
    ∧ (type <$> rs = ["module"; "class"; "member_function"])
    ∧ (uri_encode (code "Class") "pkg.Widget", RDF_type, code "Class")
        ∈ graph (build_knowledge_graph rs "MyLibrary")
    ∧ (uri_encode (code "Class") "Widget", RDF_type, code "Class")
        ∈ graph (build_knowledge_graph rs "MyLibrary")
    ∧ uri_encode (code "Class") "Widget" ≠ uri_encode (code "Class") "pkg.Widget"
    ∧ (uri_encode (code "Class") "Widget", code "hasMethod",
       uri_encode (code "API") "pkg.Widget.run")
        ∈ graph (build_knowledge_graph rs "MyLibrary")
    ∧ (uri_encode (code "Class") "pkg.Widget", code "hasMethod",
       uri_encode (code "API") "pkg.Widget.run")
        ∉ graph (build_knowledge_graph rs "MyLibrary").
Proof.
  destruct (traverse_module (λ p, Ok p) widget_pkg ∅) as [[rs v]|] eqn:Hrun;
    [|by vm_compute in Hrun].
  exists rs, v. split; [done|].
  vm_compute in Hrun. injection Hrun as <- _.
  split; [reflexivity|]. split; [reflexivity|].
  split.
  { eapply build_knowledge_graph_keeps; [right; left|].
    intros st Hok. by apply process_item_class_node. }
  split.
  { eapply build_knowledge_graph_keeps; [do 2 right; left|].
    intros st Hok.
    lazymatch goal with
    | |- _ ∈ graph (process_item _ _ ?it) =>
        by destruct (process_item_method_owner (library_node_of "MyLibrary") it st Hok
                       eq_refl eq_refl) as [H1 H2]
    end. }
  split; [intros H; vm_compute in H; discriminate|].
  split.
  { eapply build_knowledge_graph_keeps; [do 2 right; left|].
    intros st Hok.
    lazymatch goal with
    | |- _ ∈ graph (process_item _ _ ?it) =>
        by destruct (process_item_method_owner (library_node_of "MyLibrary") it st Hok
                       eq_refl eq_refl) as [H1 H2]
    end. }
  apply (bool_decide_unpack _). vm_compute. exact I.
Qed.

End PipelineFacts.

(** * Further properties of the export resolver *)

Module ExportResolverMore.

Import ExtractPackageApi ExportResolverFacts.

(** What one top-level statement puts into the export set, rule by rule. *)
Definition contributes (node : stmt) (x : string) : Prop :=
  match node with
  | Import names =>
      ∃ a, a ∈ names ∧ x = PyStr.first_part (PyStr.split "." (alias_name a))
  | ImportFrom module names _ =>
      (∃ m, module = Some m
            ∧ PyStr.truthy (PyStr.first_part (PyStr.split "." m)) = true
            ∧ x = PyStr.first_part (PyStr.split "." m))
      ∨ (∃ a, a ∈ names ∧ x = alias_name a)
  | Assign [Name "__all__"] (ListE elts) => Str x ∈ elts
  | Assign [Name "__all__"] (TupleE elts) => Str x ∈ elts
  | _ => False
  end.

Lemma add_import_names_elem names symbols x :
  x ∈ add_import_names names symbols
  ↔ x ∈ symbols
    ∨ ∃ a, a ∈ names ∧ x = PyStr.first_part (PyStr.split "." (alias_name a)).
Proof.
  revert symbols. induction names as [|a names IH]; intros symbols; simpl.
  - split; [auto|]. intros [?|(a & Ha & _)]; [done|]. by apply elem_of_nil in Ha.
  - rewrite IH. split.
    + intros [H|(b & Hb & ->)].
      * apply elem_of_union in H as [H|H]; [|by left].
        apply elem_of_singleton in H as ->. right. exists a. split; [left|done].
      * right. exists b. split; [by right|done].
    + intros [H|(b & Hb & ->)].
      * left. set_solver.
      * apply elem_of_cons in Hb as [->|Hb]; [left; set_solver|].
        right. by exists b.
Qed.

Lemma add_all_elts_elem elts symbols x :
  x ∈ add_all_elts elts symbols ↔ x ∈ symbols ∨ Str x ∈ elts.
Proof.
  revert symbols. induction elts as [|e elts IH]; intros symbols; simpl.
  - split; [auto|]. intros [?|H]; [done|]. by apply elem_of_nil in H.
  - rewrite IH. split.
    + intros [H|H]; [|right; by right].
      destruct e; try (by left).
      apply elem_of_union in H as [H|H]; [|by left].
      apply elem_of_singleton in H as ->. right. left.
    + intros [H|H].
      * left. destruct e; set_solver.
      * apply elem_of_cons in H as [<-|H]; [left; set_solver|by right].
Qed.

Lemma first_part_truthy m :
  PyStr.truthy (PyStr.first_part (PyStr.split "." m)) = true → PyStr.truthy m = true.
Proof. by destruct m. Qed.

Lemma parse_node_elem symbols node x :
  x ∈ parse_node symbols node ↔ x ∈ symbols ∨ contributes node x.
Proof.
  destruct node as [names|module names level|targets value|]; simpl.
  - apply add_import_names_elem.
  - rewrite add_from_names_elem. destruct module as [m|].
    + destruct (PyStr.truthy (PyStr.first_part (PyStr.split "." m))) eqn:Hroot.
      * rewrite (first_part_truthy m Hroot). rewrite elem_of_union, elem_of_singleton.
        split.
        -- intros [[->|?]|?]; [right; left; by exists m|by left|by right; right].
        -- intros [?|[(m' & [= <-] & _ & ->)|?]]; [left; by right|left; by left|by right].
      * assert ((if PyStr.truthy m then symbols else symbols) = symbols) as ->
          by (by destruct (PyStr.truthy m)).
        split.
        -- intros [?|?]; [by left|by right; right].
        -- intros [?|[(m' & [= <-] & Ht & _)|?]]; [by left|congruence|by right].
    + split.
      * intros [?|?]; [by left|by right; right].
      * intros [?|[(m' & [=] & _)|?]]; [by left|by right].
  - repeat (case_match; try (split; [by left|by intros [?|[]]]));
      apply add_all_elts_elem.
  - split; [by left|by intros [?|[]]].
Qed.

Lemma parse_body_elem body symbols x :
  x ∈ fold_left parse_node body symbols
  ↔ x ∈ symbols ∨ ∃ node, node ∈ body ∧ contributes node x.
Proof.
  revert symbols. induction body as [|n body IH]; intros symbols; simpl.
  - split; [by left|]. intros [?|(node & Hin & _)]; [done|]. by apply elem_of_nil in Hin.
  - rewrite IH, parse_node_elem. split.
    + intros [[?|?]|(node & Hin & Hc)]; [by left|right; exists n; split; [left|done]|].
      right. exists node. split; [by right|done].
    + intros [?|(node & Hin & Hc)]; [left; by left|].
      apply elem_of_cons in Hin as [->|Hin]; [left; by right|].
      right. by exists node.
Qed.

Lemma parse_init_file_elem body x :
  x ∈ parse_init_file body ↔ ∃ node, node ∈ body ∧ contributes node x.
Proof.
  unfold parse_init_file. rewrite parse_body_elem. split; [|by right].
  intros [H|?]; [|done]. by apply elem_of_empty in H.
Qed.

(** X1: the export set holds exactly what the top-level statements
    contribute by the three rules, whatever their order. *)
Theorem parse_init_file_exact body x :
  x ∈ parse_init_file body ↔ ∃ node, node ∈ body ∧ contributes node x.
Proof. apply parse_init_file_elem. Qed.

(** X2: the export set of a file in two parts is the union of the sets
    of the parts. *)
Theorem parse_init_file_app body1 body2 :
  parse_init_file (body1 ++ body2) = parse_init_file body1 ∪ parse_init_file body2.
Proof.
  apply set_eq. intros x. rewrite elem_of_union, !parse_init_file_elem. split.
  - intros (node & Hin & Hc). apply elem_of_app in Hin as [Hin|Hin];
      [left|right]; by exists node.
  - intros [(node & Hin & Hc)|(node & Hin & Hc)]; exists node;
      (split; [|done]); apply elem_of_app; auto.
Qed.

(** The same statement with every [as] clause removed. *)
Definition without_asname (node : stmt) : stmt :=
  match node with
  | Import names => Import ((λ a, Alias (alias_name a) None) <$> names)
  | ImportFrom module names level =>
      ImportFrom module ((λ a, Alias (alias_name a) None) <$> names) level
  | _ => node
  end.

Lemma contributes_without_asname node x :
  contributes (without_asname node) x ↔ contributes node x.
Proof.
  destruct node as [names|module names level|targets value|]; simpl; try done.
  - split.
    + intros (a & Ha & ->). apply list_elem_of_fmap in Ha as (b & -> & Hb). by exists b.
    + intros (a & Ha & ->). exists (Alias (alias_name a) None). split; [|done].
      apply list_elem_of_fmap. by exists a.
  - split.
    + intros [?|(a & Ha & ->)]; [by left|right].
      apply list_elem_of_fmap in Ha as (b & -> & Hb). by exists b.
    + intros [?|(a & Ha & ->)]; [by left|right].
      exists (Alias (alias_name a) None). split; [|done].
      apply list_elem_of_fmap. by exists a.
Qed.

(** X3: the [as] clauses of imports have no effect on the export set. *)
Theorem parse_init_file_ignores_asname body :
  parse_init_file (without_asname <$> body) = parse_init_file body.
Proof.
  apply set_eq. intros x. rewrite !parse_init_file_elem. split.
  - intros (node & Hin & Hc). apply list_elem_of_fmap in Hin as (n & -> & Hn).
    exists n. split; [done|]. by apply contributes_without_asname.
  - intros (node & Hin & Hc). exists (without_asname node). split.
    + apply list_elem_of_fmap. by exists node.
    + by apply contributes_without_asname.
Qed.

End ExportResolverMore.

(** * Facts on strings *)

Module StrFacts.

Lemma app_cons c (s t : string) : (String c s ++ t)%string = String c (s ++ t)%string.
Proof. reflexivity. Qed.

Lemma app_nil_l (t : string) : (EmptyString ++ t)%string = t.
Proof. reflexivity. Qed.

Lemma app_nil_r (s : string) : (s ++ EmptyString)%string = s.
Proof. induction s as [|c s IH]; [done|]. by rewrite app_cons, IH. Qed.

Lemma app_assoc (a b c : string) : ((a ++ b) ++ c)%string = (a ++ b ++ c)%string.
Proof. induction a as [|x a IH]; [done|]. by rewrite !app_cons, IH. Qed.

Lemma prefix_spec p s : String.prefix p s = true ↔ ∃ t, s = (p ++ t)%string.
Proof.
  revert p. induction s as [|d s IH]; intros [|c p]; simpl.
  - split; [|done]. intros _. by exists EmptyString.
  - split; [done|]. intros [t Ht]. by rewrite app_cons in Ht.
  - split; [|done]. intros _. by exists (String d s).
  - destruct (Ascii.ascii_dec c d) as [->|Hne].
    + rewrite IH. split; intros [t Ht]; exists t.
      * by rewrite app_cons, Ht.
      * rewrite app_cons in Ht. by injection Ht.
    + split; [done|]. intros [t Ht]. rewrite app_cons in Ht. by injection Ht.
Qed.

(** The first dotted segment of a string. *)
Definition dotfree (s : string) : Prop :=
  ∀ a b, s ≠ (a ++ String "." b)%string.

Lemma dotfree_nil : dotfree EmptyString.
Proof. intros [|c a] b; simpl; discriminate. Qed.

Lemma dotfree_cons c s : c ≠ "."%char → dotfree s → dotfree (String c s).
Proof.
  intros Hc Hs [|d a] b; simpl.
  - intros [= -> _]. done.
  - intros [= _ Heq]. by apply (Hs a b).
Qed.

Lemma dotfree_inv c s : dotfree (String c s) → c ≠ "."%char ∧ dotfree s.
Proof.
  intros H. split.
  - intros ->. by apply (H EmptyString s).
  - intros a b ->. by apply (H (String c a) b).
Qed.

Lemma first_part_split_cons c s :
  PyStr.first_part (PyStr.split "." (String c s))
  = if Ascii.eqb c "." then EmptyString
    else String c (PyStr.first_part (PyStr.split "." s)).
Proof.
  simpl. destruct (Ascii.eqb c "."); [done|].
  by destruct (PyStr.split "." s).
Qed.

Lemma first_part_dotfree s : dotfree (PyStr.first_part (PyStr.split "." s)).
Proof.
  induction s as [|c s IH]; [apply dotfree_nil|].
  rewrite first_part_split_cons.
  destruct (Ascii.eqb_spec c "."); [apply dotfree_nil|]. by apply dotfree_cons.
Qed.

Lemma first_part_prefix s :
  String.prefix (PyStr.first_part (PyStr.split "." s)) s = true.
Proof.
  induction s as [|c s IH]; [done|].
  rewrite first_part_split_cons.
  destruct (Ascii.eqb_spec c "."); [done|].
  simpl. by destruct (Ascii.ascii_dec c c).
Qed.

Lemma prefix_first_part p s :
  dotfree p → String.prefix p s = true →
  String.prefix p (PyStr.first_part (PyStr.split "." s)) = true.
Proof.
  revert s. induction p as [|c p IH]; intros s Hp.
  { intros _. apply prefix_spec. by eexists. }
  apply dotfree_inv in Hp as [Hc Hp].
  destruct s as [|d s]; [by simpl|]. simpl String.prefix at 1.
  destruct (Ascii.ascii_dec c d) as [<-|]; [|done].
  intros Hpre. rewrite first_part_split_cons.
  destruct (Ascii.eqb_spec c "."); [done|].
  simpl. destruct (Ascii.ascii_dec c c); [|done]. by apply IH.
Qed.

Lemma prefix_trans a b c :
  String.prefix a b = true → String.prefix b c = true → String.prefix a c = true.
Proof.
  rewrite !prefix_spec. intros [t ->] [u ->]. exists (t ++ u)%string.
  by rewrite app_assoc.
Qed.

Lemma prefix_app p s t : String.prefix p s = true → String.prefix p (s ++ t) = true.
Proof.
  rewrite !prefix_spec. intros [u ->]. exists (u ++ t)%string. by rewrite app_assoc.
Qed.

Lemma length_app (a b : string) :
  String.length (a ++ b) = (String.length a + String.length b)%nat.
Proof. induction a as [|c a IH]; [done|]. rewrite app_cons. simpl. by rewrite IH. Qed.

End StrFacts.

(** * Properties of the string primitives and of the doc helpers *)

Module DocFacts.

Import ExtractPackageApi StrFacts.

Lemma contains_nil needle :
  PyStr.contains needle EmptyString = String.prefix needle EmptyString.
Proof. simpl. apply orb_false_r. Qed.

Lemma contains_cons needle c hay :
  PyStr.contains needle (String c hay)
  = String.prefix needle (String c hay) || PyStr.contains needle hay.
Proof. reflexivity. Qed.

Lemma contains_spec needle hay :
  PyStr.contains needle hay = true ↔ ∃ a b, hay = (a ++ needle ++ b)%string.
Proof.
  induction hay as [|c hay IH].
  - rewrite contains_nil, prefix_spec. split.
    + intros [t Ht]. by exists EmptyString, t.
    + intros (a & b & H). destruct a; [by exists b|by rewrite app_cons in H].
  - rewrite contains_cons, orb_true_iff, prefix_spec, IH. split.
    + intros [[t Ht]|(a & b & Ht)].
      * by exists EmptyString, t.
      * exists (String c a), b. by rewrite app_cons, Ht.
    + intros (a & b & Ht). destruct a as [|d a].
      * left. by exists b.
      * right. rewrite app_cons in Ht. injection Ht as -> ->. by exists a, b.
Qed.

Lemma lower_app a b : PyStr.lower (a ++ b) = (PyStr.lower a ++ PyStr.lower b)%string.
Proof.
  induction a as [|c a IH]; [done|]. rewrite app_cons. simpl. by rewrite IH, app_cons.
Qed.

Lemma lower_app_inv s x y :
  PyStr.lower s = (x ++ y)%string →
  ∃ s1 s2, s = (s1 ++ s2)%string ∧ PyStr.lower s1 = x ∧ PyStr.lower s2 = y.
Proof.
  revert s. induction x as [|c x IH]; intros s H.
  - by exists EmptyString, s.
  - destruct s as [|d s]; [done|]. rewrite app_cons in H. simpl in H.
    injection H as Hc Hs. destruct (IH s Hs) as (s1 & s2 & -> & <- & <-).
    exists (String d s1), s2. split; [done|]. simpl. by rewrite Hc.
Qed.

(** X4: a doc counts as deprecated exactly when it contains the word
    [deprecated] in some casing; the empty doc never does. *)
Theorem is_deprecated_doc_spec doc :
  is_deprecated_doc doc = true
  ↔ ∃ a w b, doc = (a ++ w ++ b)%string ∧ PyStr.lower w = "deprecated".
Proof.
  unfold is_deprecated_doc. rewrite andb_true_iff, contains_spec. split.
  - intros [_ (a' & b' & H)].
    apply lower_app_inv in H as (a & wb & -> & _ & H).
    apply lower_app_inv in H as (w & b & -> & Hw & _).
    by exists a, w, b.
  - intros (a & w & b & -> & Hw). split.
    + destruct a; [|done]. destruct w; [done|done].
    + exists (PyStr.lower a), (PyStr.lower b). by rewrite !lower_app, Hw.
Qed.

(** A keyword that extends another one matches no line the shorter one
    does not match. *)
Lemma contains_longer_needle k e s :
  PyStr.contains (k ++ e) s = true → PyStr.contains k s = true.
Proof.
  rewrite !contains_spec. intros (a & b & ->). exists a, (e ++ b)%string.
  by rewrite app_assoc.
Qed.

Lemma extract_doc_section_longer_keyword doc k e :
  extract_doc_section doc [k; (k ++ e)%string] = extract_doc_section doc [k].
Proof.
  unfold extract_doc_section. destruct (negb _); [done|].
  assert (List.filter
            (λ line, existsb (λ k0, PyStr.contains k0 (PyStr.lower line)) [k; (k ++ e)%string])
            (PyStr.splitlines doc)
          = List.filter
              (λ line, existsb (λ k0, PyStr.contains k0 (PyStr.lower line)) [k])
              (PyStr.splitlines doc)) as ->; [|done].
  apply List.filter_ext. intros line. simpl. rewrite !orb_false_r.
  destruct (PyStr.contains k (PyStr.lower line)) eqn:Hk; [done|]. simpl.
  destruct (PyStr.contains (k ++ e) (PyStr.lower line)) eqn:Hke; [|done].
  apply contains_longer_needle in Hke. congruence.
Qed.

(** X5: the second keyword of each section is redundant: [returns_doc]
    is decided by [:return] alone and [raise_doc] by [:raise] alone. *)
Theorem doc_sections_single_keyword doc :
  extract_doc_section doc [":return"; ":returns"] = extract_doc_section doc [":return"]
  ∧ extract_doc_section doc [":raise"; ":raises"] = extract_doc_section doc [":raise"].
Proof.
  split.
  - apply (extract_doc_section_longer_keyword doc ":return" "s").
  - apply (extract_doc_section_longer_keyword doc ":raise" "s").
Qed.

(** Every line of [splitlines] is a piece of the text. *)
Lemma splitlines_from_piece n cur s line :
  (String.length s ≤ n)%nat →
  line ∈ PyStr.splitlines_from cur s →
  ∃ a b, (cur ++ s)%string = (a ++ line ++ b)%string.
Proof.
  revert cur s. induction n as [|n IH]; intros cur s Hlen Hin.
  - destruct s; [|simpl in Hlen; lia]. simpl in Hin.
    destruct (PyStr.truthy cur); [|by apply elem_of_nil in Hin].
    apply list_elem_of_singleton in Hin as ->. exists EmptyString, EmptyString.
    by rewrite app_nil_l.
  - destruct s as [|c s'].
    { simpl in Hin. destruct (PyStr.truthy cur); [|by apply elem_of_nil in Hin].
      apply list_elem_of_singleton in Hin as ->. exists EmptyString, EmptyString.
      by rewrite app_nil_l. }
    simpl in Hlen. simpl in Hin. destruct (PyStr.is_linebreak c).
    + apply elem_of_cons in Hin as [->|Hin].
      { exists EmptyString, (String c s'). by rewrite app_nil_l. }
      destruct s' as [|c2 s'']; [by apply elem_of_nil in Hin|].
      destruct (_ && _).
      * destruct (IH EmptyString s'' ltac:(simpl in Hlen; lia) Hin) as (a & b & Hab).
        rewrite app_nil_l in Hab.
        exists (cur ++ String c (String c2 a))%string, b.
        rewrite Hab, !app_assoc. by rewrite !app_cons.
      * destruct (IH EmptyString (String c2 s'') ltac:(simpl in *; lia) Hin)
          as (a & b & Hab).
        rewrite app_nil_l in Hab.
        exists (cur ++ String c a)%string, b.
        rewrite Hab, !app_assoc. by rewrite !app_cons.
    + destruct (IH (cur ++ String c EmptyString)%string s' ltac:(lia) Hin)
        as (a & b & Hab).
      exists a, b. rewrite <- Hab, app_assoc. by rewrite app_cons.
Qed.

(** X6: a section is extracted only from a doc that contains one of the
    keywords, in some casing; in particular never from the empty doc. *)
Theorem extract_doc_section_needs_keyword doc keywords section :
  extract_doc_section doc keywords = Some section →
  ∃ k, k ∈ keywords ∧ PyStr.contains k (PyStr.lower doc) = true.
Proof.
  unfold extract_doc_section. destruct (negb _); [done|].
  destruct (List.filter _ (PyStr.splitlines doc)) as [|line rest] eqn:Hf; [done|].
  intros _.
  assert (In line (List.filter
                     (λ line, existsb (λ k, PyStr.contains k (PyStr.lower line)) keywords)
                     (PyStr.splitlines doc))) as Hin by (rewrite Hf; by left).
  apply filter_In in Hin as [Hline Hmatch].
  apply existsb_exists in Hmatch as (k & Hk & Hc).
  exists k. split; [by apply list_elem_of_In|].
  apply list_elem_of_In in Hline.
  destruct (splitlines_from_piece (String.length doc) EmptyString doc line
              ltac:(lia) Hline) as (a & b & Hab).
  rewrite app_nil_l in Hab. rewrite Hab, !lower_app.
  apply contains_spec in Hc as (x & y & ->).
  apply contains_spec. exists (PyStr.lower a ++ x)%string, (y ++ PyStr.lower b)%string.
  by rewrite !app_assoc.
Qed.

Lemma extract_doc_section_needs_keyword_witness :
  ∃ k, k ∈ [":return"; ":returns"]
       ∧ PyStr.contains k (PyStr.lower "Adds. :Returns: the sum") = true.
Proof.
  exact (extract_doc_section_needs_keyword "Adds. :Returns: the sum"
           [":return"; ":returns"] "Adds. :Returns: the sum" eq_refl).
Defined.

End DocFacts.

(** * Further properties of the API walker *)

Module WalkerMore.

Import ExtractPackageApi WalkerFacts StrFacts.

Section walker.

Variable relpath : string → result string.

Ltac unfold_result :=
  unfold mbind, result_bind, mret, result_ret, try_except in *.

(** X7: parameter metadata is filled for functions and methods only, from
    the signature, in declaration order, with the default flag of each
    parameter; it is empty for every other kind and when the signature
    cannot be retrieved. *)
Theorem build_api_item_parameters full_id obj parent_class r :
  build_api_item relpath full_id obj parent_class = Ok r →
  parameters r
  = if isfunction obj || ismethod obj then
      match o_signature (info_of obj) with
      | Ok s => (λ p, (p.1, ParamInfo None None (Some p.2))) <$> sig_params s
      | Raise _ => []
      end
    else [].
Proof.
  unfold ExtractPackageApi.build_api_item, get_name. unfold_result.
  intros H.
  assert (∀ l : list (string * bool),
            map (λ '(param_name, has_default),
                   (param_name, ParamInfo None None (Some has_default))) l
            = (λ p, (p.1, ParamInfo None None (Some p.2))) <$> l) as Hmap.
  { intros l. induction l as [|[n d] l IH]; [done|]. simpl. by rewrite IH. }
  destruct obj, (o_source _), (o_signature _), parent_class as [pc|]; simpl in *;
    repeat (case_match; simplify_eq; simpl in *; try done); by rewrite ?Hmap.
Qed.

(** The derived fields of a record. *)
Lemma build_api_item_derived full_id obj parent_class r :
  build_api_item relpath full_id obj parent_class = Ok r →
  doc r = default EmptyString (o_doc (info_of obj))
  ∧ is_deprecated r = is_deprecated_doc (doc r)
  ∧ returns_doc r = extract_doc_section (doc r) [":return"; ":returns"]
  ∧ raise_doc r = extract_doc_section (doc r) [":raise"; ":raises"]
  ∧ module r = o_module (info_of obj).
Proof.
  unfold ExtractPackageApi.build_api_item, get_name. unfold_result.
  intros H.
  destruct (o_source _), (o_signature _), parent_class as [pc|]; simpl in *;
    repeat (case_match; simplify_eq; simpl in *; try done).
Qed.

Lemma reaches_module root m : ismodule root = true → reaches root m → ismodule m = true.
Proof. intros Hroot Hreach. induction Hreach; auto. Qed.

(** X8: every record of a walk has [from_init] unset and its derived
    fields computed from its doc; it carries a [class] field exactly when it
    is a member_function record; and in the walk of a module every record
    is of kind module, class, function or member_function. *)
Theorem walk_record_shape root visited rs v r :
  traverse_module relpath root visited = Ok (rs, v) →
  r ∈ rs →
  from_init r = false
  ∧ is_deprecated r = is_deprecated_doc (doc r)
  ∧ returns_doc r = extract_doc_section (doc r) [":return"; ":returns"]
  ∧ (is_Some (class r) ↔ type r = "member_function")
  ∧ (ismodule root = true →
     type r ∈ ["module"; "class"; "function"; "member_function"]).
Proof.
  intros Hrun Hr.
  destruct (traverse_module_origin relpath _ _ _ _ Hrun r Hr)
    as [m Hreach Hb|m n member Hreach Hin Hk Hb|m n cls sn sub Hreach Hin Hc Hsub Hk Hb];
    destruct (build_api_item_derived _ _ _ _ Hb) as (_ & Hdep & Hret & _);
    apply build_api_item_fields in Hb as (_ & Hfi & Hcls & Hty & _);
    (split; [done|]); (split; [done|]); (split; [done|]).
  - split.
    + rewrite Hcls, Hty. simpl. split; [by intros [? ?]|].
      repeat (case_match; try done).
    + intros Hroot. rewrite Hty.
      pose proof (reaches_module _ _ Hroot Hreach) as Hm.
      destruct m; try done. simpl. set_solver.
  - split.
    + rewrite Hcls, Hty. simpl. split; [by intros [? ?]|].
      repeat (case_match; try done).
    + intros _. rewrite Hty. destruct member; try done; simpl; set_solver.
  - split.
    + rewrite Hcls, Hty. simpl.
      assert (isclass sub = false) as -> by (by destruct sub).
      rewrite Hk. destruct (o_truth (info_of cls)).
      * split; [done|]. intros _. destruct cls; try done; by eexists.
      * split; [by intros [? ?]|done].
    + intros _. rewrite Hty.
      assert (isclass sub = false) as -> by (by destruct sub).
      rewrite Hk. destruct (truthy_obj (Some cls)); set_solver.
Qed.

(** *** Identifiers stay under the first segment of the root *)

Definition root_segment (m : pyobj) : string :=
  PyStr.first_part (PyStr.split "." (mod_name_of m)).

Definition under (seg : string) (rs : list api_item) : Prop :=
  ∀ r, r ∈ rs → PyStr.startswith (_id r) seg = true.

Lemma under_app seg rs1 rs2 : under seg rs1 → under seg rs2 → under seg (rs1 ++ rs2).
Proof. intros H1 H2 r Hr. apply elem_of_app in Hr as [?|?]; auto. Qed.

Lemma class_methods_under seg full_id cls subs rs :
  String.prefix seg full_id = true →
  class_methods relpath full_id cls subs = Ok rs → under seg rs.
Proof.
  intros Hseg Hrs r Hr.
  destruct (class_methods_origin relpath _ _ _ _ Hrs r Hr) as (sn & sub & _ & _ & Hb).
  apply build_api_item_fields in Hb as (-> & _).
  by apply prefix_app.
Qed.

Lemma members_loop_under seg mod_name ms results visited rs v :
  String.prefix seg (PyStr.first_part (PyStr.split "." mod_name)) = true →
  dotfree seg →
  Forall (λ nm, ∀ visited rs v,
            traverse_module relpath nm.2 visited = Ok (rs, v) →
            under (root_segment nm.2) rs) ms →
  under seg results →
  members_loop relpath (traverse_module relpath) mod_name ms results visited = Ok (rs, v) →
  under seg rs.
Proof.
  intros Hseg Hfree Hrec. revert results visited.
  assert (String.prefix seg mod_name = true) as Hmod.
  { eapply prefix_trans; [exact Hseg|apply first_part_prefix]. }
  induction Hrec as [|[name member] ms Hm _ IH]; intros results visited Hres; simpl.
  - by intros [= <- <-].
  - unfold_result. destruct (ismodule member) eqn:Hismod.
    { destruct (PyStr.startswith _ _) eqn:Hstart; [|by apply IH].
      destruct (traverse_module relpath member visited) as [[sub v']|] eqn:Hsub; [|done].
      apply IH. apply under_app; [done|].
      intros r Hr. unfold PyStr.startswith in *.
      eapply prefix_trans; [|by eapply Hm].
      unfold root_segment, mod_name_of. cbn [snd].
      apply prefix_first_part; [done|].
      destruct (name_attr member) as [n|].
      - eapply prefix_trans; [exact Hseg|exact Hstart].
      - eapply prefix_trans; [exact Hseg|].
        eapply prefix_trans; [exact Hstart|]. apply prefix_spec. by eexists. }
    destruct (isclass member) eqn:Hc.
    { destruct (visit_class relpath _ member) as [recs|] eqn:Hrecs; [|done].
      apply IH. apply under_app; [done|].
      apply visit_class_inv in Hrecs as (item & methods & -> & Hitem & Hmethods).
      intros r Hr. apply elem_of_cons in Hr as [->|Hr].
      - apply build_api_item_fields in Hitem as (-> & _). by apply prefix_app.
      - eapply class_methods_under; [|done..]. by apply prefix_app. }
    destruct (isfunction member); [|by apply IH].
    destruct (build_api_item relpath _ member None) as [rec|] eqn:Hb; [|done].
    apply IH. apply under_app; [done|].
    intros r Hr. apply list_elem_of_singleton in Hr as ->.
    apply build_api_item_fields in Hb as (-> & _). by apply prefix_app.
Qed.

(** X9: every identifier of a walk begins with the first dotted segment
    of the name of the root; this is all that the prefix test on module
    names guarantees. *)
Theorem walk_ids_start_with_root_segment root visited rs v r :
  traverse_module relpath root visited = Ok (rs, v) →
  r ∈ rs →
  PyStr.startswith (_id r) (PyStr.first_part (PyStr.split "." (mod_name_of root))) = true.
Proof.
  revert visited rs v r.
  assert (∀ module,
            Forall (λ nm : string * pyobj, ∀ visited rs v,
                      traverse_module relpath nm.2 visited = Ok (rs, v) →
                      under (root_segment nm.2) rs) (getmembers module) →
            ∀ visited rs v,
              traverse_module relpath module visited = Ok (rs, v) →
              under (root_segment module) rs) as Hstep.
  { intros m Hms visited rs v. rewrite traverse_module_unfold.
    destruct (decide _).
    { intros [= <- <-] r Hr. by apply elem_of_nil in Hr. }
    unfold_result.
    destruct (build_api_item relpath (mod_name_of m) m None) as [item|] eqn:Hitem; [|done].
    apply members_loop_under; [|apply first_part_dotfree|done|].
    - apply prefix_spec. exists EmptyString. by rewrite app_nil_r.
    - intros r Hr. apply list_elem_of_singleton in Hr as ->.
      apply build_api_item_fields in Hitem as (-> & _). apply first_part_prefix. }
  intros visited rs v r Hrun Hr.
  cut (under (root_segment root) rs); [by intros H; apply H|].
  clear r Hr. revert visited rs v Hrun.
  induction root using pyobj_nested_ind; apply Hstep; simpl; try done.
Qed.

(** *** A method record follows the record of its class *)

Definition grouped (rs : list api_item) : Prop :=
  ∀ r, r ∈ rs → type r = "member_function" →
    ∃ cr mod_name name c sub_name,
      cr ∈ rs ∧ type cr = "class"
      ∧ _id cr = (mod_name ++ "." ++ name)%string
      ∧ _id r = (_id cr ++ "." ++ sub_name)%string
      ∧ class r = Some c.

Lemma grouped_app rs1 rs2 : grouped rs1 → grouped rs2 → grouped (rs1 ++ rs2).
Proof.
  intros H1 H2 r Hr Hty. apply elem_of_app in Hr as [Hr|Hr].
  - destruct (H1 r Hr Hty) as (cr & m & n & c & sn & Hcr & ?).
    exists cr, m, n, c, sn. split; [|done]. apply elem_of_app. by left.
  - destruct (H2 r Hr Hty) as (cr & m & n & c & sn & Hcr & ?).
    exists cr, m, n, c, sn. split; [|done]. apply elem_of_app. by right.
Qed.

Lemma grouped_top full_id obj r :
  build_api_item relpath full_id obj None = Ok r → grouped [r].
Proof.
  intros Hb r' Hr' Hty. apply list_elem_of_singleton in Hr' as ->.
  apply build_api_item_fields in Hb as (_ & _ & _ & Ht & _).
  rewrite Ht in Hty. by repeat case_match.
Qed.

Lemma grouped_visit_class mod_name name member recs :
  isclass member = true →
  visit_class relpath (mod_name ++ "." ++ name)%string member = Ok recs →
  grouped recs.
Proof.
  intros Hc Hrecs r Hr Hty.
  apply visit_class_inv in Hrecs as (item & methods & -> & Hitem & Hmethods).
  apply build_api_item_fields in Hitem as (Hid & _ & _ & Hit & _).
  rewrite Hc in Hit.
  apply elem_of_cons in Hr as [->|Hr]; [congruence|].
  destruct (class_methods_origin relpath _ _ _ _ Hmethods r Hr) as (sn & sub & _ & _ & Hb).
  apply build_api_item_fields in Hb as (Hrid & _ & Hcls & Hrty & _).
  rewrite Hty in Hrty.
  destruct (truthy_obj (Some member)); [|by repeat case_match].
  destruct member as [| c i ms | | |]; try done.
  exists item, mod_name, name, c, sn.
  split_and!; [left|done|done|by rewrite Hrid, Hid|done].
Qed.

Lemma members_loop_grouped mod_name ms results visited rs v :
  Forall (λ nm, ∀ visited rs v,
            traverse_module relpath nm.2 visited = Ok (rs, v) → grouped rs) ms →
  grouped results →
  members_loop relpath (traverse_module relpath) mod_name ms results visited = Ok (rs, v) →
  grouped rs.
Proof.
  intros Hrec. revert results visited.
  induction Hrec as [|[name member] ms Hm _ IH]; intros results visited Hres; simpl.
  - by intros [= <- <-].
  - unfold_result. destruct (ismodule member) eqn:Hismod.
    { destruct (PyStr.startswith _ _); [|by apply IH].
      destruct (traverse_module relpath member visited) as [[sub v']|] eqn:Hsub; [|done].
      apply IH. apply grouped_app; [done|]. by eapply Hm. }
    destruct (isclass member) eqn:Hc.
    { destruct (visit_class relpath _ member) as [recs|] eqn:Hrecs; [|done].
      apply IH. apply grouped_app; [done|]. by eapply grouped_visit_class. }
    destruct (isfunction member) eqn:Hf; [|by apply IH].
    destruct (build_api_item relpath _ member None) as [rec|] eqn:Hb; [|done].
    apply IH. apply grouped_app; [done|]. by eapply grouped_top.
Qed.

Lemma traverse_module_grouped root :
  ∀ visited rs v, traverse_module relpath root visited = Ok (rs, v) → grouped rs.
Proof.
  assert (∀ module,
            Forall (λ nm : string * pyobj, ∀ visited rs v,
                      traverse_module relpath nm.2 visited = Ok (rs, v) → grouped rs)
                   (getmembers module) →
            ∀ visited rs v,
              traverse_module relpath module visited = Ok (rs, v) → grouped rs) as Hstep.
  { intros m Hms visited rs v. rewrite traverse_module_unfold.
    destruct (decide _).
    { intros [= <- <-] r Hr. by apply elem_of_nil in Hr. }
    unfold_result.
    destruct (build_api_item relpath (mod_name_of m) m None) as [item|] eqn:Hitem; [|done].
    apply members_loop_grouped; [done|]. by eapply grouped_top. }
  induction root using pyobj_nested_ind; apply Hstep; simpl; try done.
Qed.

(** *** Each module is recorded once *)

Definition module_ids (rs : list api_item) : list string :=
  _id <$> filter (λ r, type r = "module") rs.

Lemma module_ids_app rs1 rs2 : module_ids (rs1 ++ rs2) = module_ids rs1 ++ module_ids rs2.
Proof. unfold module_ids. by rewrite filter_app, fmap_app. Qed.

Lemma module_ids_none rs : (∀ r, r ∈ rs → type r ≠ "module") → module_ids rs = [].
Proof.
  intros H. unfold module_ids. induction rs as [|r rs IH]; [done|].
  rewrite filter_cons_False; [|apply H; left].
  apply IH. intros r' Hr'. apply H. by right.
Qed.

Definition fresh_modules (before : gset string) (rs : list api_item) (after : gset string)
  : Prop :=
  before ⊆ after
  ∧ NoDup (module_ids rs)
  ∧ ∀ i, i ∈ module_ids rs → (i ∉ before) ∧ (i ∈ after).

Lemma fresh_modules_app before rs1 mid rs2 after :
  fresh_modules before rs1 mid → fresh_modules mid rs2 after →
  fresh_modules before (rs1 ++ rs2) after.
Proof.
  intros (Hsub1 & Hnd1 & Hin1) (Hsub2 & Hnd2 & Hin2).
  split; [set_solver|]. rewrite module_ids_app. split.
  - apply NoDup_app. split; [done|]. split; [|done].
    intros i Hi1 Hi2. destruct (Hin1 i Hi1), (Hin2 i Hi2). done.
  - intros i Hi. apply elem_of_app in Hi as [Hi|Hi].
    + destruct (Hin1 i Hi). set_solver.
    + destruct (Hin2 i Hi). set_solver.
Qed.

Lemma fresh_modules_none rs visited :
  (∀ r, r ∈ rs → type r ≠ "module") → fresh_modules visited rs visited.
Proof.
  intros H. split; [done|]. rewrite (module_ids_none _ H).
  split; [constructor|]. intros i Hi. by apply elem_of_nil in Hi.
Qed.

Lemma visit_class_no_module full_id member recs :
  isclass member = true →
  visit_class relpath full_id member = Ok recs →
  ∀ r, r ∈ recs → type r ≠ "module".
Proof.
  intros Hc Hrecs r Hr.
  apply visit_class_inv in Hrecs as (item & methods & -> & Hitem & Hmethods).
  apply elem_of_cons in Hr as [->|Hr].
  - apply build_api_item_fields in Hitem as (_ & _ & _ & -> & _). by rewrite Hc.
  - destruct (class_methods_origin relpath _ _ _ _ Hmethods r Hr) as (sn & sub & _ & Hk & Hb).
    apply build_api_item_fields in Hb as (_ & _ & _ & -> & _).
    rewrite Hk. by destruct (isclass sub), (truthy_obj (Some member)).
Qed.

Lemma members_loop_fresh before mod_name ms results visited rs v :
  Forall (λ nm, ∀ visited rs v,
            traverse_module relpath nm.2 visited = Ok (rs, v) →
            fresh_modules visited rs v) ms →
  fresh_modules before results visited →
  members_loop relpath (traverse_module relpath) mod_name ms results visited = Ok (rs, v) →
  fresh_modules before rs v.
Proof.
  intros Hrec. revert results visited.
  induction Hrec as [|[name member] ms Hm _ IH]; intros results visited Hres; simpl.
  - by intros [= <- <-].
  - unfold_result. destruct (ismodule member) eqn:Hismod.
    { destruct (PyStr.startswith _ _); [|by apply IH].
      destruct (traverse_module relpath member visited) as [[sub v']|] eqn:Hsub; [|done].
      apply IH. eapply fresh_modules_app; [done|]. by apply Hm. }
    destruct (isclass member) eqn:Hc.
    { destruct (visit_class relpath _ member) as [recs|] eqn:Hrecs; [|done].
      apply IH. eapply fresh_modules_app; [done|].
      apply fresh_modules_none. by eapply visit_class_no_module. }
    destruct (isfunction member) eqn:Hf; [|by apply IH].
    destruct (build_api_item relpath _ member None) as [rec|] eqn:Hb; [|done].
    apply IH. eapply fresh_modules_app; [done|].
    apply fresh_modules_none. intros r Hr. apply list_elem_of_singleton in Hr as ->.
    apply build_api_item_fields in Hb as (_ & _ & _ & -> & _). by rewrite Hc, Hf.
Qed.

(** X10: a walk only adds to the visited set; it emits at most one module
    record per module name, none for a name that was already visited, and
    every name it records is in the visited set afterwards. *)
Theorem walk_records_each_module_once root visited rs v :
  traverse_module relpath root visited = Ok (rs, v) →
  visited ⊆ v
  ∧ NoDup (_id <$> filter (λ r, type r = "module") rs)
  ∧ ∀ i, i ∈ (_id <$> filter (λ r, type r = "module") rs) → (i ∉ visited) ∧ (i ∈ v).
Proof.
  revert visited rs v.
  assert (∀ module,
            Forall (λ nm : string * pyobj, ∀ visited rs v,
                      traverse_module relpath nm.2 visited = Ok (rs, v) →
                      fresh_modules visited rs v) (getmembers module) →
            ∀ visited rs v,
              traverse_module relpath module visited = Ok (rs, v) →
              fresh_modules visited rs v) as Hstep.
  { intros m Hms visited rs v. rewrite traverse_module_unfold.
    destruct (decide _) as [|Hnew].
    { intros [= <- <-]. apply fresh_modules_none.
      intros r Hr. by apply elem_of_nil in Hr. }
    unfold_result.
    destruct (build_api_item relpath (mod_name_of m) m None) as [item|] eqn:Hitem; [|done].
    apply members_loop_fresh; [done|].
    apply build_api_item_fields in Hitem as (Hid & _).
    split; [set_solver|]. unfold module_ids.
    destruct (decide (type item = "module")) as [Hty|Hty].
    - rewrite filter_cons_True, filter_nil by done. simpl. rewrite Hid.
      split; [apply NoDup_singleton|].
      intros i Hi. apply list_elem_of_singleton in Hi as ->. set_solver.
    - rewrite filter_cons_False, filter_nil by done.
      split; [constructor|]. intros i Hi. by apply elem_of_nil in Hi. }
  induction root using pyobj_nested_ind; apply Hstep; simpl; try done.
Qed.


End walker.

Lemma build_api_item_parameters_witness :
  ∃ r, build_api_item (λ p, Ok p) "pkg.f"
         (PyFunction "f" (ObjInfo None (Raise "OSError")
                            (Ok (PySig "(a, b=1)" [("a", false); ("b", true)]))
                            None (Raise "TypeError") None true) []) None = Ok r
       ∧ parameters r = [("a", ParamInfo None None (Some false));
                         ("b", ParamInfo None None (Some true))].
Proof.
  eexists. split; [reflexivity|].
  apply (build_api_item_parameters (λ p, Ok p) "pkg.f"
           (PyFunction "f" (ObjInfo None (Raise "OSError")
                              (Ok (PySig "(a, b=1)" [("a", false); ("b", true)]))
                              None (Raise "TypeError") None true) []) None).
  reflexivity.
Defined.

Lemma walk_record_shape_witness :
  ∃ rs v,
    traverse_module (λ p, Ok p) widget_pkg ∅ = Ok (rs, v)
    ∧ ∀ r, r ∈ rs → (is_Some (class r) ↔ type r = "member_function").
Proof.
  destruct (traverse_module (λ p, Ok p) widget_pkg ∅) as [[rs v]|] eqn:Hrun;
    [|by vm_compute in Hrun].
  exists rs, v. split; [done|]. intros r Hr.
  by destruct (walk_record_shape (λ p, Ok p) widget_pkg ∅ rs v r Hrun Hr)
    as (_ & _ & _ & H & _).
Defined.

Lemma walk_ids_start_with_root_segment_witness :
  ∃ rs v,
    traverse_module (λ p, Ok p) foo_pkg ∅ = Ok (rs, v)
    ∧ ∀ r, r ∈ rs → PyStr.startswith (_id r) "foo" = true.
Proof.
  destruct (traverse_module (λ p, Ok p) foo_pkg ∅) as [[rs v]|] eqn:Hrun;
    [|by vm_compute in Hrun].
  exists rs, v. split; [done|]. intros r Hr.
  exact (walk_ids_start_with_root_segment (λ p, Ok p) foo_pkg ∅ rs v r Hrun Hr).
Defined.

Lemma walk_records_each_module_once_witness :
  ∃ rs v,
    traverse_module (λ p, Ok p) foo_pkg ∅ = Ok (rs, v)
    ∧ NoDup (_id <$> filter (λ r, type r = "module") rs).
Proof.
  destruct (traverse_module (λ p, Ok p) foo_pkg ∅) as [[rs v]|] eqn:Hrun;
    [|by vm_compute in Hrun].
  exists rs, v. split; [done|].
  by destruct (walk_records_each_module_once (λ p, Ok p) foo_pkg ∅ rs v Hrun) as (_ & H & _).
Defined.

(** *** The two output lists of [main] *)

Lemma List_filter_sublist {A} (f : A → bool) (l : list A) : List.filter f l `sublist_of` l.
Proof.
  induction l as [|x l IH]; simpl; [done|].
  destruct (f x); by constructor.
Qed.

Lemma set_from_init_same item : set_from_init (from_init item) item = item.
Proof. by destruct item. Qed.

(** X11: the full list of [main] is the list of walked records, in the
    order of the walk, each changed at most in its [from_init] flag; the
    init-only list is the sub-list, in the same order, of the records
    whose last dotted segment is in the export set. *)
Theorem main_output_lists relpath init_body main_module init_only_api all_api :
  main relpath init_body main_module = Ok (init_only_api, all_api) →
  (∃ walked v,
     traverse_module relpath main_module ∅ = Ok (walked, v)
     ∧ Forall2 (λ w a, a = set_from_init (from_init a) w) walked all_api)
  ∧ init_only_api `sublist_of` all_api
  ∧ ∀ r, r ∈ init_only_api
         ↔ r ∈ all_api
           ∧ PyStr.last_part (PyStr.split "." (_id r))
               ∈ resolve_exports init_body main_module.
Proof.
  unfold main. set (exported := resolve_exports _ _).
  unfold mbind, result_bind, mret, result_ret.
  destruct (traverse_module relpath main_module ∅) as [[walked v]|] eqn:Hrun; [|done].
  intros [= <- <-]. split; [|split].
  - exists walked, v. split; [done|].
    assert (Forall (λ w, from_init w = false) walked) as Hdef.
    { apply Forall_forall. intros w Hw. by eapply traverse_module_from_init. }
    clear Hrun. induction Hdef as [|w walked Hw _ IH]; simpl; constructor; [|done].
    unfold mark_from_init. destruct (decide _); simpl; [done|].
    by rewrite set_from_init_same.
  - apply List_filter_sublist.
  - intros r. rewrite list_elem_of_In, filter_In, <- list_elem_of_In.
    split; intros [Hr Hflag]; (split; [done|]);
      apply list_elem_of_In, in_map_iff in Hr as (item & <- & Hitem);
      apply list_elem_of_In in Hitem;
      pose proof (traverse_module_from_init _ _ _ _ _ _ Hrun Hitem) as Hdefault;
      destruct (mark_from_init_spec exported item Hdefault) as [Hid Hiff].
    + rewrite Hid. by apply Hiff.
    + apply Hiff. by rewrite <- Hid.
Qed.

Lemma main_output_lists_witness :
  ∃ init_only_api all_api,
    main (λ p, Ok p) widget_init widget_pkg = Ok (init_only_api, all_api)
    ∧ init_only_api `sublist_of` all_api.
Proof.
  destruct (main (λ p, Ok p) widget_init widget_pkg) as [[init_only_api all_api]|] eqn:Hrun;
    [|by vm_compute in Hrun].
  exists init_only_api, all_api. split; [done|].
  by destruct (main_output_lists (λ p, Ok p) widget_init widget_pkg _ _ Hrun) as (_ & H & _).
Defined.

End WalkerMore.

(** * Further properties of the graph builder *)

Module BuildKgMore.

Import ExtractPackageApi BuildKg BuildKgFacts StrFacts.

(** *** Identifier sanitization *)

Lemma sanitize_char_idem c : sanitize_char (sanitize_char c) = sanitize_char c.
Proof. unfold sanitize_char. destruct (is_separator c) eqn:H; [done|]. by rewrite H. Qed.

Lemma sanitize_char_clean c :
  sanitize_char c ∉ ["\"%char; "/"%char; " "%char; "."%char].
Proof.
  unfold sanitize_char, is_separator.
  destruct (Ascii.eqb_spec c "\") as [->|?]; [set_solver|].
  destruct (Ascii.eqb_spec c "/") as [->|?]; [set_solver|].
  destruct (Ascii.eqb_spec c " ") as [->|?]; [set_solver|].
  destruct (Ascii.eqb_spec c ".") as [->|?]; [set_solver|].
  destruct (Ascii.eqb_spec c "_") as [->|?]; set_solver.
Qed.

Lemma safe_id_length s : String.length (safe_id s) = String.length s.
Proof. induction s as [|c s IH]; [done|]. rewrite safe_id_cons. simpl. by rewrite IH. Qed.

(** X12: the sanitized form of an identifier has the length of the
    identifier, contains no backslash, slash, space or dot, and is left
    unchanged by a second sanitization. *)
Theorem safe_id_sanitizes s :
  String.length (safe_id s) = String.length s
  ∧ safe_id (safe_id s) = safe_id s
  ∧ Forall (λ c, c ∉ ["\"%char; "/"%char; " "%char; "."%char])
           (list_ascii_of_string (safe_id s)).
Proof.
  induction s as [|c s (Hlen & Hidem & Hclean)]; [by repeat split|].
  rewrite !safe_id_cons. simpl. split_and!.
  - by rewrite Hlen.
  - by rewrite sanitize_char_idem, Hidem.
  - constructor; [apply sanitize_char_clean|done].
Qed.

(** *** The whole pass *)

Lemma graph_foldl_add l st :
  ∀ t, t ∈ l → t ∈ graph (foldl (λ st t, add t st) st l).
Proof.
  revert st. induction l as [|x l IH]; intros st t Ht; [by apply elem_of_nil in Ht|].
  simpl. apply elem_of_cons in Ht as [->|Ht]; [|by apply IH].
  assert (∀ l' st', x ∈ graph st' → x ∈ graph (foldl (λ st t, add t st) st' l')) as Hkeep.
  { induction l' as [|y l' IH']; intros st' Hx; [done|]. simpl. apply IH'.
    simpl. set_solver. }
  apply Hkeep. simpl. set_solver.
Qed.

(** X13: the graph of every run holds the seventeen label declarations
    of the ontology and the typed and labelled Library node, whatever the
    records are. *)
Theorem build_knowledge_graph_has_ontology data library_name :
  Forall (λ t, t ∈ graph (build_knowledge_graph data library_name)) ontology
  ∧ (library_node_of library_name, RDF_type, code "Library")
      ∈ graph (build_knowledge_graph data library_name)
  ∧ (library_node_of library_name, RDFS_label, xsd library_name)
      ∈ graph (build_knowledge_graph data library_name).
Proof.
  unfold build_knowledge_graph.
  destruct (foldl_process_grows (library_node_of library_name) data _
              (proj1 (initial_state_ok library_name))) as (_ & Hsub & _).
  split_and!; [apply Forall_forall; intros t Ht| |]; apply Hsub;
    unfold initial_state; cbn [graph add].
  - do 2 (apply elem_of_union; right). by apply graph_foldl_add.
  - apply elem_of_union; right. apply elem_of_union; left. by apply elem_of_singleton.
  - apply elem_of_union; left. by apply elem_of_singleton.
Qed.

(** X14: a run on a longer list of records extends the graph of the run
    on the shorter list: no triple is ever removed or replaced. *)
Theorem build_knowledge_graph_monotone data more library_name :
  graph (build_knowledge_graph data library_name)
  ⊆ graph (build_knowledge_graph (data ++ more) library_name).
Proof.
  unfold build_knowledge_graph. rewrite foldl_app.
  destruct (foldl_process_grows (library_node_of library_name) data _
              (proj1 (initial_state_ok library_name))) as (Hok & _).
  by destruct (foldl_process_grows (library_node_of library_name) more _ Hok)
    as (_ & Hsub & _).
Qed.

(** *** The lookup tables returned with the graph *)

Definition doms_le (st st' : kg_state) : Prop :=
  dom (script_map st) ⊆ dom (script_map st')
  ∧ dom (module_map st) ⊆ dom (module_map st')
  ∧ dom (class_map st) ⊆ dom (class_map st')
  ∧ dom (api_map st) ⊆ dom (api_map st').

Definition same_maps (st st' : kg_state) : Prop :=
  script_map st' = script_map st ∧ module_map st' = module_map st
  ∧ class_map st' = class_map st ∧ api_map st' = api_map st.

Lemma doms_le_refl st : doms_le st st.
Proof. by repeat split. Qed.

Lemma doms_le_trans st1 st2 st3 : doms_le st1 st2 → doms_le st2 st3 → doms_le st1 st3.
Proof. intros (?&?&?&?) (?&?&?&?). repeat split; by etrans. Qed.

Lemma same_maps_refl st : same_maps st st.
Proof. by repeat split. Qed.

Lemma same_maps_trans st1 st2 st3 : same_maps st1 st2 → same_maps st2 st3 → same_maps st1 st3.
Proof. intros (?&?&?&?) (?&?&?&?). repeat split; congruence. Qed.

Lemma same_maps_add t st : same_maps st (add t st).
Proof. by repeat split. Qed.

Lemma foldl_add_same_maps l st : same_maps st (foldl (λ st t, add t st) st l).
Proof.
  revert st. induction l as [|t l IH]; intros st; [apply same_maps_refl|].
  simpl. eapply same_maps_trans; [apply (same_maps_add t)|apply IH].
Qed.

Lemma same_maps_doms_le st st' : same_maps st st' → doms_le st st'.
Proof. intros (H1&H2&H3&H4). unfold doms_le. by rewrite H1, H2, H3, H4. Qed.

Lemma same_maps_if_node o f st0 st :
  same_maps st0 st → (∀ n, same_maps st0 (f n)) → same_maps st0 (if_node o f st).
Proof. intros H Hf. unfold if_node. by repeat case_match. Qed.

Lemma doc_step_same_maps item st : same_maps st (doc_step item st).
Proof.
  unfold doc_step. repeat case_match; try apply same_maps_refl;
    try apply same_maps_if_node; intros; by repeat split.
Qed.

Lemma ret_step_same_maps item st : same_maps st (ret_step item st).
Proof.
  unfold ret_step. repeat case_match; try apply same_maps_refl;
    try apply same_maps_if_node; intros; by repeat split.
Qed.

Lemma param_step_same_maps item st : same_maps st (param_step item st).
Proof.
  unfold param_step. destruct (parameters item) as [|p ps]; [apply same_maps_refl|].
  destruct (is_api_type _); [|apply same_maps_refl].
  apply same_maps_if_node; [apply same_maps_refl|]. intros n.
  generalize (p :: ps). intros l. revert st.
  induction l as [|[k info] l IH]; intros st; [apply same_maps_refl|].
  simpl. eapply same_maps_trans; [|apply IH]. by repeat split.
Qed.

Lemma process_item_same_maps library_node item st :
  same_maps (entity_step library_node item st) (process_item library_node st item).
Proof.
  unfold process_item.
  eapply same_maps_trans; [apply doc_step_same_maps|].
  eapply same_maps_trans; [apply ret_step_same_maps|apply param_step_same_maps].
Qed.

Lemma script_step_doms library_node file_str st :
  doms_le st (script_step library_node file_str st).1
  ∧ module_map (script_step library_node file_str st).1 = module_map st
  ∧ class_map (script_step library_node file_str st).1 = class_map st
  ∧ api_map (script_step library_node file_str st).1 = api_map st
  ∧ ∀ f, file_str = Some f → PyStr.truthy f = true →
         f ∈ dom (script_map (script_step library_node file_str st).1).
Proof.
  unfold script_step, doms_le.
  destruct file_str as [f|]; [destruct (PyStr.truthy f) eqn:Hf|]; simpl;
    [destruct (script_map st !! f) as [n|] eqn:Hn|..]; simpl;
    rewrite ?dom_insert_L; split_and!; try done; try set_solver.
  - intros ? [= <-] _. apply elem_of_dom. by eexists.
  - intros ? [= <-]. congruence.
Qed.

Lemma module_step_doms module_str script_node st :
  doms_le st (module_step module_str script_node st).1
  ∧ script_map (module_step module_str script_node st).1 = script_map st
  ∧ class_map (module_step module_str script_node st).1 = class_map st
  ∧ api_map (module_step module_str script_node st).1 = api_map st
  ∧ module_str ∈ dom (module_map (module_step module_str script_node st).1).
Proof.
  unfold module_step, doms_le, if_node.
  destruct (module_map st !! module_str) as [n|] eqn:Hn; simpl.
  - split_and!; try done. apply elem_of_dom. by eexists.
  - repeat case_match; simpl; rewrite ?dom_insert_L; split_and!; try done; set_solver.
Qed.

Lemma class_step_doms item script_node mod_node st :
  doms_le st (class_step item script_node mod_node st)
  ∧ script_map (class_step item script_node mod_node st) = script_map st
  ∧ _id item ∈ dom (class_map (class_step item script_node mod_node st)).
Proof.
  unfold class_step.
  destruct (negb _).
  - match goal with |- context [module_step ?m ?s ?t] =>
      destruct (module_step_doms m s t) as ((H1&H2&H3&H4) & Hs & _);
      destruct (module_step m s t) as [st2 mn] end.
    simpl in *. unfold doms_le, if_node.
    repeat case_match; simpl; rewrite ?dom_insert_L; split_and!; try done; set_solver.
  - unfold doms_le, if_node.
    repeat case_match; simpl; rewrite ?dom_insert_L; split_and!; try done; set_solver.
Qed.

Lemma api_step_doms item mod_node st :
  doms_le st (api_step item mod_node st)
  ∧ script_map (api_step item mod_node st) = script_map st
  ∧ _id item ∈ dom (api_map (api_step item mod_node st))
  ∧ (type item = "member_function" → PyStr.truthy_opt (class item) = true →
     default EmptyString (class item) ∈ dom (class_map (api_step item mod_node st))).
Proof.
  unfold api_step, doms_le, if_node.
  destruct (String.eqb_spec (type item) "member_function") as [Hty|Hty];
    destruct (PyStr.truthy_opt (class item)); simpl;
    repeat case_match; simpl; rewrite ?dom_insert_L; split_and!;
    try done; try set_solver.
  all: intros _ _; apply elem_of_dom; simpl in *; by eexists.
Qed.

(** What the first three steps of the loop body do to the tables. *)
Lemma entity_step_doms library_node item st :
  doms_le st (entity_step library_node item st)
  ∧ (∀ f, file item = Some f → PyStr.truthy f = true →
          f ∈ dom (script_map (entity_step library_node item st)))
  ∧ (∀ m, module item = Some m → PyStr.truthy m = true →
          m ∈ dom (module_map (entity_step library_node item st)))
  ∧ (type item = "class" → _id item ∈ dom (class_map (entity_step library_node item st)))
  ∧ (is_api_type (type item) = true →
     _id item ∈ dom (api_map (entity_step library_node item st)))
  ∧ (type item = "member_function" → PyStr.truthy_opt (class item) = true →
     default EmptyString (class item)
       ∈ dom (class_map (entity_step library_node item st))).
Proof.
  unfold entity_step.
  destruct (script_step_doms library_node (file item) st) as (Hle1 & _ & _ & _ & Hf).
  destruct (script_step library_node (file item) st) as [st1 script_node]. simpl in *.
  set (step2 := match module item with
                | Some m => if PyStr.truthy m then module_step m script_node st1
                            else (st1, None)
                | None => (st1, None)
                end).
  assert (doms_le st1 step2.1
          ∧ (∀ m, module item = Some m → PyStr.truthy m = true →
                  m ∈ dom (module_map step2.1))) as (Hle2 & Hm).
  { subst step2. destruct (module item) as [m|]; [destruct (PyStr.truthy m) eqn:Hm|];
      simpl; try (split; [apply doms_le_refl|]; intros; congruence).
    destruct (module_step_doms m script_node st1) as (? & _ & _ & _ & ?).
    split; [done|]. by intros ? [= <-] _. }
  destruct step2 as [st2 mod_node]. simpl in *.
  assert (doms_le st st2) as Hle by (by eapply doms_le_trans).
  destruct (String.eqb_spec (type item) "class") as [Hty|Hty].
  - destruct (class_step_doms item script_node mod_node st2) as (Hle3 & _ & Hc).
    assert (doms_le st (class_step item script_node mod_node st2)) as Hle'
      by (by eapply doms_le_trans).
    destruct Hle3 as (H1 & H2 & H3 & H4).
    split_and!; try done.
    + intros f Hfile Htr. destruct Hle2 as (G1 & _). by apply H1, G1, Hf.
    + intros m Hmod Htr. by apply H2, Hm.
    + rewrite Hty. done.
    + rewrite Hty. done.
  - destruct (is_api_type (type item)) eqn:Hapi.
    + destruct (api_step_doms item mod_node st2) as (Hle3 & _ & Ha & Hc).
      assert (doms_le st (api_step item mod_node st2)) as Hle'
        by (by eapply doms_le_trans).
      destruct Hle3 as (H1 & H2 & H3 & H4).
      split_and!; try done.
      * intros f Hfile Htr. destruct Hle2 as (G1 & _). by apply H1, G1, Hf.
      * intros m Hmod Htr. by apply H2, Hm.
    + split_and!; try done.
      * intros f Hfile Htr. destruct Hle2 as (G1 & _). by apply G1, Hf.
      * intros Hmf. rewrite Hmf in Hapi. done.
Qed.

Lemma process_item_doms library_node item st :
  doms_le st (process_item library_node st item).
Proof.
  eapply doms_le_trans; [apply (entity_step_doms library_node item st)|].
  apply same_maps_doms_le, process_item_same_maps.
Qed.

Lemma foldl_process_doms library_node data st :
  doms_le st (foldl (process_item library_node) st data).
Proof.
  revert st. induction data as [|x data IH]; intros st; [apply doms_le_refl|].
  simpl. eapply doms_le_trans; [apply process_item_doms|apply IH].
Qed.

(** X15: each entry of the four tables returned with the graph maps its
    key to the node that [uri_encode] makes from the category and the
    key, and that node is typed with the category in the graph. *)
Theorem build_knowledge_graph_table_entries data library_name :
  Forall (λ '(cat, m),
            ∀ k n, m !! k = Some n →
                   n = uri_encode (code cat) k
                   ∧ (n, RDF_type, code cat)
                       ∈ graph (build_knowledge_graph data library_name))
         [ ("Script", script_map (build_knowledge_graph data library_name));
           ("Module", module_map (build_knowledge_graph data library_name));
           ("Class", class_map (build_knowledge_graph data library_name));
           ("API", api_map (build_knowledge_graph data library_name)) ].
Proof.
  destruct (build_knowledge_graph_tables data library_name) as (H1 & H2 & H3 & H4).
  apply List.Forall_cons; [exact H1|].
  apply List.Forall_cons; [exact H2|].
  apply List.Forall_cons; [exact H3|].
  apply List.Forall_cons; [exact H4|].
  apply List.Forall_nil.
Qed.

Lemma build_knowledge_graph_split data library_name item :
  item ∈ data →
  ∃ st, tables_ok st
        ∧ doms_le (entity_step (library_node_of library_name) item st)
                  (build_knowledge_graph data library_name).
Proof.
  intros Hin. apply list_elem_of_split in Hin as (pre & post & ->).
  unfold build_knowledge_graph. rewrite foldl_app. simpl.
  destruct (foldl_process_grows (library_node_of library_name) pre _
              (proj1 (initial_state_ok library_name))) as (Hok & _).
  eexists. split; [exact Hok|].
  eapply doms_le_trans; [|apply foldl_process_doms].
  apply same_maps_doms_le, process_item_same_maps.
Qed.

(** X16: after a run, the tables hold an entry for what each record
    names: its file in the Script table and its module in the Module
    table when they are not empty, its identifier in the Class or the API
    table according to its kind, and the [class] field of a method in the
    Class table. *)
Theorem build_knowledge_graph_registers data library_name item :
  item ∈ data →
  (∀ f, file item = Some f → PyStr.truthy f = true →
        script_map (build_knowledge_graph data library_name) !! f
        = Some (uri_encode (code "Script") f))
  ∧ (∀ m, module item = Some m → PyStr.truthy m = true →
          module_map (build_knowledge_graph data library_name) !! m
          = Some (uri_encode (code "Module") m))
  ∧ (type item = "class" →
     class_map (build_knowledge_graph data library_name) !! _id item
     = Some (uri_encode (code "Class") (_id item)))
  ∧ (is_api_type (type item) = true →
     api_map (build_knowledge_graph data library_name) !! _id item
     = Some (uri_encode (code "API") (_id item)))
  ∧ (type item = "member_function" → PyStr.truthy_opt (class item) = true →
     class_map (build_knowledge_graph data library_name) !! default EmptyString (class item)
     = Some (uri_encode (code "Class") (default EmptyString (class item)))).
Proof.
  intros Hin.
  destruct (build_knowledge_graph_split data library_name item Hin)
    as (st & Hok & (D1 & D2 & D3 & D4)).
  destruct (entity_step_doms (library_node_of library_name) item st)
    as (_ & Hf & Hm & Hc & Ha & Hmc).
  destruct (build_knowledge_graph_tables data library_name) as (T1 & T2 & T3 & T4).
  assert (∀ cat (m : gmap string term) g k,
            table_ok cat m g → k ∈ dom m → m !! k = Some (uri_encode (code cat) k)) as Hget.
  { intros cat m g k Ht Hk. apply elem_of_dom in Hk as [n Hn].
    by destruct (Ht k n Hn) as [<- _]. }
  split_and!.
  - intros f Hfile Htr. eapply Hget; [exact T1|]. apply D1. by apply Hf.
  - intros m Hmod Htr. eapply Hget; [exact T2|]. apply D2. by apply Hm.
  - intros Hty. eapply Hget; [exact T3|]. by apply D3, Hc.
  - intros Hty. eapply Hget; [exact T4|]. by apply D4, Ha.
  - intros Hty Hcls. eapply Hget; [exact T3|]. by apply D3, Hmc.
Qed.

Lemma build_knowledge_graph_registers_witness :
  class_map (build_knowledge_graph
               [bare_item "pkg.Widget.run" "member_function" "" (Some "Widget")]
               "MyLibrary") !! "Widget"
  = Some (uri_encode (code "Class") "Widget").
Proof.
  by destruct (build_knowledge_graph_registers
                 [bare_item "pkg.Widget.run" "member_function" "" (Some "Widget")]
                 "MyLibrary"
                 (bare_item "pkg.Widget.run" "member_function" "" (Some "Widget"))
                 ltac:(left)) as (_ & _ & _ & _ & H); apply H.
Defined.

(** *** What one record adds to the graph *)

Lemma entity_step_lookup library_node item st :
  tables_ok st →
  tables_ok (entity_step library_node item st)
  ∧ graph st ⊆ graph (entity_step library_node item st)
  ∧ (type item = "class" →
     class_map (entity_step library_node item st) !! _id item
     = Some (uri_encode (code "Class") (_id item)))
  ∧ (is_api_type (type item) = true →
     api_map (entity_step library_node item st) !! _id item
     = Some (uri_encode (code "API") (_id item))).
Proof.
  intros Hok.
  destruct (entity_step_grows item library_node st st (grows_refl item st Hok))
    as (Hok' & Hsub & _).
  destruct (entity_step_doms library_node item st) as (_ & _ & _ & Hc & Ha & _).
  split; [done|]. split; [done|].
  destruct Hok' as (_ & _ & T3 & T4). split.
  - intros Hty. pose proof (Hc Hty) as Hd. apply elem_of_dom in Hd as [n Hn].
    by destruct (T3 _ _ Hn) as [<- _].
  - intros Hty. pose proof (Ha Hty) as Hd. apply elem_of_dom in Hd as [n Hn].
    by destruct (T4 _ _ Hn) as [<- _].
Qed.

(** The graph after each of the last three steps of the loop body. *)
Lemma process_item_stages library_node item st :
  tables_ok st →
  let e := entity_step library_node item st in
  tables_ok e
  ∧ graph st ⊆ graph e
  ∧ graph e ⊆ graph (process_item library_node st item)
  ∧ graph (doc_step item e) ⊆ graph (process_item library_node st item)
  ∧ graph (ret_step item (doc_step item e)) ⊆ graph (process_item library_node st item).
Proof.
  intros Hok e.
  destruct (entity_step_lookup library_node item st Hok) as (Hoke & Hsube & _).
  destruct (doc_step_grows item e e (grows_refl item e Hoke)) as (Hokd & Hsubd & _).
  destruct (ret_step_grows item _ _ (grows_refl item _ Hokd)) as (Hokr & Hsubr & _).
  destruct (param_step_grows item _ _ (grows_refl item _ Hokr)) as (_ & Hsubp & _).
  unfold process_item. fold e. split_and!; try done.
  - etrans; [exact Hsubd|]. by etrans.
  - by etrans.
Qed.

Lemma uri_code_truthy cat k :
  PyStr.truthy (term_text (uri_encode (code cat) k)) = true.
Proof. by apply uri_encode_truthy. Qed.

Lemma doc_step_adds item e :
  PyStr.truthy (doc item) = true →
  let desc_node := uri_encode (code "Description") (_id item ++ "_desc")%string in
  (desc_node, RDF_type, code "Description") ∈ graph (doc_step item e)
  ∧ (desc_node, RDFS_label, xsd (PyStr.slice_to 200 (doc item))) ∈ graph (doc_step item e)
  ∧ (is_api_type (type item) = true →
     api_map e !! _id item = Some (uri_encode (code "API") (_id item)) →
     (uri_encode (code "API") (_id item), code "hasDescription", desc_node)
       ∈ graph (doc_step item e))
  ∧ (type item = "class" →
     class_map e !! _id item = Some (uri_encode (code "Class") (_id item)) →
     (uri_encode (code "Class") (_id item), code "hasDescription", desc_node)
       ∈ graph (doc_step item e)).
Proof.
  intros Hdoc desc_node. unfold doc_step. rewrite Hdoc. fold desc_node.
  split_and!.
  - unfold if_node. repeat case_match; simpl; set_solver.
  - unfold if_node. repeat case_match; simpl; set_solver.
  - intros Hty Hapi. rewrite Hty. unfold if_node. cbn [api_map add].
    rewrite Hapi, uri_code_truthy. simpl. set_solver.
  - intros Hty Hcls. rewrite Hty.
    replace (is_api_type "class") with false by done.
    replace (String.eqb "class" "class") with true by done.
    unfold if_node. cbn [class_map add].
    rewrite Hcls, uri_code_truthy. simpl. set_solver.
Qed.

Lemma ret_step_adds item e ret_doc :
  returns_doc item = Some ret_doc →
  PyStr.truthy ret_doc = true →
  is_api_type (type item) = true →
  api_map e !! _id item = Some (uri_encode (code "API") (_id item)) →
  let ret_node := uri_encode (code "ReturnValue") (_id item ++ "_ret")%string in
  (ret_node, RDF_type, code "ReturnValue") ∈ graph (ret_step item e)
  ∧ (ret_node, RDFS_label, xsd ret_doc) ∈ graph (ret_step item e)
  ∧ (uri_encode (code "API") (_id item), code "hasReturnValue", ret_node)
      ∈ graph (ret_step item e).
Proof.
  intros Hret Htr Hty Hapi ret_node. unfold ret_step.
  rewrite Hret, Htr, Hty. cbn [andb]. fold ret_node.
  unfold if_node. cbn [api_map add]. rewrite Hapi, uri_code_truthy.
  simpl. split_and!; set_solver.
Qed.

Definition param_name (entry : string * param_info) : string :=
  default entry.1 (p_name entry.2).

Definition param_triples (item : api_item) (entry : string * param_info) : list triple :=
  let param_node :=
    uri_encode (code "Parameter") (_id item ++ "_" ++ param_name entry)%string in
  [ (param_node, RDF_type, code "Parameter");
    (param_node, RDFS_label,
     xsd (param_name entry ++ " (optional="
            ++ str_of_bool (default false (p_is_optional entry.2)) ++ ")")%string);
    (uri_encode (code "API") (_id item), code "hasParameter", param_node) ].

Lemma param_step_adds item e entry t :
  is_api_type (type item) = true →
  api_map e !! _id item = Some (uri_encode (code "API") (_id item)) →
  entry ∈ parameters item →
  t ∈ param_triples item entry →
  t ∈ graph (param_step item e).
Proof.
  intros Hty Hapi Hentry Ht. unfold param_step.
  destruct (parameters item) as [|p ps] eqn:Hps; [by apply elem_of_nil in Hentry|].
  rewrite Hty. unfold if_node. rewrite Hapi, uri_code_truthy.
  revert Hentry. generalize (p :: ps). intros l. clear Hps Hapi. revert e.
  induction l as [|[k info] l IH]; intros e Hentry; [by apply elem_of_nil in Hentry|].
  simpl. apply elem_of_cons in Hentry as [->|Hentry]; [|by apply IH].
  match goal with |- t ∈ graph (foldl ?f ?st0 l) =>
    assert (∀ l' st', t ∈ graph st' → t ∈ graph (foldl f st' l')) as Hkeep
  end.
  { induction l' as [|[k' info'] l' IH']; intros st' Hx; [done|]. simpl. apply IH'.
    simpl. set_solver. }
  apply Hkeep. unfold param_triples, param_name in Ht. simpl in *.
  repeat (apply elem_of_cons in Ht as [->|Ht]; [set_solver|]).
  by apply elem_of_nil in Ht.
Qed.

Lemma slice_to_spec n s :
  (String.length (PyStr.slice_to n s) ≤ n)%nat
  ∧ String.prefix (PyStr.slice_to n s) s = true
  ∧ ((String.length s ≤ n)%nat → PyStr.slice_to n s = s).
Proof.
  unfold PyStr.slice_to. revert s. induction n as [|n IH]; intros s.
  - destruct s as [|c s]; simpl; split_and!; try done; try lia.
  - destruct s as [|c s]; simpl; [split_and!; try done; lia|].
    destruct (IH s) as (Hlen & Hpre & Hall). split_and!.
    + lia.
    + by destruct (Ascii.ascii_dec c c).
    + intros Hs. rewrite Hall; [done|lia].
Qed.

(** X17: a record with a non-empty doc gets a typed Description node
    whose label is the first 200 characters of the doc (the whole doc
    when it is not longer); the API node of a function or method record
    and the Class node of a class record are linked to it. *)
Theorem record_description data library_name item :
  item ∈ data →
  PyStr.truthy (doc item) = true →
  let desc_node := uri_encode (code "Description") (_id item ++ "_desc")%string in
  let g := graph (build_knowledge_graph data library_name) in
  (desc_node, RDF_type, code "Description") ∈ g
  ∧ (desc_node, RDFS_label, xsd (PyStr.slice_to 200 (doc item))) ∈ g
  ∧ (String.length (PyStr.slice_to 200 (doc item)) ≤ 200)%nat
  ∧ PyStr.startswith (doc item) (PyStr.slice_to 200 (doc item)) = true
  ∧ ((String.length (doc item) ≤ 200)%nat → PyStr.slice_to 200 (doc item) = doc item)
  ∧ (is_api_type (type item) = true →
     (uri_encode (code "API") (_id item), code "hasDescription", desc_node) ∈ g)
  ∧ (type item = "class" →
     (uri_encode (code "Class") (_id item), code "hasDescription", desc_node) ∈ g).
Proof.
  intros Hin Hdoc desc_node g.
  destruct (slice_to_spec 200 (doc item)) as (Hlen & Hpre & Hall).
  assert (∀ t, (∀ st, tables_ok st →
                 t ∈ graph (doc_step item (entity_step (library_node_of library_name) item st)))
               → t ∈ g) as Hkeep.
  { intros t Ht. apply (build_knowledge_graph_keeps data library_name item t Hin).
    intros st Hok.
    destruct (process_item_stages (library_node_of library_name) item st Hok)
      as (_ & _ & _ & Hsub & _).
    by apply Hsub, Ht. }
  split_and!; try done.
  - apply Hkeep. intros st _.
    exact (proj1 (doc_step_adds item _ Hdoc)).
  - apply Hkeep. intros st _.
    exact (proj1 (proj2 (doc_step_adds item _ Hdoc))).
  - intros Hty. apply Hkeep. intros st Hok.
    destruct (entity_step_lookup (library_node_of library_name) item st Hok)
      as (_ & _ & _ & Hapi).
    destruct (doc_step_adds item (entity_step (library_node_of library_name) item st) Hdoc)
      as (_ & _ & H & _).
    exact (H Hty (Hapi Hty)).
  - intros Hty. apply Hkeep. intros st Hok.
    destruct (entity_step_lookup (library_node_of library_name) item st Hok)
      as (_ & _ & Hcls & _).
    destruct (doc_step_adds item (entity_step (library_node_of library_name) item st) Hdoc)
      as (_ & _ & _ & H).
    exact (H Hty (Hcls Hty)).
Qed.

Lemma record_description_witness :
  (uri_encode (code "Class") "pkg.Widget", code "hasDescription",
   uri_encode (code "Description") "pkg.Widget_desc")
    ∈ graph (build_knowledge_graph
               [bare_item "pkg.Widget" "class" "A widget." None] "MyLibrary").
Proof.
  destruct (record_description
              [bare_item "pkg.Widget" "class" "A widget." None] "MyLibrary"
              (bare_item "pkg.Widget" "class" "A widget." None)
              ltac:(left) eq_refl) as (_ & _ & _ & _ & _ & _ & H).
  by apply H.
Defined.

(** X18: a function or method record with a non-empty return section
    gets a typed ReturnValue node labelled with that section and linked
    from its API node. *)
Theorem api_record_return_value data library_name item ret_doc :
  item ∈ data →
  is_api_type (type item) = true →
  returns_doc item = Some ret_doc →
  PyStr.truthy ret_doc = true →
  let ret_node := uri_encode (code "ReturnValue") (_id item ++ "_ret")%string in
  let g := graph (build_knowledge_graph data library_name) in
  (ret_node, RDF_type, code "ReturnValue") ∈ g
  ∧ (ret_node, RDFS_label, xsd ret_doc) ∈ g
  ∧ (uri_encode (code "API") (_id item), code "hasReturnValue", ret_node) ∈ g.
Proof.
  intros Hin Hty Hret Htr ret_node g.
  assert (∀ t, (∀ e, api_map e !! _id item = Some (uri_encode (code "API") (_id item)) →
                     t ∈ graph (ret_step item e))
               → t ∈ g) as Hkeep.
  { intros t Ht. apply (build_knowledge_graph_keeps data library_name item t Hin).
    intros st Hok.
    destruct (process_item_stages (library_node_of library_name) item st Hok)
      as (_ & _ & _ & _ & Hsub).
    destruct (entity_step_lookup (library_node_of library_name) item st Hok)
      as (_ & _ & _ & Hapi).
    apply Hsub, Ht.
    destruct (doc_step_same_maps item (entity_step (library_node_of library_name) item st))
      as (_ & _ & _ & ->).
    by apply Hapi. }
  split_and!; apply Hkeep; intros e He;
    destruct (ret_step_adds item e ret_doc Hret Htr Hty He) as (H1 & H2 & H3); assumption.
Qed.

Definition returning_item : api_item :=
  {| _id := "pkg.add"; doc := "Adds. :return: the sum"; is_deprecated := false;
     source_code := None; signature := "(a, b=1)";
     parameters := [("a", ParamInfo None None (Some false));
                    ("b", ParamInfo None None (Some true))];
     returns_doc := Some "Adds. :return: the sum"; raise_doc := None;
     type := "function"; class := None; from_init := false;
     module := Some "pkg"; file := Some "pkg/__init__.py" |}.

Lemma api_record_return_value_witness :
  (uri_encode (code "API") "pkg.add", code "hasReturnValue",
   uri_encode (code "ReturnValue") "pkg.add_ret")
    ∈ graph (build_knowledge_graph [returning_item] "MyLibrary").
Proof.
  by destruct (api_record_return_value [returning_item] "MyLibrary" returning_item
                 "Adds. :return: the sum" ltac:(left) eq_refl eq_refl eq_refl)
    as (_ & _ & H).
Defined.

(** X19: each entry of the parameter dictionary of a function or method
    record gets a typed Parameter node, named after the identifier of the
    record and the parameter, labelled with the parameter name and its
    optional flag, and linked from the API node of the record. *)
Theorem api_record_parameters data library_name item entry :
  item ∈ data →
  is_api_type (type item) = true →
  entry ∈ parameters item →
  let real_param_name := default entry.1 (p_name entry.2) in
  let param_node :=
    uri_encode (code "Parameter") (_id item ++ "_" ++ real_param_name)%string in
  let g := graph (build_knowledge_graph data library_name) in
  (param_node, RDF_type, code "Parameter") ∈ g
  ∧ (param_node, RDFS_label,
     xsd (real_param_name ++ " (optional="
            ++ str_of_bool (default false (p_is_optional entry.2)) ++ ")")%string) ∈ g
  ∧ (uri_encode (code "API") (_id item), code "hasParameter", param_node) ∈ g.
Proof.
  intros Hin Hty Hentry real_param_name param_node g.
  assert (∀ t, t ∈ param_triples item entry → t ∈ g) as Hkeep.
  { intros t Ht. apply (build_knowledge_graph_keeps data library_name item t Hin).
    intros st Hok. unfold process_item.
    destruct (entity_step_lookup (library_node_of library_name) item st Hok)
      as (_ & _ & _ & Hapi).
    apply param_step_adds with entry; try done.
    destruct (ret_step_same_maps item
                (doc_step item (entity_step (library_node_of library_name) item st)))
      as (_ & _ & _ & ->).
    destruct (doc_step_same_maps item (entity_step (library_node_of library_name) item st))
      as (_ & _ & _ & ->).
    by apply Hapi. }
  split_and!; apply Hkeep; unfold param_triples, param_name;
    [left|right; left|right; right; left].
Qed.

Lemma api_record_parameters_witness :
  (uri_encode (code "Parameter") "pkg.add_b", RDFS_label, xsd "b (optional=True)")
    ∈ graph (build_knowledge_graph [returning_item] "MyLibrary").
Proof.
  by destruct (api_record_parameters [returning_item] "MyLibrary" returning_item
                 ("b", ParamInfo None None (Some true))
                 ltac:(left) eq_refl ltac:(right; left)) as (_ & H & _).
Defined.

(** *** Edges between the entities of one record *)

Lemma entity_step_module_edge library_node item st m :
  tables_ok st →
  module item = Some m →
  PyStr.truthy m = true →
  (uri_encode (code "Module") m, RDF_type, code "Module")
    ∈ graph (entity_step library_node item st)
  ∧ (type item = "class" →
     (uri_encode (code "Module") m, code "include", uri_encode (code "Class") (_id item))
       ∈ graph (entity_step library_node item st))
  ∧ (is_api_type (type item) = true →
     String.eqb (type item) "member_function" && PyStr.truthy_opt (class item) = false →
     (uri_encode (code "Module") m, code "hasMethod", uri_encode (code "API") (_id item))
       ∈ graph (entity_step library_node item st)).
Proof.
  intros Hok Hmod Htr. unfold entity_step.
  pose proof (script_step_grows item library_node (file item) st st
                (grows_refl item st Hok)) as Hs.
  destruct (script_step library_node (file item) st) as [st1 script_node]. simpl in Hs.
  rewrite Hmod, Htr.
  destruct (module_step_grows item m script_node st st1 Hs) as (Hg & Hsnd & Hin).
  destruct (module_step m script_node st1) as [st2 mod_node]. simpl in Hg, Hsnd, Hin.
  subst mod_node. apply grows_tables in Hg.
  split_and!.
  - destruct (String.eqb (type item) "class").
    { destruct (class_step_grows item script_node
                  (Some (uri_encode (code "Module") m)) st2 st2 (grows_refl item _ Hg))
        as (_ & Hsub & _). by apply Hsub. }
    destruct (is_api_type (type item)); [|done].
    destruct (api_step_grows item (Some (uri_encode (code "Module") m)) st2 st2
                (grows_refl item _ Hg)) as (_ & Hsub & _). by apply Hsub.
  - intros Hty. rewrite Hty.
    replace (String.eqb "class" "class") with true by done.
    unfold class_step. rewrite Hmod. cbn [PyStr.truthy_opt]. rewrite Htr.
    cbn [negb]. unfold if_node. rewrite uri_code_truthy. simpl. set_solver.
  - intros Hty Hcond.
    assert (String.eqb (type item) "class" = false) as ->.
    { unfold is_api_type in Hty.
      destruct (String.eqb_spec (type item) "class") as [Heq|]; [|done].
      rewrite Heq in Hty. done. }
    rewrite Hty. unfold api_step. rewrite Hcond.
    unfold if_node. rewrite uri_code_truthy. simpl. set_solver.
Qed.

(** X20: a record with a non-empty module gets the typed Module node of
    that module; a class record is linked from it by [include], and a
    function record, or a method record without a [class] field, by
    [hasMethod]. *)
Theorem record_module_edges data library_name item m :
  item ∈ data →
  module item = Some m →
  PyStr.truthy m = true →
  let g := graph (build_knowledge_graph data library_name) in
  (uri_encode (code "Module") m, RDF_type, code "Module") ∈ g
  ∧ (type item = "class" →
     (uri_encode (code "Module") m, code "include", uri_encode (code "Class") (_id item))
       ∈ g)
  ∧ (is_api_type (type item) = true →
     (type item = "member_function" → PyStr.truthy_opt (class item) = false) →
     (uri_encode (code "Module") m, code "hasMethod", uri_encode (code "API") (_id item))
       ∈ g).
Proof.
  intros Hin Hmod Htr g.
  assert (∀ t, (∀ st, tables_ok st →
                 t ∈ graph (entity_step (library_node_of library_name) item st))
               → t ∈ g) as Hkeep.
  { intros t Ht. apply (build_knowledge_graph_keeps data library_name item t Hin).
    intros st Hok.
    destruct (process_item_stages (library_node_of library_name) item st Hok)
      as (_ & _ & Hsub & _).
    by apply Hsub, Ht. }
  split_and!.
  - apply Hkeep. intros st Hok.
    exact (proj1 (entity_step_module_edge _ item st m Hok Hmod Htr)).
  - intros Hty. apply Hkeep. intros st Hok.
    destruct (entity_step_module_edge (library_node_of library_name) item st m Hok Hmod Htr)
      as (_ & H & _).
    exact (H Hty).
  - intros Hty Hcls. apply Hkeep. intros st Hok.
    destruct (entity_step_module_edge (library_node_of library_name) item st m Hok Hmod Htr)
      as (_ & _ & H).
    apply H; [done|].
    destruct (String.eqb_spec (type item) "member_function") as [Hmf|]; [|done].
    by rewrite (Hcls Hmf).
Qed.

Lemma record_module_edges_witness :
  (uri_encode (code "Module") "pkg", code "hasMethod", uri_encode (code "API") "pkg.add")
    ∈ graph (build_knowledge_graph [returning_item] "MyLibrary").
Proof.
  destruct (record_module_edges [returning_item] "MyLibrary" returning_item "pkg"
              ltac:(left) eq_refl eq_refl) as (_ & _ & H).
  apply H; [reflexivity|discriminate].
Defined.

(** X21: a method record with a non-empty [class] field gets the typed
    Class node made from that field, which is the bare class name in the
    extractor's output, and [hasMethod] from that node to its API node. *)
Theorem method_record_owner data library_name item :
  item ∈ data →
  type item = "member_function" →
  PyStr.truthy_opt (class item) = true →
  let owner := uri_encode (code "Class") (default EmptyString (class item)) in
  (owner, RDF_type, code "Class") ∈ graph (build_knowledge_graph data library_name)
  ∧ (owner, code "hasMethod", uri_encode (code "API") (_id item))
      ∈ graph (build_knowledge_graph data library_name).
Proof.
  intros Hin Hty Hcls owner.
  split; apply (build_knowledge_graph_keeps data library_name item _ Hin);
    intros st Hok;
    destruct (process_item_method_owner (library_node_of library_name) item st
                Hok Hty Hcls) as [H1 H2]; assumption.
Qed.

Lemma method_record_owner_witness :
  (uri_encode (code "Class") "Widget", code "hasMethod",
   uri_encode (code "API") "pkg.Widget.run")
    ∈ graph (build_knowledge_graph
               [bare_item "pkg.Widget.run" "member_function" "" (Some "Widget")]
               "MyLibrary").
Proof.
  by destruct (method_record_owner
                 [bare_item "pkg.Widget.run" "member_function" "" (Some "Widget")]
                 "MyLibrary"
                 (bare_item "pkg.Widget.run" "member_function" "" (Some "Widget"))
                 ltac:(left) eq_refl eq_refl) as (_ & H).
Defined.

(** *** Labels and the Script edges *)

Definition labelled (m : gmap string term) (g : gset triple) : Prop :=
  ∀ k n, m !! k = Some n → (n, RDFS_label, xsd k) ∈ g.

Definition linked (library_node : term) (st : kg_state) : Prop :=
  (labelled (script_map st) (graph st)
   ∧ ∀ k n, script_map st !! k = Some n →
            (library_node, code "hasScript", n) ∈ graph st)
  ∧ labelled (module_map st) (graph st)
  ∧ labelled (class_map st) (graph st)
  ∧ labelled (api_map st) (graph st).

Lemma linked_mono library_node st st' :
  same_maps st st' → graph st ⊆ graph st' → linked library_node st → linked library_node st'.
Proof.
  intros (E1 & E2 & E3 & E4) Hsub ((H1 & H1') & H2 & H3 & H4).
  unfold linked, labelled. rewrite E1, E2, E3, E4.
  split_and!; intros k n Hk; apply Hsub; eauto.
Qed.

Lemma linked_add library_node t st : linked library_node st → linked library_node (add t st).
Proof. apply linked_mono; [apply same_maps_add|]. simpl. set_solver. Qed.

Lemma labelled_insert m g k n :
  (n, RDFS_label, xsd k) ∈ g → labelled m g → labelled (<[k := n]> m) g.
Proof.
  intros Hn Hm k' n' Hk'. apply lookup_insert_Some in Hk' as [[<- <-]|[_ Hk']]; [done|].
  by eapply Hm.
Qed.

Lemma linked_set_script library_node k n st :
  (n, RDFS_label, xsd k) ∈ graph st →
  (library_node, code "hasScript", n) ∈ graph st →
  linked library_node st → linked library_node (set_script k n st).
Proof.
  intros Hl He ((H1 & H1') & H2 & H3 & H4). split_and!; simpl; try done.
  - by apply labelled_insert.
  - intros k' n' Hk'. apply lookup_insert_Some in Hk' as [[<- <-]|[_ Hk']]; [done|].
    by eapply H1'.
Qed.

Lemma linked_set_module library_node k n st :
  (n, RDFS_label, xsd k) ∈ graph st →
  linked library_node st → linked library_node (set_module k n st).
Proof.
  intros Hl ((H1 & H1') & H2 & H3 & H4). split_and!; simpl; try done.
  by apply labelled_insert.
Qed.

Lemma linked_set_class library_node k n st :
  (n, RDFS_label, xsd k) ∈ graph st →
  linked library_node st → linked library_node (set_class k n st).
Proof.
  intros Hl ((H1 & H1') & H2 & H3 & H4). split_and!; simpl; try done.
  by apply labelled_insert.
Qed.

Lemma linked_set_api library_node k n st :
  (n, RDFS_label, xsd k) ∈ graph st →
  linked library_node st → linked library_node (set_api k n st).
Proof.
  intros Hl ((H1 & H1') & H2 & H3 & H4). split_and!; simpl; try done.
  by apply labelled_insert.
Qed.

Ltac link :=
  repeat first
    [ assumption
    | apply linked_add
    | apply linked_set_script; [simpl; set_solver|simpl; set_solver|]
    | apply linked_set_module; [simpl; set_solver|]
    | apply linked_set_class; [simpl; set_solver|]
    | apply linked_set_api; [simpl; set_solver|] ].

Lemma script_step_linked library_node file_str st :
  linked library_node st → linked library_node (script_step library_node file_str st).1.
Proof.
  intros H. unfold script_step. repeat case_match; simpl; try done. link.
Qed.

Lemma module_step_linked library_node module_str script_node st :
  linked library_node st →
  linked library_node (module_step module_str script_node st).1.
Proof.
  intros H. unfold module_step, if_node. repeat case_match; simpl; try done; link.
Qed.

Lemma class_step_linked library_node item script_node mod_node st :
  linked library_node st →
  linked library_node (class_step item script_node mod_node st).
Proof.
  intros H. unfold class_step.
  destruct (negb _).
  - match goal with |- context [module_step ?m ?s ?t] =>
      pose proof (module_step_linked library_node m s t H) as H';
      destruct (module_step m s t) as [st2 mn] end.
    simpl in H'. unfold if_node. repeat case_match; link.
  - unfold if_node. repeat case_match; link.
Qed.

Lemma api_step_linked library_node item mod_node st :
  linked library_node st → linked library_node (api_step item mod_node st).
Proof.
  intros H. unfold api_step, if_node. repeat case_match; link.
Qed.

Lemma entity_step_linked library_node item st :
  linked library_node st → linked library_node (entity_step library_node item st).
Proof.
  intros H. unfold entity_step.
  pose proof (script_step_linked library_node (file item) st H) as H1.
  destruct (script_step library_node (file item) st) as [st1 script_node]. simpl in H1.
  set (step2 := match module item with
                | Some m => if PyStr.truthy m then module_step m script_node st1
                            else (st1, None)
                | None => (st1, None)
                end).
  assert (linked library_node step2.1) as H2.
  { subst step2. destruct (module item) as [m|]; [destruct (PyStr.truthy m)|]; try done.
    by apply module_step_linked. }
  destruct step2 as [st2 mod_node]. simpl in H2.
  destruct (String.eqb _ _); [by apply class_step_linked|].
  destruct (is_api_type _); [by apply api_step_linked|done].
Qed.

Lemma process_item_linked library_node item st :
  tables_ok st → linked library_node st →
  linked library_node (process_item library_node st item).
Proof.
  intros Hok H.
  destruct (process_item_stages library_node item st Hok) as (_ & _ & Hsub & _).
  eapply linked_mono; [apply process_item_same_maps|exact Hsub|].
  by apply entity_step_linked.
Qed.

(** X22: after a run, every node of the four tables carries its key as
    its label, and every Script node is linked from the Library node by
    [hasScript]. *)
Theorem build_knowledge_graph_labels data library_name :
  Forall (λ m : gmap string term,
            ∀ k n, m !! k = Some n →
                   (n, RDFS_label, xsd k)
                     ∈ graph (build_knowledge_graph data library_name))
         [ script_map (build_knowledge_graph data library_name);
           module_map (build_knowledge_graph data library_name);
           class_map (build_knowledge_graph data library_name);
           api_map (build_knowledge_graph data library_name) ]
  ∧ ∀ k n, script_map (build_knowledge_graph data library_name) !! k = Some n →
           (library_node_of library_name, code "hasScript", n)
             ∈ graph (build_knowledge_graph data library_name).
Proof.
  assert (linked (library_node_of library_name)
                 (build_knowledge_graph data library_name)) as ((H1 & H1') & H2 & H3 & H4).
  { unfold build_knowledge_graph.
    assert (linked (library_node_of library_name) (initial_state library_name)) as Hinit.
    { apply linked_mono with (KgState ∅ ∅ ∅ ∅ ∅).
      - unfold initial_state.
        eapply same_maps_trans; [|apply same_maps_add].
        eapply same_maps_trans; [|apply same_maps_add].
        apply foldl_add_same_maps.
      - intros t Ht. exfalso. revert Ht. apply not_elem_of_empty.
      - unfold linked, labelled. cbn [script_map module_map class_map api_map].
        split_and!; intros k n Hk; by rewrite lookup_empty in Hk. }
    revert Hinit.
    generalize (initial_state library_name) (proj1 (initial_state_ok library_name)).
    induction data as [|x data IH]; intros st Hok Hl; [done|].
    simpl. apply IH.
    - by destruct (process_item_grows x (library_node_of library_name) st Hok).
    - by apply process_item_linked. }
  split; [|done].
  apply List.Forall_cons; [exact H1|].
  apply List.Forall_cons; [exact H2|].
  apply List.Forall_cons; [exact H3|].
  apply List.Forall_cons; [exact H4|].
  apply List.Forall_nil.
Qed.

End BuildKgMore.

(** * Further properties of the write into the property-graph store *)

Module StoreMore.

Import ExtractPackageApi BuildKg BuildKgFacts StoreFacts.

(** *** Nothing is deleted *)

Definition survives (n n' : neo_node) : Prop :=
  n_label n' = n_label n
  ∧ n_props n' !! "name" = n_props n !! "name"
  ∧ dom (n_props n) ⊆ dom (n_props n').

Definition nodes_survive (st st' : store) : Prop :=
  ∀ j n, nodes st !! j = Some n → ∃ n', nodes st' !! j = Some n' ∧ survives n n'.

Lemma nodes_survive_refl st : nodes_survive st st.
Proof. intros j n Hn. exists n. by repeat split. Qed.

Lemma nodes_survive_trans st1 st2 st3 :
  nodes_survive st1 st2 → nodes_survive st2 st3 → nodes_survive st1 st3.
Proof.
  intros H12 H23 j n Hn.
  destruct (H12 j n Hn) as (n2 & Hn2 & L2 & N2 & D2).
  destruct (H23 j n2 Hn2) as (n3 & Hn3 & L3 & N3 & D3).
  exists n3. split; [done|]. split_and!; [congruence|congruence|by etrans].
Qed.

Lemma merge_node_survives label name extra st :
  nodes_survive st (merge_node label name extra st).2.
Proof.
  intros j n Hn.
  destruct (decide (mkey label name ∈ keys st)) as [Hin|Hnew].
  - destruct (merge_node_found label name extra st Hin) as (i & _ & ->). simpl.
    exists (upd label name (named name extra) n). split.
    + by rewrite list_lookup_fmap, Hn.
    + pose proof (key_of_upd label name extra n) as Hk.
      unfold key_of in Hk. injection Hk as Hl Hname.
      split_and!; [done|done|].
      unfold upd. destruct (decide _); [|done]. simpl. rewrite dom_union_L. set_solver.
  - rewrite (merge_node_new label name extra st Hnew). simpl.
    exists n. split; [by apply lookup_app_l_Some|by repeat split].
Qed.

Lemma exec_survives o st : nodes_survive st (exec o st).
Proof.
  destruct o as [label name extra|la na ty lb nb]; simpl.
  - apply merge_node_survives.
  - pose proof (merge_node_survives la na ∅ st) as H1.
    destruct (merge_node la na ∅ st) as [a st1]. simpl in H1.
    pose proof (merge_node_survives lb nb ∅ st1) as H2.
    destruct (merge_node lb nb ∅ st1) as [b st2]. simpl in *.
    by eapply nodes_survive_trans.
Qed.

Lemma run_survives ops st : nodes_survive st (run st ops).
Proof.
  revert st. induction ops as [|o ops IH]; intros st; simpl; [apply nodes_survive_refl|].
  eapply nodes_survive_trans; [apply (exec_survives o)|apply IH].
Qed.

(** X23: a write deletes nothing from the store it is connected to:
    every node keeps its identity, its label, its [name] and all its
    property keys, and every relationship stays. *)
Theorem write_to_neo4j_py2neo_keeps_store library_name data_list st :
  (∀ j n, nodes st !! j = Some n →
     ∃ n', nodes (write_to_neo4j_py2neo library_name data_list st) !! j = Some n'
           ∧ n_label n' = n_label n
           ∧ n_props n' !! "name" = n_props n !! "name"
           ∧ dom (n_props n) ⊆ dom (n_props n'))
  ∧ rels st ⊆ rels (write_to_neo4j_py2neo library_name data_list st).
Proof.
  rewrite write_to_neo4j_py2neo_run. split.
  - apply run_survives.
  - apply run_rels_incl.
Qed.

(** X24: a write makes no second node for a label and name that a node
    of the store already has: when the pairs of label and name are
    distinct before the write, they are distinct after it. *)
Theorem write_to_neo4j_py2neo_no_duplicates library_name data_list st :
  NoDup ((λ n, (n_label n, n_props n !! "name")) <$> nodes st) →
  NoDup ((λ n, (n_label n, n_props n !! "name"))
           <$> nodes (write_to_neo4j_py2neo library_name data_list st)).
Proof.
  rewrite write_to_neo4j_py2neo_run. apply NoDup_keys_run.
Qed.

Lemma write_to_neo4j_py2neo_no_duplicates_witness :
  NoDup ((λ n, (n_label n, n_props n !! "name"))
           <$> nodes (write_to_neo4j_py2neo "MyLibrary"
                        [bare_item "pkg.f" "function" "Adds." None;
                         bare_item "pkg.f" "function" "Adds." None] empty_store)).
Proof.
  apply write_to_neo4j_py2neo_no_duplicates. simpl. apply NoDup_nil_2.
Defined.

(** *** Where the nodes of the store come from *)

Definition op_keys (o : op) : list (string * option pval) :=
  match o with
  | MNode label name _ => [mkey label name]
  | MRel la na _ lb nb => [mkey la na; mkey lb nb]
  end.

Lemma keys_merge_node_iff label name extra st k :
  k ∈ keys (merge_node label name extra st).2 ↔ k ∈ keys st ∨ k = mkey label name.
Proof.
  rewrite keys_merge_node. destruct (decide _) as [Hin|Hnew].
  - split; [by left|]. intros [?| ->]; done.
  - rewrite elem_of_app, list_elem_of_singleton. done.
Qed.

Lemma keys_exec_iff o st k : k ∈ keys (exec o st) ↔ k ∈ keys st ∨ k ∈ op_keys o.
Proof.
  destruct o as [label name extra|la na ty lb nb]; simpl.
  - rewrite keys_merge_node_iff, list_elem_of_singleton. done.
  - pose proof (keys_merge_node_iff la na ∅ st k) as H1.
    destruct (merge_node la na ∅ st) as [a st1]. simpl in H1.
    pose proof (keys_merge_node_iff lb nb ∅ st1 k) as H2.
    destruct (merge_node lb nb ∅ st1) as [b st2]. simpl in *.
    change (keys (merge_rel a ty b st2)) with (keys st2).
    rewrite H2, H1, !elem_of_cons, elem_of_nil. tauto.
Qed.

Lemma keys_run_iff ops st k :
  k ∈ keys (run st ops) ↔ k ∈ keys st ∨ ∃ o, o ∈ ops ∧ k ∈ op_keys o.
Proof.
  revert st. induction ops as [|o ops IH]; intros st; simpl.
  - split; [by left|]. intros [?|(o & Ho & _)]; [done|]. by apply elem_of_nil in Ho.
  - rewrite IH, keys_exec_iff. split.
    + intros [[?|?]|(o' & Ho' & Hk)]; [by left|right; exists o|right; exists o'].
      * split; [left|done].
      * split; [by right|done].
    + intros [?|(o' & Ho' & Hk)]; [by left; left|].
      apply elem_of_cons in Ho' as [->|Ho']; [by left; right|].
      right. by exists o'.
Qed.

Lemma param_ops_keys item o k :
  o ∈ param_ops item → k ∈ op_keys o → k.1 = "Parameter" ∨ k.1 = "API".
Proof.
  unfold param_ops. intros Ho Hk.
  apply list_elem_of_In, in_flat_map in Ho as ([p_key p_info] & _ & Ho).
  apply list_elem_of_In in Ho.
  repeat (apply elem_of_cons in Ho as [->|Ho]);
    try (by apply elem_of_nil in Ho); simpl in Hk;
    repeat (apply elem_of_cons in Hk as [->|Hk]);
    try (by apply elem_of_nil in Hk); auto.
Qed.

Lemma truthy_key_Some label o l s :
  truthy_key label o = Some (l, s) → l = label ∧ o = Some s ∧ PyStr.truthy s = true.
Proof.
  unfold truthy_key. destruct o as [x|]; [|done].
  destruct (PyStr.truthy x) eqn:Hx; [|done]. by intros [= <- <-].
Qed.

Ltac mem H :=
  first
    [ apply elem_of_nil in H; destruct H
    | apply elem_of_app in H as [H|H]; mem H
    | apply elem_of_cons in H as [H|H]; [|mem H]
    | idtac ].

(** The operations of one record that touch a Description node. *)
Lemma item_ops_description library_name item o x :
  o ∈ item_ops library_name item →
  mkey "Description" x ∈ op_keys o →
  x = (_id item ++ "_desc")%string
  ∧ PyStr.truthy (doc item) = true
  ∧ (type item = "class" ∨ is_api_type (type item) = true).
Proof.
  intros Ho Hk. unfold item_ops in Ho.
  assert (∀ k, o ∈ param_ops item → k ∈ op_keys o → k.1 ≠ "Description") as Hparam.
  { intros k Hp Hk'. by destruct (param_ops_keys item o k Hp Hk') as [-> | ->]. }
  destruct (truthy_key "Script" (file item)) as [[ls f]|] eqn:Hsk;
    [apply truthy_key_Some in Hsk as (-> & _ & _)|];
    (destruct (truthy_key "Module" (module item)) as [[lm m]|] eqn:Hmk;
     [apply truthy_key_Some in Hmk as (-> & _ & _)|]);
    destruct (String.eqb_spec (type item) "class") as [Hty|Hty];
    destruct (is_api_type (type item)) eqn:Hapi;
    unfold class_ops, api_ops, doc_ops, ret_ops, rel_from in Ho;
    destruct (PyStr.truthy (doc item)) eqn:Hdoc;
    repeat case_match; mem Ho;
    try (by (exfalso; eapply Hparam; eauto));
    subst o; simpl in Hk; mem Hk; unfold mkey in Hk;
    simplify_eq; auto.
Qed.

(** The operations that one record is sure to run. *)
Lemma item_ops_doc library_name item :
  PyStr.truthy (doc item) = true →
  (type item = "class" →
   MNode "Description" (_id item ++ "_desc")%string {[ "content" := PStr (doc item) ]}
     ∈ item_ops library_name item
   ∧ MRel "Class" (_id item) "HAS_DESCRIPTION" "Description" (_id item ++ "_desc")%string
       ∈ item_ops library_name item)
  ∧ (is_api_type (type item) = true →
     MNode "Description" (_id item ++ "_desc")%string {[ "content" := PStr (doc item) ]}
       ∈ item_ops library_name item
     ∧ MRel "API" (_id item) "HAS_DESCRIPTION" "Description" (_id item ++ "_desc")%string
         ∈ item_ops library_name item).
Proof.
  intros Hdoc. split; intros Hty; unfold item_ops.
  - rewrite Hty. replace (String.eqb "class" "class") with true by done.
    unfold class_ops, doc_ops. rewrite Hdoc.
    split; do 5 (apply elem_of_app; right); [left|right; left].
  - assert (String.eqb (type item) "class" = false) as ->.
    { unfold is_api_type in Hty.
      destruct (String.eqb_spec (type item) "class") as [Heq|]; [|done].
      rewrite Heq in Hty. done. }
    rewrite Hty. unfold api_ops, doc_ops. rewrite Hdoc.
    split; do 4 (apply elem_of_app; right); apply elem_of_app; left; [left|right; left].
Qed.

Lemma program_ops_item library_name data item o :
  item ∈ data → o ∈ item_ops library_name item → o ∈ program_ops library_name data.
Proof.
  intros Hin Ho. unfold program_ops. right.
  apply list_elem_of_In, in_flat_map. exists item.
  split; by apply list_elem_of_In.
Qed.

(** X25: in a store written from empty, the Description nodes are those
    of the class, function and method records with a non-empty doc; a
    record of another kind gets none, whatever its doc. *)
Theorem store_description_nodes library_name data_list x :
  (∃ n, n ∈ nodes (write_to_neo4j_py2neo library_name data_list empty_store)
        ∧ has_key "Description" x n)
  ↔ ∃ item, item ∈ data_list
            ∧ x = (_id item ++ "_desc")%string
            ∧ PyStr.truthy (doc item) = true
            ∧ (type item = "class" ∨ is_api_type (type item) = true).
Proof.
  rewrite write_to_neo4j_py2neo_run.
  transitivity (mkey "Description" x ∈ keys (run empty_store (program_ops library_name data_list))).
  { unfold keys. rewrite list_elem_of_fmap. split.
    - intros (n & Hn & Hk). exists n. split; [|done]. symmetry. by apply has_key_key_of.
    - intros (n & Hk & Hn). exists n. split; [done|]. by apply has_key_key_of. }
  rewrite keys_run_iff. split.
  - intros [Hk|(o & Ho & Hk)]; [by apply elem_of_nil in Hk|].
    unfold program_ops in Ho. apply elem_of_cons in Ho as [->|Ho].
    { simpl in Hk. apply list_elem_of_singleton in Hk. discriminate. }
    apply list_elem_of_In, in_flat_map in Ho as (item & Hitem & Ho).
    apply list_elem_of_In in Hitem, Ho.
    exists item. split; [done|]. by eapply item_ops_description.
  - intros (item & Hitem & -> & Hdoc & Hkind). right.
    destruct (item_ops_doc library_name item Hdoc) as [Hc Ha].
    destruct Hkind as [Hty|Hty]; [destruct (Hc Hty) as [Hn _]|destruct (Ha Hty) as [Hn _]];
      (eexists; split; [by eapply program_ops_item|left]).
Qed.

Definition related_in (st : store) (la na ty lb nb : string) : Prop :=
  ∃ i j a b,
    nodes st !! i = Some a ∧ has_key la na a
    ∧ nodes st !! j = Some b ∧ has_key lb nb b
    ∧ (i, ty, j) ∈ rels st.

Lemma run_related_in ops st la na ty lb nb :
  MRel la na ty lb nb ∈ ops → related_in (run st ops) la na ty lb nb.
Proof.
  intros Hin. destruct (run_rel_elem ops st la na ty lb nb Hin) as (i & j & Hi & Hj & Hr).
  destruct (bound_node _ _ _ _ Hi) as (a & Ha & Hak).
  destruct (bound_node _ _ _ _ Hj) as (b & Hb & Hbk).
  by exists i, j, a, b.
Qed.

Lemma item_ops_script library_name item f :
  file item = Some f → PyStr.truthy f = true →
  MRel "Library" library_name "HAS_SCRIPT" "Script" f ∈ item_ops library_name item.
Proof.
  intros Hfile Hf. unfold item_ops, truthy_key. rewrite Hfile, Hf.
  apply elem_of_app. left. right. left.
Qed.

Lemma item_ops_method library_name item :
  type item = "member_function" → PyStr.truthy_opt (class item) = true →
  MRel "Class" (default EmptyString (class item)) "HAS_METHOD" "API" (_id item)
    ∈ item_ops library_name item.
Proof.
  intros Hty Hcls. unfold item_ops. rewrite Hty.
  replace (String.eqb "member_function" "class") with false by done.
  replace (is_api_type "member_function") with true by done.
  do 2 (apply elem_of_app; right).
  unfold api_ops. rewrite Hty, Hcls.
  replace (String.eqb "member_function" "member_function") with true by done.
  apply elem_of_app; right. apply elem_of_app; left. right. left.
Qed.

Lemma item_ops_return library_name item ret_doc :
  is_api_type (type item) = true →
  returns_doc item = Some ret_doc → PyStr.truthy ret_doc = true →
  MRel "API" (_id item) "HAS_RETURN_VALUE" "ReturnValue" (_id item ++ "_ret")%string
    ∈ item_ops library_name item.
Proof.
  intros Hty Hret Htr. unfold item_ops.
  assert (String.eqb (type item) "class" = false) as ->.
  { unfold is_api_type in Hty.
    destruct (String.eqb_spec (type item) "class") as [Heq|]; [|done].
    rewrite Heq in Hty. done. }
  rewrite Hty. do 2 (apply elem_of_app; right).
  unfold api_ops, ret_ops. rewrite Hret, Htr.
  do 3 (apply elem_of_app; right). apply elem_of_app; left. right. left.
Qed.

(** X26: the relationships that the write is sure to leave for a record,
    between nodes found by label and name: [HAS_SCRIPT] from the Library
    node, [HAS_METHOD] from the Class node named by the [class] field of
    a method, [HAS_DESCRIPTION] from the Class or API node of the record,
    and [HAS_RETURN_VALUE] from its API node. *)
Theorem store_record_relationships library_name data_list item st :
  item ∈ data_list →
  let st' := write_to_neo4j_py2neo library_name data_list st in
  (∀ f, file item = Some f → PyStr.truthy f = true →
        related_in st' "Library" library_name "HAS_SCRIPT" "Script" f)
  ∧ (type item = "member_function" → PyStr.truthy_opt (class item) = true →
     related_in st' "Class" (default EmptyString (class item)) "HAS_METHOD"
                "API" (_id item))
  ∧ (PyStr.truthy (doc item) = true → type item = "class" →
     related_in st' "Class" (_id item) "HAS_DESCRIPTION"
                "Description" (_id item ++ "_desc")%string)
  ∧ (PyStr.truthy (doc item) = true → is_api_type (type item) = true →
     related_in st' "API" (_id item) "HAS_DESCRIPTION"
                "Description" (_id item ++ "_desc")%string)
  ∧ (∀ ret_doc, is_api_type (type item) = true →
        returns_doc item = Some ret_doc → PyStr.truthy ret_doc = true →
        related_in st' "API" (_id item) "HAS_RETURN_VALUE"
                   "ReturnValue" (_id item ++ "_ret")%string).
Proof.
  intros Hin st'. subst st'. rewrite write_to_neo4j_py2neo_run.
  split_and!.
  - intros f Hfile Hf. apply run_related_in, (program_ops_item _ _ item); [done|].
    by apply item_ops_script.
  - intros Hty Hcls. apply run_related_in, (program_ops_item _ _ item); [done|].
    by apply item_ops_method.
  - intros Hdoc Hty. apply run_related_in, (program_ops_item _ _ item); [done|].
    by destruct (item_ops_doc library_name item Hdoc) as [[_ H] _].
  - intros Hdoc Hty. apply run_related_in, (program_ops_item _ _ item); [done|].
    by destruct (item_ops_doc library_name item Hdoc) as [_ [_ H]].
  - intros ret_doc Hty Hret Htr.
    apply run_related_in, (program_ops_item _ _ item); [done|].
    by eapply item_ops_return.
Qed.

Lemma store_record_relationships_witness :
  related_in (write_to_neo4j_py2neo "MyLibrary"
                [bare_item "pkg.Widget.run" "member_function" "" (Some "Widget")]
                empty_store)
             "Class" "Widget" "HAS_METHOD" "API" "pkg.Widget.run".
Proof.
  destruct (store_record_relationships "MyLibrary"
              [bare_item "pkg.Widget.run" "member_function" "" (Some "Widget")]
              (bare_item "pkg.Widget.run" "member_function" "" (Some "Widget"))
              empty_store ltac:(left)) as (_ & H & _).
  by apply H.
Defined.

End StoreMore.

(** * The fallback module on the records of a walk *)

Module FallbackOnWalk.

Import ExtractPackageApi BuildKg WalkerFacts BuildKgFacts StoreFacts FallbackFacts StoreMore.

(** A package [flask] with a class [Flask] that carries no module
    attribution. *)
Definition flask_pkg : pyobj :=
  PyModule (Some "flask") no_info [("Flask", PyClass "Flask" no_info [])].

(** C9 at [flask_pkg]: the walk emits the class record [flask.Flask] with
    no module and with an empty [class] field, as for every class record;
    the fallback rule reads that field and not the name of the class, so
    the class named [Flask] is put under [UnknownModule] and not under
    [flask.app], in the RDF graph and in the store. *)
Lemma class_named_flask_gets_generic_module :
  ∃ rs v,
    traverse_module (λ p, Ok p) flask_pkg ∅ = Ok (rs, v)
    ∧ (_id <$> rs = ["flask"; "flask.Flask"])
    ∧ (type <$> rs = ["module"; "class"])
    ∧ (class <$> rs = [None; None])
    ∧ (module <$> rs = [None; None])
    ∧ (uri_encode (code "Module") "UnknownModule", code "include",
       uri_encode (code "Class") "flask.Flask")
        ∈ graph (build_knowledge_graph rs "MyLibrary")
    ∧ ((uri_encode (code "Module") "flask.app", code "include",
        uri_encode (code "Class") "flask.Flask")
         ∉ graph (build_knowledge_graph rs "MyLibrary"))
    ∧ related_in (write_to_neo4j_py2neo "MyLibrary" rs empty_store)
                 "Module" "UnknownModule" "INCLUDE" "Class" "flask.Flask"
    ∧ Forall (λ n, ¬ has_key "Module" "flask.app" n)
             (nodes (write_to_neo4j_py2neo "MyLibrary" rs empty_store)).
Proof.
  destruct (traverse_module (λ p, Ok p) flask_pkg ∅) as [[rs v]|] eqn:Hrun;
    [|by vm_compute in Hrun].
  exists rs, v. split; [done|].
  vm_compute in Hrun. injection Hrun as <- _.
  do 4 (split; [reflexivity|]).
  split.
  { eapply build_knowledge_graph_keeps; [right; left|].
    intros st Hok.
    lazymatch goal with
    | |- _ ∈ graph (process_item _ _ ?it) =>
        by destruct (process_item_fallback (library_node_of "MyLibrary") it st Hok
                       eq_refl eq_refl) as [H1 H2]
    end. }
  split.
  { apply (bool_decide_unpack _). vm_compute. exact I. }
  split.
  { rewrite write_to_neo4j_py2neo_run. apply run_related_in.
    lazymatch goal with
    | |- _ ∈ program_ops _ [?m; ?it] =>
        apply (program_ops_item _ _ it); [right; left|];
        exact (item_ops_fallback "MyLibrary" it eq_refl eq_refl)
    end. }
  apply (bool_decide_unpack _). vm_compute. exact I.
Qed.

End FallbackOnWalk.

(** * The environment set-up of the extractor

    The functions of [extract_package_api.py] that prepare the virtual
    environment.  The platform ([os.name], [sys.version_info],
    [os.path.join]), the [packaging.version] library and
    [subprocess.check_call] are parameters; a run returns its outcome and
    the commands it has executed, in order.  An exception is identified by
    the name of its class. *)

Module VenvSetup.

Section Env.

Variable os_name : string.
Variable version_info : nat * nat.
Variable path_join : string → list string → string.
Variable Version : Type.
Variable version_parse : string → result Version.
Variable version_lt : Version → Version → bool.
Variable check_call : list string → result unit.

Definition get_python_path (venv_path : string) : string :=
  if String.eqb os_name "nt" then path_join venv_path ["Scripts"; "python.exe"]
  else path_join venv_path ["bin"; "python"].

Definition upgrade_build_tools (python_path : string) : result unit * list (list string) :=
  let command :=
    [python_path; "-m"; "pip"; "install"; "--upgrade"; "pip"; "setuptools"; "wheel"] in
  (check_call command, [command]).

(** [sys.version_info >= (3, 11)]. *)
Definition python_3_11 : bool :=
  ((3 <? version_info.1) || ((version_info.1 =? 3) && (11 <=? version_info.2)))%nat.

(** The compatibility block: the version that will be requested. *)
Definition compatible_version (package_name : string) (package_version : option string)
  : option string :=
  if String.eqb (PyStr.lower package_name) "numpy" && python_3_11 then
    match package_version with
    | Some requested =>
        if PyStr.truthy requested then
          match (v ← version_parse requested;
                 bound ← version_parse "1.23";
                 mret (version_lt v bound)) with
          | Ok true => Some "1.23.5"
          | Ok false => package_version
          | Raise _ => None
          end
        else package_version
    | None => package_version
    end
  else package_version.

Definition pkg_spec (package_name : string) (package_version : option string) : string :=
  if PyStr.truthy_opt package_version
  then (package_name ++ "==" ++ default EmptyString package_version)%string
  else package_name.

Definition install_package_in_venv (venv_path package_name : string)
    (package_version : option string) : result unit * list (list string) :=
  let python_path := get_python_path venv_path in
  let '(upgraded, log) := upgrade_build_tools python_path in
  match upgraded with
  | Raise e => (Raise e, log)
  | Ok _ =>
      let spec := pkg_spec package_name (compatible_version package_name package_version) in
      let command := [python_path; "-m"; "pip"; "install"; "--prefer-binary"; spec] in
      (match check_call command with
       | Ok _ => Ok tt
       | Raise e => if String.eqb e "CalledProcessError" then Raise "RuntimeError"
                    else Raise e
       end, log ++ [command])
  end.

(** The call of [install_package_in_venv] in [main]: a [RuntimeError]
    ends the program with [sys.exit(1)]. *)
Definition install_or_exit (venv_path package_name : string)
    (package_version : option string) : result unit * list (list string) :=
  let '(installed, log) := install_package_in_venv venv_path package_name package_version in
  (match installed with
   | Ok _ => Ok tt
   | Raise e => if String.eqb e "RuntimeError" then Raise "SystemExit" else Raise e
   end, log).

Definition site_packages (venv_path : string) : string :=
  if String.eqb os_name "nt" then path_join venv_path ["Lib"; "site-packages"]
  else
    let py_ver := (NilZero.string_of_uint (Nat.to_uint version_info.1) ++ "."
                     ++ NilZero.string_of_uint (Nat.to_uint version_info.2))%string in
    path_join venv_path ["lib"; ("python" ++ py_ver)%string; "site-packages"].

(** [sys.path] after [add_venv_site_packages_to_sys_path]. *)
Definition add_venv_site_packages_to_sys_path (venv_path : string) (sys_path : list string)
  : list string :=
  if decide (site_packages venv_path ∈ sys_path) then sys_path
  else site_packages venv_path :: sys_path.

(** X27: the requirement handed to pip is the package name, alone or
    pinned; the pin is the requested version or, for numpy on Python 3.11
    and later only, 1.23.5.  For any other package, or on an older
    Python, the request is passed through and [version.parse] plays no
    part. *)
Theorem pkg_spec_cases package_name package_version :
  let spec := pkg_spec package_name (compatible_version package_name package_version) in
  (spec = package_name
   ∨ (∃ requested, package_version = Some requested ∧ PyStr.truthy requested = true
                   ∧ spec = (package_name ++ "==" ++ requested)%string)
   ∨ (PyStr.lower package_name = "numpy" ∧ python_3_11 = true
      ∧ (∃ requested v bound,
           package_version = Some requested
           ∧ version_parse requested = Ok v ∧ version_parse "1.23" = Ok bound
           ∧ version_lt v bound = true)
      ∧ spec = (package_name ++ "==1.23.5")%string))
  ∧ (PyStr.lower package_name ≠ "numpy" ∨ python_3_11 = false →
     spec = pkg_spec package_name package_version).
Proof.
  intros spec. subst spec. unfold compatible_version. split.
  - destruct (String.eqb_spec (PyStr.lower package_name) "numpy") as [Hname|Hname];
      destruct python_3_11 eqn:Hpy; simpl;
      destruct package_version as [requested|]; try (by left);
      try (unfold pkg_spec; simpl; destruct (PyStr.truthy requested) eqn:Htr;
           [right; left; by exists requested|by left]).
    destruct (PyStr.truthy requested) eqn:Htr.
    2: { unfold pkg_spec. simpl. rewrite Htr. by left. }
    unfold mbind, result_bind, mret, result_ret.
    destruct (version_parse requested) as [v|] eqn:Hv; [|by left].
    destruct (version_parse "1.23") as [bound|] eqn:Hb; [|by left].
    destruct (version_lt v bound) eqn:Hlt.
    + right; right. split_and!; try done. by exists requested, v, bound.
    + right; left. exists requested. unfold pkg_spec. simpl. by rewrite Htr.
  - intros [Hname|Hpy].
    + destruct (String.eqb_spec (PyStr.lower package_name) "numpy"); done.
    + rewrite Hpy. by rewrite andb_false_r.
Qed.

(** X28: when the upgrade of the build tools fails, the installation is
    not attempted and the exception of the upgrade leaves
    [install_package_in_venv] as it is, so that a [CalledProcessError]
    passes the [RuntimeError] handler of [main]; when the upgrade succeeds
    and pip fails on the package, the error is a [RuntimeError] and [main]
    exits. *)
Theorem install_failures venv_path package_name package_version :
  let python_path := get_python_path venv_path in
  let upgrade :=
    [python_path; "-m"; "pip"; "install"; "--upgrade"; "pip"; "setuptools"; "wheel"] in
  let install :=
    [python_path; "-m"; "pip"; "install"; "--prefer-binary";
     pkg_spec package_name (compatible_version package_name package_version)] in
  (∀ e, check_call upgrade = Raise e →
        install_package_in_venv venv_path package_name package_version
        = (Raise e, [upgrade])
        ∧ (e ≠ "RuntimeError" →
           install_or_exit venv_path package_name package_version = (Raise e, [upgrade])))
  ∧ (check_call upgrade = Ok tt → check_call install = Raise "CalledProcessError" →
     install_package_in_venv venv_path package_name package_version
     = (Raise "RuntimeError", [upgrade; install])
     ∧ install_or_exit venv_path package_name package_version
       = (Raise "SystemExit", [upgrade; install]))
  ∧ (check_call upgrade = Ok tt → check_call install = Ok tt →
     install_or_exit venv_path package_name package_version = (Ok tt, [upgrade; install])).
Proof.
  intros python_path upgrade install.
  unfold install_or_exit, install_package_in_venv, upgrade_build_tools.
  fold python_path. fold upgrade. fold install. split_and!.
  - intros e He. rewrite He. split; [done|]. intros Hne.
    by destruct (String.eqb_spec e "RuntimeError").
  - intros Hup Hin. rewrite Hup, Hin. done.
  - intros Hup Hin. rewrite Hup, Hin. done.
Qed.

(** X29: after [add_venv_site_packages_to_sys_path] the site-packages
    directory is on the path; the entries that were there follow in their
    order; no entry is added when the directory is already there, so a
    second call changes nothing. *)
Theorem add_venv_site_packages_to_sys_path_spec venv_path sys_path :
  let added := add_venv_site_packages_to_sys_path venv_path sys_path in
  site_packages venv_path ∈ added
  ∧ sys_path `suffix_of` added
  ∧ (NoDup sys_path → NoDup added)
  ∧ add_venv_site_packages_to_sys_path venv_path added = added.
Proof.
  intros added. subst added. unfold add_venv_site_packages_to_sys_path.
  destruct (decide (site_packages venv_path ∈ sys_path)) as [Hin|Hnew].
  - rewrite decide_True by done. by repeat split.
  - rewrite decide_True by left. split_and!.
    + left.
    + by apply suffix_cons_r.
    + intros Hnd. by constructor.
    + done.
Qed.

End Env.

(** A platform for examples: POSIX paths, Python 3.12, two known versions,
    and a pip that fails on every command. *)
Definition posix_join (base : string) (parts : list string) : string :=
  PyStr.join "/" (base :: parts).

Definition known_versions (s : string) : result nat :=
  if String.eqb s "1.21" then Ok 121
  else if String.eqb s "1.23" then Ok 123
  else Raise "InvalidVersion".

Lemma pkg_spec_cases_witness :
  pkg_spec "flask" (compatible_version (3, 12) nat known_versions Nat.ltb "flask" (Some "2.0"))
  = "flask==2.0".
Proof.
  destruct (pkg_spec_cases (3, 12) nat known_versions Nat.ltb "flask" (Some "2.0"))
    as [_ H].
  rewrite H; [reflexivity|]. left. discriminate.
Defined.

Lemma install_failures_witness :
  install_or_exit "posix" (3, 12) posix_join nat known_versions Nat.ltb
                  (λ _, Raise "CalledProcessError") "venv" "flask" None
  = (Raise "CalledProcessError",
     [["venv/bin/python"; "-m"; "pip"; "install"; "--upgrade"; "pip"; "setuptools"; "wheel"]]).
Proof.
  destruct (install_failures "posix" (3, 12) posix_join nat known_versions Nat.ltb
              (λ _, Raise "CalledProcessError") "venv" "flask" None) as [H _].
  destruct (H "CalledProcessError" eq_refl) as [_ H'].
  apply H'. discriminate.
Defined.

End VenvSetup.

(** * Further properties of the two stages together *)

Module PipelineMore.

Import ExtractPackageApi BuildKg WalkerFacts BuildKgFacts StrFacts WalkerMore BuildKgMore.

(** X30: in the graph built from the records of a walk, a method record
    comes with the record of its class, whose identifier is its own
    without the last segment; the Class node of that record is in the
    graph, while [hasMethod] starts from the Class node made from the
    [class] field; when the class is bound under its own name, these are
    two different nodes. *)
Theorem walk_method_owner_node relpath root visited rs v library_name r :
  traverse_module relpath root visited = Ok (rs, v) →
  r ∈ rs →
  type r = "member_function" →
  ∃ cr mod_name name c sub_name,
    cr ∈ rs ∧ type cr = "class"
    ∧ _id cr = (mod_name ++ "." ++ name)%string
    ∧ _id r = (_id cr ++ "." ++ sub_name)%string
    ∧ class r = Some c
    ∧ (uri_encode (code "Class") (_id cr), RDF_type, code "Class")
        ∈ graph (build_knowledge_graph rs library_name)
    ∧ (PyStr.truthy c = true →
       (uri_encode (code "Class") c, code "hasMethod", uri_encode (code "API") (_id r))
         ∈ graph (build_knowledge_graph rs library_name))
    ∧ (c = name →
       uri_encode (code "Class") c ≠ uri_encode (code "Class") (_id cr)).
Proof.
  intros Hrun Hr Hty.
  destruct (traverse_module_grouped relpath root visited rs v Hrun r Hr Hty)
    as (cr & mod_name & name & c & sub_name & Hcr & Hcty & Hcid & Hrid & Hcls).
  exists cr, mod_name, name, c, sub_name. split_and!; try done.
  - apply (build_knowledge_graph_keeps rs library_name cr _ Hcr).
    intros st Hok. by apply process_item_class_node.
  - intros Hc. apply (build_knowledge_graph_keeps rs library_name r _ Hr).
    intros st Hok.
    destruct (process_item_method_owner (library_node_of library_name) r st Hok Hty)
      as [_ H]; [by rewrite Hcls|].
    by rewrite Hcls in H.
  - intros -> Heq. unfold uri_encode in Heq. injection Heq as Heq.
    apply string_app_inv_l in Heq.
    apply (f_equal String.length) in Heq.
    rewrite !safe_id_length, Hcid, !length_app in Heq. simpl in Heq. lia.
Qed.

Lemma walk_method_owner_node_witness :
  ∃ rs v r,
    traverse_module (λ p, Ok p) widget_pkg ∅ = Ok (rs, v)
    ∧ r ∈ rs
    ∧ ∃ cr c, cr ∈ rs ∧ type cr = "class" ∧ class r = Some c
              ∧ (uri_encode (code "Class") (_id cr), RDF_type, code "Class")
                  ∈ graph (build_knowledge_graph rs "MyLibrary").
Proof.
  destruct (traverse_module (λ p, Ok p) widget_pkg ∅) as [[rs v]|] eqn:Hrun;
    [|by vm_compute in Hrun].
  assert (∃ r, r ∈ rs ∧ type r = "member_function") as (r & Hr & Hty).
  { vm_compute in Hrun. injection Hrun as <- _. eexists. split; [do 2 right; left|done]. }
  exists rs, v, r. split; [done|]. split; [done|].
  destruct (walk_method_owner_node (λ p, Ok p) widget_pkg ∅ rs v "MyLibrary" r Hrun Hr Hty)
    as (cr & mod_name & name & c & sub_name & Hcr & Hcty & _ & _ & Hcls & Hnode & _).
  by exists cr, c.
Defined.

End PipelineMore.
